(** * activepipe: semi-supervised naive Bayes and the active-learning pipeline

    A shallow embedding of [em_bayes.py], [activepipe.py], [defaults.py] and
    [visualization.py].

    Conventions of the embedding.
    - numpy float arrays are arrays of real numbers ([R]); [np.log] and
      [np.exp] are [ln] and [exp], and rounding is left out.  Real numbers
      have no [-inf] and no NaN: the model follows the code on the runs in
      which every logarithm is taken at a positive number.  A smoothing
      parameter [alpha > 0] over non-negative counts guarantees this for
      [feature_log_prob_]; the learned class prior needs label mass in
      every class, and the scores of a [BernoulliNB] need feature
      probabilities below 1.  The theorems that depend on it say so in
      their hypotheses ([prior_from_arguments], [scores_finite]).
    - a 2-D array carries its shape, as numpy's does, so that arrays with no
      rows still know how many columns they have.
    - a Python method that mutates [self] and may raise returns the new
      object together with a [result].
    - scores that are only compared (argsort) are rationals; the random
      draw of [random.random()] is a double, given by its 53-bit numerator,
      and its product with the pool size is rounded as doubles are. *)

From Stdlib Require Import Reals Lra Lia List ZArith QArith String Bool Arith.
From Stdlib Require Import Sorted Permutation.
From stdpp Require Import gmap strings.
Import ListNotations.

Set Implicit Arguments.

(** ** Python exceptions and results *)

Inductive exn : Type :=
| TypeError | ValueError | AssertionError | AttributeError
| UnboundLocalError | IndexError | KeyError.

Inductive result (A : Type) : Type :=
| Ok (a : A)
| Raise (e : exn).
Arguments Ok {A} a.
Arguments Raise {A} e.

Definition rbind {A B : Type} (r : result A) (k : A -> result B) : result B :=
  match r with
  | Ok a => k a
  | Raise e => Raise e
  end.

Notation "'let!' x ':=' c 'in' k" := (rbind c (fun x => k))
  (at level 10, x pattern, c at level 100, k at level 200).

Definition is_ok {A : Type} (r : result A) : bool :=
  match r with Ok _ => true | Raise _ => false end.

(** ** numpy arrays over the reals *)

Module Np.
Open Scope R_scope.

Record ndarray : Type := mkarray
  { shape0 : nat; shape1 : nat; data : list (list R) }.

(** The array of the given shape whose entry (i, j) is [f i j]. *)
Definition tabulate (n m : nat) (f : nat -> nat -> R) : ndarray :=
  mkarray n m (map (fun i => map (f i) (seq 0 m)) (seq 0 n)).

Definition get (A : ndarray) (i j : nat) : R := nth j (nth i (data A) []) 0.

Definition well_shaped (A : ndarray) : Prop :=
  length (data A) = shape0 A /\ Forall (fun r => length r = shape1 A) (data A).

Definition vtabulate (n : nat) (f : nat -> R) : list R := map f (seq 0 n).

(** [rsum n f] is f 0 + ... + f (n-1). *)
Definition rsum (n : nat) (f : nat -> R) : R :=
  fold_right Rplus 0 (vtabulate n f).

Definition vsum (v : list R) : R := fold_right Rplus 0 v.

(** [A.T] *)
Definition T (A : ndarray) : ndarray :=
  tabulate (shape1 A) (shape0 A) (fun i j => get A j i).

(** [safe_sparse_dot(A, B)] on dense arrays is [np.dot]: it raises a
    ValueError when the inner dimensions differ. *)
Definition dot (A B : ndarray) : result ndarray :=
  if Nat.eqb (shape1 A) (shape0 B)
  then Ok (tabulate (shape0 A) (shape1 B)
             (fun i j => rsum (shape1 A) (fun k => get A i k * get B k j)))
  else Raise ValueError.

Definition map_array (f : R -> R) (A : ndarray) : ndarray :=
  tabulate (shape0 A) (shape1 A) (fun i j => f (get A i j)).

(** [A.sum(axis=1)] and [A.sum(axis=0)] *)
Definition sum_axis1 (A : ndarray) : list R :=
  vtabulate (shape0 A) (fun i => rsum (shape1 A) (fun j => get A i j)).
Definition sum_axis0 (A : ndarray) : list R :=
  vtabulate (shape1 A) (fun j => rsum (shape0 A) (fun i => get A i j)).

(** [A + v] and [v - A] for a 1-D [v] of length [A.shape[1]] (broadcast over
    the rows); any other length is reported as the ValueError numpy raises
    for shapes that do not match. *)
Definition add_rowvec (A : ndarray) (v : list R) : result ndarray :=
  if Nat.eqb (length v) (shape1 A)
  then Ok (tabulate (shape0 A) (shape1 A) (fun i j => get A i j + nth j v 0))
  else Raise ValueError.
Definition rowvec_sub (v : list R) (A : ndarray) : result ndarray :=
  if Nat.eqb (length v) (shape1 A)
  then Ok (tabulate (shape0 A) (shape1 A) (fun i j => nth j v 0 - get A i j))
  else Raise ValueError.

(** [A + B], [A - B] and [v - w] for arrays of one shape. *)
Definition add (A B : ndarray) : result ndarray :=
  if Nat.eqb (shape0 A) (shape0 B) && Nat.eqb (shape1 A) (shape1 B)
  then Ok (tabulate (shape0 A) (shape1 A) (fun i j => get A i j + get B i j))
  else Raise ValueError.
Definition sub (A B : ndarray) : result ndarray :=
  if Nat.eqb (shape0 A) (shape0 B) && Nat.eqb (shape1 A) (shape1 B)
  then Ok (tabulate (shape0 A) (shape1 A) (fun i j => get A i j - get B i j))
  else Raise ValueError.
Definition vsub (v w : list R) : result (list R) :=
  if Nat.eqb (length v) (length w)
  then Ok (vtabulate (length v) (fun i => nth i v 0 - nth i w 0))
  else Raise ValueError.

(** [A - np.atleast_2d(v).T]: subtract [v[i]] from every entry of row i. *)
Definition sub_colvec (A : ndarray) (v : list R) : result ndarray :=
  if Nat.eqb (length v) (shape0 A)
  then Ok (tabulate (shape0 A) (shape1 A) (fun i j => get A i j - nth i v 0))
  else Raise ValueError.

(** [A[idx, :]]: the rows at the given indices, in that order (a copy). *)
Definition take_rows (A : ndarray) (idx : list nat) : result ndarray :=
  if forallb (fun i => Nat.ltb i (shape0 A)) idx
  then Ok (mkarray (length idx) (shape1 A)
             (map (fun i => vtabulate (shape1 A) (get A i)) idx))
  else Raise IndexError.

(** [np.where(y != v)[0]] and [np.where(y == v)[0]] on a 1-D integer array *)
Definition where_ne (y : list Z) (v : Z) : list nat :=
  filter (fun i => negb (Z.eqb (nth i y 0%Z) v)) (seq 0 (length y)).
Definition where_eq (y : list Z) (v : Z) : list nat :=
  filter (fun i => Z.eqb (nth i y 0%Z) v) (seq 0 (length y)).

(** [np.unique(y)]: the sorted distinct values. *)
Fixpoint insert_unique (x : Z) (l : list Z) : list Z :=
  match l with
  | [] => [x]
  | h :: t => if Z.ltb x h then x :: l
              else if Z.eqb x h then l
              else h :: insert_unique x t
  end.
Definition unique (y : list Z) : list Z := fold_right insert_unique [] y.

(** [binarize(X, threshold)]: 1 where the entry exceeds the threshold. *)
Definition binarize (X : ndarray) (threshold : R) : ndarray :=
  map_array (fun x => if Rlt_dec threshold x then 1 else 0) X.

(** [scipy.linalg.norm(v, 1)] of a 1-D array: the sum of absolute values. *)
Definition norm1_vec (v : list R) : R := vsum (map Rabs v).

(** The maximum of a non-empty list of non-negative reals. *)
Definition max_list (v : list R) : R := fold_right Rmax 0 v.

(** [scipy.linalg.norm(A, 1)] of a 2-D array is the matrix norm induced by
    the vector 1-norm, [max(sum(abs(A), axis=0))]: the largest absolute
    column sum.  With no column there is nothing to take the maximum of
    (numpy raises ValueError). *)
Definition norm1_mat (A : ndarray) : result R :=
  if Nat.eqb (shape1 A) 0 then Raise ValueError
  else Ok (max_list (sum_axis0 (map_array Rabs A))).

End Np.

(** ** em_bayes.py: the discrete naive Bayes classifiers *)

Module NaiveBayes.
Import Np.
Open Scope R_scope.

(** The two concrete subclasses of [BaseDiscreteNB].  [BernoulliNB] carries
    its [binarize] threshold ([None]: the input is taken as binary). *)
Inductive Variant : Type :=
| Multinomial
| Bernoulli (binarize_threshold : option R).

(** A [BaseDiscreteNB] object.  The three fitted attributes do not exist
    before the first fit ([None]). *)
Record DiscreteNB : Type := mkDiscreteNB
  { variant : Variant;
    alpha : R;
    fit_prior : bool;
    _classes : option (list Z);
    class_log_prior_ : option (list R);
    feature_log_prob_ : option ndarray }.

Definition set_classes (self : DiscreteNB) (c : list Z) : DiscreteNB :=
  mkDiscreteNB (variant self) (alpha self) (fit_prior self)
    (Some c) (class_log_prior_ self) (feature_log_prob_ self).
Definition set_class_log_prior (self : DiscreteNB) (p : list R) : DiscreteNB :=
  mkDiscreteNB (variant self) (alpha self) (fit_prior self)
    (_classes self) (Some p) (feature_log_prob_ self).
Definition set_feature_log_prob (self : DiscreteNB) (A : ndarray) : DiscreteNB :=
  mkDiscreteNB (variant self) (alpha self) (fit_prior self)
    (_classes self) (class_log_prior_ self) (Some A).

(** [intercept_] and [coef_] are properties reading the fitted attributes;
    reading them on an unfitted object raises AttributeError. *)
Definition intercept_ (self : DiscreteNB) : result (list R) :=
  match class_log_prior_ self with Some p => Ok p | None => Raise AttributeError end.
Definition coef_ (self : DiscreteNB) : result ndarray :=
  match feature_log_prob_ self with Some A => Ok A | None => Raise AttributeError end.

(** Modelled from the spec: [LabelBinarizer] ([.preprocessing]) is not among
    the source files.  Its [classes_] are the sorted distinct labels; its
    [fit_transform] gives one indicator column per class, and a single
    column (the indicator of the second class) when there are at most two
    classes, which is the case lines 289-290 of [_label_1ofK] expand. *)
Definition LabelBinarizer_classes (y : list Z) : list Z := unique y.
Definition LabelBinarizer_fit_transform (y : list Z) : ndarray :=
  let classes := LabelBinarizer_classes y in
  let indicator (k : nat) (i : nat) : R :=
    if Z.eqb (nth i y 0%Z) (nth k classes 0%Z) then 1 else 0 in
  match length classes with
  | O => tabulate (length y) 0 (fun _ _ => 0)
  | 1%nat => tabulate (length y) 1 (fun _ _ => 0)
  | 2%nat => tabulate (length y) 1 (fun i _ => indicator 1%nat i)
  | n => tabulate (length y) n (fun i k => indicator k i)
  end.

(** The [y] argument of [fit]: a 1-D label vector or a 2-D array that is
    already in 1-of-K form. *)
Inductive labels : Type :=
| Labels1D (y : list Z)
| Labels2D (Y : ndarray).

(** [BaseDiscreteNB._label_1ofK]: converts the label vector to 1-of-K and
    sets [self._classes]. *)
Definition _label_1ofK (self : DiscreteNB) (y : labels) : DiscreteNB * ndarray :=
  match y with
  | Labels1D y =>
      let Y := LabelBinarizer_fit_transform y in
      let self := set_classes self (LabelBinarizer_classes y) in
      if Nat.eqb (shape1 Y) 1
      then (self, tabulate (shape0 Y) 2
                    (fun i j => if Nat.eqb j 0 then 1 - get Y i 0 else get Y i 0))
      else (self, Y)
  | Labels2D Y => (self, Y)
  end.

(** [BaseDiscreteNB._count], with the override of [BernoulliNB._count] that
    binarizes X first. *)
Definition _count (self : DiscreteNB) (X Y : ndarray) : result (list R * ndarray) :=
  let X := match variant self with
           | Bernoulli (Some threshold) => binarize X threshold
           | _ => X
           end in
  let! N_c_i := dot (T Y) X in
  Ok (sum_axis1 N_c_i, N_c_i).

(** [Y *= array2d(sample_weight).T]: row i of Y is scaled by the weight of
    sample i (a single weight scales every row, by broadcasting). *)
Definition scale_rows (Y : ndarray) (sample_weight : list R) : result ndarray :=
  if Nat.eqb (length sample_weight) (shape0 Y)
  then Ok (tabulate (shape0 Y) (shape1 Y) (fun i j => get Y i j * nth i sample_weight 0))
  else if Nat.eqb (length sample_weight) 1
  then Ok (tabulate (shape0 Y) (shape1 Y) (fun i j => get Y i j * nth 0 sample_weight 0))
  else Raise ValueError.

(** [BaseDiscreteNB._fit1ofK].  The estimator comes back as far as it was
    mutated when an exception is raised.  The learned prior of line 257 is
    the logarithm of the label mass of each class: for a class without
    label mass numpy stores [-inf], which the model cannot show (see
    [prior_from_arguments]). *)
Definition _fit1ofK (self : DiscreteNB) (X Y : ndarray)
    (sample_weight : option (list R)) (class_prior : option (list R))
    : DiscreteNB * result unit :=
  let n_classes := shape1 Y in
  match (match sample_weight with
         | Some w => scale_rows Y w
         | None => Ok Y
         end) with
  | Raise e => (self, Raise e)
  | Ok Y =>
    match (match class_prior with
           | Some (p :: ps) =>
               if Nat.eqb (length (p :: ps)) n_classes
               then Ok (map ln (p :: ps))
               else Raise AssertionError
           | _ =>
               if fit_prior self
               then let y_freq := sum_axis0 Y in
                    Ok (map (fun f => ln f - ln (vsum y_freq)) y_freq)
               else Ok (vtabulate n_classes (fun _ => 0 - ln (INR n_classes)))
           end) with
    | Raise e => (self, Raise e)
    | Ok prior =>
      let self := set_class_log_prior self prior in
      match _count self X Y with
      | Raise e => (self, Raise e)
      | Ok (N_c, N_c_i) =>
          (set_feature_log_prob self
             (tabulate (shape0 N_c_i) (shape1 N_c_i)
                (fun c i => ln (get N_c_i c i + alpha self)
                            - ln (nth c N_c 0 + alpha self * INR (shape1 X)))),
           Ok tt)
      end
    end
  end.

(** [BaseDiscreteNB.fit] *)
Definition fit (self : DiscreteNB) (X : ndarray) (y : labels)
    (sample_weight : option (list R)) (class_prior : option (list R))
    : DiscreteNB * result unit :=
  let '(self, Y) := _label_1ofK self y in
  if negb (Nat.eqb (shape0 X) (shape0 Y))
  then (self, Raise ValueError)
  else _fit1ofK self X Y sample_weight class_prior.

(** [MultinomialNB._joint_log_likelihood] and
    [BernoulliNB._joint_log_likelihood].  The logarithm of line 465,
    [np.log(1 - np.exp(self.feature_log_prob_))], is a number only where
    the feature probability is below 1 (see [scores_finite]). *)
Definition _joint_log_likelihood (self : DiscreteNB) (X : ndarray) : result ndarray :=
  match variant self with
  | Multinomial =>
      let! coef := coef_ self in
      let! XW := dot X (T coef) in
      let! b := intercept_ self in
      add_rowvec XW b
  | Bernoulli threshold =>
      let X := match threshold with
               | Some t => binarize X t
               | None => X
               end in
      let! flp := coef_ self in
      let n_features := shape1 flp in
      let n_features_X := shape1 X in
      if negb (Nat.eqb n_features_X n_features) then Raise ValueError
      else
        let neg_prob := map_array (fun v => ln (1 - exp v)) flp in
        let! Xn := dot X (T neg_prob) in
        let! X_neg_prob := rowvec_sub (sum_axis1 neg_prob) Xn in
        let! XW := dot X (T flp) in
        let! jll := add XW X_neg_prob in
        let! b := intercept_ self in
        add_rowvec jll b
  end.

(** Modelled from the spec: [logsumexp] ([.utils.extmath]) is not among the
    source files.  Per row it is the log of the sum of the exponentials,
    computed stably: the row maximum is subtracted before exponentiating and
    added back after the logarithm.  The maximum of an empty row does not
    exist (numpy raises ValueError). *)
Definition row_max (row : list R) : R :=
  match row with
  | [] => 0
  | x :: xs => fold_right Rmax x xs
  end.
Definition logsumexp_row (row : list R) : R :=
  let vmax := row_max row in
  ln (vsum (map (fun x => exp (x - vmax)) row)) + vmax.
Definition logsumexp_axis1 (A : ndarray) : result (list R) :=
  if Nat.eqb (shape1 A) 0 then Raise ValueError
  else Ok (vtabulate (shape0 A) (fun i => logsumexp_row (vtabulate (shape1 A) (get A i)))).

(** [BaseNB.predict_log_proba] and [BaseNB.predict_proba].  In the model a
    probability is the exponential of a real number and so positive; in
    floats it can underflow to 0. *)
Definition predict_log_proba (self : DiscreteNB) (X : ndarray) : result ndarray :=
  let! jll := _joint_log_likelihood self X in
  let! log_prob_x := logsumexp_axis1 jll in
  sub_colvec jll log_prob_x.

Definition predict_proba (self : DiscreteNB) (X : ndarray) : result ndarray :=
  let! L := predict_log_proba self X in
  Ok (map_array exp L).

(** The array whose features [_count] counts: X itself, or X binarized for a
    [BernoulliNB] with a threshold. *)
Definition counted (self : DiscreteNB) (X : ndarray) : ndarray :=
  match variant self with
  | Bernoulli (Some threshold) => binarize X threshold
  | _ => X
  end.

(** The label matrix after line 249: Y with row i scaled by the weight of
    sample i, when weights are given. *)
Definition weighted (Y : ndarray) (sample_weight : option (list R)) : result ndarray :=
  match sample_weight with
  | Some w => scale_rows Y w
  | None => Ok Y
  end.

(** The class prior that [_fit1ofK] computes at lines 251-260. *)
Definition prior_of (self : DiscreteNB) (Y : ndarray) (n_classes : nat)
    (class_prior : option (list R)) : result (list R) :=
  match class_prior with
  | Some (p :: ps) =>
      if Nat.eqb (length (p :: ps)) n_classes
      then Ok (map ln (p :: ps))
      else Raise AssertionError
  | _ =>
      if fit_prior self
      then let y_freq := sum_axis0 Y in
           Ok (map (fun f => ln f - ln (vsum y_freq)) y_freq)
      else Ok (vtabulate n_classes (fun _ => 0 - ln (INR n_classes)))
  end.

(** The claimed estimate, in the words of the specification: with
    [N_ci = sum_r Y[r][c] * X[r][i]] and [N_c = sum_i N_ci], the entry is
    [log(N_ci + alpha) - log(N_c + alpha * F)]. *)
Definition spec_N_ci (X Y : ndarray) (c i : nat) : R :=
  rsum (shape0 X) (fun r => get Y r c * get X r i).
Definition spec_N_c (X Y : ndarray) (c : nat) : R :=
  rsum (shape1 X) (fun i => spec_N_ci X Y c i).
Definition spec_feature_log_prob (a : R) (X Y : ndarray) (c i : nat) : R :=
  ln (spec_N_ci X Y c i + a) - ln (spec_N_c X Y c + a * INR (shape1 X)).

(** A classifier is fitted for C classes and F features when both fitted
    attributes exist with these dimensions. *)
Definition fitted (self : DiscreteNB) (C F : nat) : Prop :=
  exists (prior : list R) (flp : ndarray),
    class_log_prior_ self = Some prior /\ feature_log_prob_ self = Some flp /\
    length prior = C /\ shape0 flp = C /\ shape1 flp = F.

(** A class prior that passes the assertion of line 252 for C classes: a
    non-empty prior has one entry per class (an empty or absent one is not
    looked at). *)
Definition class_prior_fits (C : nat) (class_prior : option (list R)) : Prop :=
  match class_prior with
  | Some (p :: ps) => length (p :: ps) = C
  | _ => True
  end.

(** A class prior that comes from the arguments and not from the labels:
    given, with positive entries, or uniform ([fit_prior] disabled).  Its
    logarithms are numbers.  The learned prior of line 257 is outside: a
    class without label mass gets [np.log(0)]. *)
Definition prior_from_arguments (self : DiscreteNB)
    (class_prior : option (list R)) : Prop :=
  match class_prior with
  | Some (p :: ps) => Forall (fun q => 0 < q) (p :: ps)
  | _ => fit_prior self = false
  end.


(** [np.argmax(row)]: the first index of a largest entry; of an empty row
    there is none (numpy raises ValueError). *)
Fixpoint argmax_from (best : nat) (best_value : R) (i : nat) (row : list R) : nat :=
  match row with
  | [] => best
  | x :: rest =>
      if Rlt_dec best_value x
      then argmax_from i x (S i) rest
      else argmax_from best best_value (S i) rest
  end.
Definition argmax (row : list R) : result nat :=
  match row with
  | [] => Raise ValueError
  | x :: rest => Ok (argmax_from 0 x 1 rest)
  end.

(** [np.argmax(A, axis=1)] *)
Fixpoint argmax_rows (rows : list (list R)) : result (list nat) :=
  match rows with
  | [] => Ok []
  | row :: rest =>
      let! k := argmax row in
      let! ks := argmax_rows rest in
      Ok (k :: ks)
  end.
Definition argmax_axis1 (A : ndarray) : result (list nat) :=
  argmax_rows (map (fun i => vtabulate (shape1 A) (get A i)) (seq 0 (shape0 A))).

(** [classes[idx]] for an index array: IndexError for an index out of
    range. *)
Fixpoint take_classes (classes : list Z) (idx : list nat) : result (list Z) :=
  match idx with
  | [] => Ok []
  | k :: rest =>
      match nth_error classes k with
      | Some c => let! cs := take_classes classes rest in Ok (c :: cs)
      | None => Raise IndexError
      end
  end.

(** [BaseNB.predict] *)
Definition predict (self : DiscreteNB) (X : ndarray) : result (list Z) :=
  let! jll := _joint_log_likelihood self X in
  match _classes self with
  | None => Raise AttributeError
  | Some classes =>
      let! idx := argmax_axis1 jll in
      take_classes classes idx
  end.

(** Unfitted classifiers and a small data set: three samples over two
    features, the third sample unlabeled. *)
Definition unfitted_multinomial : DiscreteNB :=
  mkDiscreteNB Multinomial 1 true None None None.
Definition unfitted_bernoulli : DiscreteNB :=
  mkDiscreteNB (Bernoulli (Some 0)) 1 true None None None.
Definition three_samples : ndarray :=
  mkarray 3 2 [[1; 0]; [0; 1]; [1; 1]].
Definition three_labels : list Z := [0; 1; -1]%Z.

(** Two samples with counts above one, labelled 0 and 1. *)
Definition two_counts : ndarray := mkarray 2 2 [[2; 1]; [0; 1]].
Definition two_labels : list Z := [0; 1]%Z.

Definition uniform_multinomial : DiscreteNB :=
  mkDiscreteNB Multinomial 1 false None None None.

(** The labels 0, 1, 1 of the three samples in 1-of-K form. *)
Definition three_onehot : ndarray :=
  snd (_label_1ofK unfitted_multinomial (Labels1D [0; 1; 1]%Z)).

End NaiveBayes.

(** ** em_bayes.py: the EM meta-estimator *)

Module SemisupervisedNB.
Import Np NaiveBayes.
Open Scope R_scope.

(** What can be passed as [estimator]: one of the discrete classifiers, a
    [GaussianNB], or any other Python object. *)
Inductive pyobject : Type :=
| ObjDiscreteNB (clf : DiscreteNB)
| ObjGaussianNB
| ObjOther (repr : string).

(** [isinstance(estimator, BaseDiscreteNB)]: [MultinomialNB] and
    [BernoulliNB] are the subclasses of [BaseDiscreteNB]; [GaussianNB]
    derives from [BaseNB] directly. *)
Definition isinstance_BaseDiscreteNB (o : pyobject) : bool :=
  match o with
  | ObjDiscreteNB _ => true
  | _ => false
  end.

Record t : Type := mk
  { estimator : pyobject;
    n_iter : Z;
    relabel_all : bool;
    tol : R;
    verbose : bool }.

(** [SemisupervisedNB.__init__] *)
Definition __init__ (estimator : pyobject) (n_iter : Z) (relabel_all : bool)
    (tol : R) (verbose : bool) : result t :=
  if negb (isinstance_BaseDiscreteNB estimator)
  then Raise TypeError
  else Ok (mk estimator n_iter relabel_all tol verbose).

(** How the loop of [fit] was left: by [break] (the parameters moved less
    than the tolerance) or because [xrange(n_iter)] was used up. *)
Inductive em_exit : Type := Converged | MaxIterExceeded.

(** The convergence measure of lines 572-573:
    [norm(old_coef - clf.coef_, 1) + norm(old_intercept - clf.intercept_, 1)].
    scipy's [norm] raises ValueError on an array that holds [inf] or NaN,
    which the differences of real parameters never do. *)
Definition distance (old_coef : ndarray) (old_intercept : list R)
    (clf : DiscreteNB) : result R :=
  let! coef := coef_ clf in
  let! dc := sub old_coef coef in
  let! b := intercept_ clf in
  let! di := vsub old_intercept b in
  let! m := norm1_mat dc in
  Ok (m + norm1_vec di).

(** The E-step of lines 564-567.  [X_unlabeled] and [Y_unlabeled] are local
    variables that are bound only if line 545 took its branch; reading an
    unbound local raises UnboundLocalError.  [Y_unlabeled] was made by
    indexing with an index array, so it is a copy: assigning into it leaves
    [Y] as it is. *)
Definition e_step (relabel_all : bool) (clf : DiscreteNB) (X Y : ndarray)
    (X_unlabeled Y_unlabeled : option ndarray)
    : result (ndarray * option ndarray) :=
  if relabel_all
  then let! P := predict_proba clf X in Ok (P, Y_unlabeled)
  else match X_unlabeled with
       | None => Raise UnboundLocalError
       | Some Xu =>
           let! P := predict_proba clf Xu in
           match Y_unlabeled with
           | None => Raise UnboundLocalError
           | Some Yu =>
               if Nat.eqb (shape0 P) (shape0 Yu) && Nat.eqb (shape1 P) (shape1 Yu)
               then Ok (Y, Some P)
               else Raise ValueError
           end
       end.

(** The loop of lines 559-582, [n] iterations left. *)
Fixpoint em_loop (relabel_all : bool) (tol : R) (class_prior : option (list R))
    (n : nat) (clf : DiscreteNB) (X Y : ndarray)
    (X_unlabeled Y_unlabeled : option ndarray)
    (old_coef : ndarray) (old_intercept : list R)
    : DiscreteNB * result em_exit :=
  match n with
  | O => (clf, Ok MaxIterExceeded)
  | S n' =>
      match e_step relabel_all clf X Y X_unlabeled Y_unlabeled with
      | Raise e => (clf, Raise e)
      | Ok (Y, Y_unlabeled) =>
          match _fit1ofK clf X Y None class_prior with
          | (clf, Raise e) => (clf, Raise e)
          | (clf, Ok _) =>
              match distance old_coef old_intercept clf with
              | Raise e => (clf, Raise e)
              | Ok d =>
                  if Rlt_dec d tol then (clf, Ok Converged)
                  else
                    match coef_ clf, intercept_ clf with
                    | Ok c, Ok b =>
                        em_loop relabel_all tol class_prior n' clf X Y
                          X_unlabeled Y_unlabeled c b
                    | Raise e, _ | _, Raise e => (clf, Raise e)
                    end
              end
          end
      end
  end.

(** [SemisupervisedNB.fit(X, y, class_prior=...)], for a 1-D label vector
    [y] and [sample_weight] left at its default [None].  The result holds
    the estimator as the call left it. *)
Definition fit (self : t) (X : ndarray) (y : list Z)
    (class_prior : option (list R)) : t * result em_exit :=
  match estimator self with
  | ObjDiscreteNB clf =>
      let with_clf (clf : DiscreteNB) : t :=
        mk (ObjDiscreteNB clf) (n_iter self) (relabel_all self) (tol self)
           (verbose self) in
      let '(clf, Y) := _label_1ofK clf (Labels1D y) in
      let labeled := where_ne y (-1) in
      let unlabeled := where_eq y (-1) in
      match (if relabel_all self
             then let! Xu := take_rows X unlabeled in
                  let! Yu := take_rows Y unlabeled in
                  Ok (Some Xu, Some Yu)
             else Ok (None, None)) with
      | Raise e => (with_clf clf, Raise e)
      | Ok (X_unlabeled, Y_unlabeled) =>
          let n_features := shape1 X in
          let tol := tol self * INR n_features in
          match (let! Xl := take_rows X labeled in
                 let! Yl := take_rows Y labeled in
                 Ok (Xl, Yl)) with
          | Raise e => (with_clf clf, Raise e)
          | Ok (Xl, Yl) =>
              match _fit1ofK clf Xl Yl None class_prior with
              | (clf, Raise e) => (with_clf clf, Raise e)
              | (clf, Ok _) =>
                  match coef_ clf, intercept_ clf with
                  | Ok old_coef, Ok old_intercept =>
                      let '(clf, r) :=
                        em_loop (relabel_all self) tol class_prior
                          (Z.to_nat (n_iter self)) clf X Y
                          X_unlabeled Y_unlabeled old_coef old_intercept in
                      (with_clf clf, r)
                  | Raise e, _ | _, Raise e => (with_clf clf, Raise e)
                  end
              end
          end
      end
  | _ => (self, Raise AttributeError)
  end.

(** The convergence measure in words: the largest, over the features, of
    the sums over the classes of the absolute differences of the
    coefficients, plus the sum over the classes of the absolute differences
    of the intercepts. *)
Definition column_abs_sum (old new : ndarray) (j : nat) : R :=
  rsum (shape0 old) (fun c => Rabs (get old c j - get new c j)).
Definition largest_column_abs_sum (old new : ndarray) (m : R) : Prop :=
  (forall j : nat, (j < shape1 old)%nat -> column_abs_sum old new j <= m) /\
  (exists j : nat, (j < shape1 old)%nat /\ m = column_abs_sum old new j).
Definition intercept_abs_sum (old new : list R) : R :=
  rsum (length old) (fun c => Rabs (nth c old 0 - nth c new 0)).
Definition spec_distance (old_coef : ndarray) (old_intercept : list R)
    (coef : ndarray) (intercept : list R) (d : R) : Prop :=
  exists m : R,
    largest_column_abs_sum old_coef coef m /\
    d = m + intercept_abs_sum old_intercept intercept.

(** The measure the claim describes: the sum of all absolute differences of
    the coefficients, plus the sum of the absolute differences of the
    intercepts. *)
Definition entrywise_distance (old_coef : ndarray) (old_intercept : list R)
    (coef : ndarray) (intercept : list R) : R :=
  rsum (shape1 old_coef) (column_abs_sum old_coef coef)
  + intercept_abs_sum old_intercept intercept.

(** The course of the EM iterations in words, when every row is relabelled:
    with [n] iterations left, the E-step relabels all rows with
    [predict_proba], the M-step refits on them, and the distance between the
    snapshot and the new parameters decides: below the tolerance the run
    ends converged with the new parameters, otherwise these become the
    snapshot and the run goes on; with no iteration left the run ends with
    the parameters it has. *)
Inductive em_run (tolF : R) (class_prior : option (list R)) (X : ndarray)
  : nat -> DiscreteNB -> ndarray -> list R -> DiscreteNB -> em_exit -> Prop :=
| em_run_exhausted (clf : DiscreteNB) (oc : ndarray) (oi : list R) :
    em_run tolF class_prior X 0 clf oc oi clf MaxIterExceeded
| em_run_converged (n : nat) (clf clf' : DiscreteNB) (oc c' Y : ndarray)
    (oi b' : list R) (d : R) :
    predict_proba clf X = Ok Y ->
    _fit1ofK clf X Y None class_prior = (clf', Ok tt) ->
    coef_ clf' = Ok c' -> intercept_ clf' = Ok b' ->
    spec_distance oc oi c' b' d ->
    d < tolF ->
    em_run tolF class_prior X (S n) clf oc oi clf' Converged
| em_run_continue (n : nat) (clf clf' clf'' : DiscreteNB) (oc c' Y : ndarray)
    (oi b' : list R) (d : R) (ex : em_exit) :
    predict_proba clf X = Ok Y ->
    _fit1ofK clf X Y None class_prior = (clf', Ok tt) ->
    coef_ clf' = Ok c' -> intercept_ clf' = Ok b' ->
    spec_distance oc oi c' b' d ->
    ~ d < tolF ->
    em_run tolF class_prior X n clf' c' b' clf'' ex ->
    em_run tolF class_prior X (S n) clf oc oi clf'' ex.

(** Trainers around the unfitted multinomial classifier, one that relabels
    only the unlabeled rows and one that relabels all rows. *)
Definition trainer_unlabeled_only : t :=
  mk (ObjDiscreteNB unfitted_multinomial) 10 false (1 / 100000) false.
Definition trainer_relabel_all : t :=
  mk (ObjDiscreteNB unfitted_multinomial) 10 true (1 / 100000) false.

(** A trainer that relabels all rows, around the multinomial classifier
    with the uniform prior. *)
Definition trainer_uniform_prior : t :=
  mk (ObjDiscreteNB uniform_multinomial) 10 true (1 / 100000) false.

(** Two samples, one per class, each with its own feature, and a trainer
    whose tolerance lies between the two measures of the first iteration. *)
Definition one_feature_each : ndarray := mkarray 2 2 [[1; 0]; [0; 1]].
Definition trainer_between : t :=
  mk (ObjDiscreteNB unfitted_multinomial) 10 true (3 / 4 * ln (8 / 5)) false.

(** The first iteration of [fit] on these two samples, step by step: the
    labels in 1-of-K form, the classifier after the initial M-step with its
    parameters, the scores, log-probabilities and probabilities of the
    E-step, and the classifier after the M-step with its parameters. *)
Definition run_Y : ndarray := mkarray 2 2 [[1 - 0; 0]; [1 - 1; 1]].
Definition run_s1 : DiscreteNB :=
  fst (_label_1ofK unfitted_multinomial (Labels1D two_labels)).
Definition run_b0 : list R :=
  map (fun f => ln f - ln (vsum (sum_axis0 run_Y))) (sum_axis0 run_Y).
Definition run_c0 : ndarray := tabulate 2 2 (spec_feature_log_prob 1 one_feature_each run_Y).
Definition run_clf0 : DiscreteNB :=
  set_feature_log_prob (set_class_log_prior run_s1 run_b0) run_c0.
Definition run_jll : ndarray := tabulate 2 2
  (fun i j => rsum 2 (fun k => get one_feature_each i k * get (T run_c0) k j)
              + nth j run_b0 0).
Definition run_L : ndarray := tabulate 2 2
  (fun i j => get run_jll i j - logsumexp_row (vtabulate 2 (get run_jll i))).
Definition run_P : ndarray := map_array exp run_L.
Definition run_b1 : list R :=
  map (fun f => ln f - ln (vsum (sum_axis0 run_P))) (sum_axis0 run_P).
Definition run_c1 : ndarray := tabulate 2 2 (spec_feature_log_prob 1 one_feature_each run_P).
Definition run_clf1 : DiscreteNB :=
  set_feature_log_prob (set_class_log_prior run_clf0 run_b1) run_c1.

(** Trainers that allow no iteration. *)
Definition trainer_no_iterations : t :=
  mk (ObjDiscreteNB unfitted_multinomial) 0 false (1 / 100000) false.

End SemisupervisedNB.

(** ** defaults.py and activepipe.py *)

Module ActivePipe.
Open Scope Z_scope.

(** The Python values that configuration options take. *)
Inductive pyvalue : Type :=
| VNone
| VInt (n : Z)
| VFloat (q : Q)
| VStr (s : string)
| VClass (name : string)
| VInstance (class_name : string).

(** Dictionaries live in a store; a variable or attribute holds the address
    of a dictionary, so that two names for one dictionary see each other's
    updates. *)
Definition loc : Type := nat.
Definition store : Type := gmap loc (gmap string pyvalue).

(** defaults.py: the module-level dictionary [default_config], made once
    when the module is imported. *)
Definition default_config : loc := 0%nat.

Definition default_config_value : gmap string pyvalue :=
  list_to_map
    [ ("u_corpus_f", VStr "corpus/unlabeled_new_corpus.pickle");
      ("test_corpus_f", VStr "corpus/test_new_corpus.pickle");
      ("training_corpus_f", VStr "corpus/training_new_corpus.pickle");
      ("feature_corpus_f", VStr "corpus/feature_corpus.pickle");
      ("number_of_classes", VInt 30);
      ("number_of_features", VInt 30);
      ("classifier", VInstance "FeatMultinomialNB");
      ("feature_boost", VFloat (1 # 2));
      ("get_next_instance", VNone);
      ("get_next_features", VNone);
      ("handle_feature_prediction", VNone);
      ("get_class_options", VNone) ]%string.

Definition store_at_import : store := {[ default_config := default_config_value ]}.

(** [d[key]] for the dictionary at address [d]. *)
Definition getitem (h : store) (d : loc) (key : string) : result pyvalue :=
  match h !! d with
  | Some m => match m !! key with
              | Some v => Ok v
              | None => Raise KeyError
              end
  | None => Raise KeyError
  end.

(** [d.update(kwargs)]: every key of [kwargs] is set in the dictionary at
    [d], in place. *)
Definition dict_update (h : store) (d : loc) (kwargs : gmap string pyvalue) : store :=
  match h !! d with
  | Some m => <[ d := kwargs ∪ m ]> h
  | None => h
  end.

(** [v()]: a class can be called and gives an instance; the other values
    are not callable. *)
Definition call (v : pyvalue) : result pyvalue :=
  match v with
  | VClass name => Ok (VInstance name)
  | _ => Raise TypeError
  end.

(** An entry of a pickled corpus: a dictionary with a ['question'] and, when
    labelled, a ['target']. *)
Record entry : Type := mkentry { question : string; target : option string }.

Record ActivePipeline : Type := mkActivePipeline
  { filename : string;
    emulate : bool;
    config : loc;
    steps : list (string * pyvalue);
    unlabeled_corpus : list entry;
    user_vectors : list string;
    user_targets : list string;
    classes : list string }.

(** [ActivePipeline.__init__].  Lines 32-38 read files and train the
    pipeline; what they produce (the unlabeled corpus, the stored session
    and the classes of the trained classifier) is given as [loaded].  The
    store comes back as the call left it, also when it raises. *)
Definition __init__ (h : store) (session_filename : string) (emulate : bool)
    (kwargs : gmap string pyvalue)
    (loaded : list entry * (list string * list string) * list string)
    : store * result ActivePipeline :=
  let h := dict_update h default_config kwargs in
  let config := default_config in
  (h,
   let! c := getitem h config "classifier" in
   let! classifier := call c in
   let! features := getitem h config "features" in
   let steps := [("features"%string, features); ("classifier"%string, classifier)] in
   let '(unlabeled, (vectors, targets), classes) := loaded in
   Ok (mkActivePipeline session_filename emulate config steps
         unlabeled vectors targets classes)).

(** [numpy.argsort] of a 1-D array, of the default kind (quicksort): the
    indices in ascending order of their scores.  An array of at most 16
    elements is sorted by insertion, which leaves the indices of equal
    scores in ascending order.  A longer array is partitioned first, and
    where equal scores end up then depends on the partitioning, which is
    numpy's and is not modelled: [quicksort] stands for what numpy returns
    for a longer array, of which only [sorts] (below) is known. *)
Fixpoint insert_index (scores : list Q) (i : nat) (sorted : list nat) : list nat :=
  match sorted with
  | [] => [i]
  | j :: rest =>
      if Qle_bool (nth j scores 0%Q) (nth i scores 0%Q)
      then j :: insert_index scores i rest
      else i :: sorted
  end.
Definition insertion_argsort (scores : list Q) : list nat :=
  fold_left (fun sorted i => insert_index scores i sorted)
            (seq 0 (length scores)) [].
Definition argsort (quicksort : list Q -> list nat) (scores : list Q) : list nat :=
  if Nat.leb (length scores) 16 then insertion_argsort scores
  else quicksort scores.

(** [l[:k]] *)
Definition slice_to {A : Type} (l : list A) (k : Z) : list A :=
  if 0 <=? k then firstn (Z.to_nat k) l
  else firstn (length l - Z.to_nat (- k)) l.

(** [l[i]] for a non-negative [i], and [l[-1]] *)
Definition index {A : Type} (l : list A) (i : nat) : result A :=
  match nth_error l i with
  | Some x => Ok x
  | None => Raise IndexError
  end.
Definition index_last {A : Type} (l : list A) : result A :=
  match rev l with
  | x :: _ => Ok x
  | [] => Raise IndexError
  end.

Fixpoint class_names (classes : list string) (indexes : list nat) : result (list string) :=
  match indexes with
  | [] => Ok []
  | i :: rest =>
      let! c := index classes i in
      let! cs := class_names classes rest in
      Ok (c :: cs)
  end.

(** [l[:k]] for the value [k] of an option: an integer bounds the slice,
    [None] leaves the list whole, anything else is not an index. *)
Definition slice_to_value {A : Type} (l : list A) (k : pyvalue) : result (list A) :=
  match k with
  | VInt k => Ok (slice_to l k)
  | VNone => Ok l
  | _ => Raise TypeError
  end.

(** [ActivePipeline._most_probable_classes]; [predicted_classes] is the 2-D
    array of scores that [predict_log_proba] gave for one instance. *)
Definition _most_probable_classes (quicksort : list Q -> list nat) (h : store)
    (self : ActivePipeline) (predicted_classes : list (list Q))
    : result (list string) :=
  let indexes := map (argsort quicksort) predicted_classes in
  let! indexes := index indexes 0 in
  let indexes := rev indexes in
  let! k := getitem h (config self) "number_of_options" in
  let! indexes := slice_to_value indexes k in
  let! result := class_names (classes self) indexes in
  let! last := index_last (classes self) in
  Ok (result ++ [last]).

(** [random.choice(seq)] is [seq[int(random() * len(seq))]].  [random()]
    is a double in [0, 1), one of the multiples m / 2^53 with
    0 <= m < 2^53; the draw is given by its numerator [m].  The product
    with the length is a product of doubles: the exact product rounded to
    the nearest double, that is to 53 significant bits, a tie going to the
    even neighbour; [int] then cuts the fraction off.  [round53 a] is the
    numerator over 2^53 of the double nearest to a / 2^53. *)
Definition round53 (a : Z) : Z :=
  let e := Z.log2 a - 52 in
  if e <=? 0 then a
  else
    let q := a / 2 ^ e in
    let r := a mod 2 ^ e in
    let half := 2 ^ (e - 1) in
    if r <? half then q * 2 ^ e
    else if half <? r then (q + 1) * 2 ^ e
    else if Z.even q then q * 2 ^ e
    else (q + 1) * 2 ^ e.
Definition drawn_index (m : Z) (n : nat) : nat :=
  Z.to_nat (round53 (m * Z.of_nat n) / 2 ^ 53).
Definition choice {A : Type} (m : Z) (seq : list A) : result A :=
  index seq (drawn_index m (length seq)).

(** [ActivePipeline.get_next_instance]: the IndexError of an empty corpus is
    caught and [None] is returned. *)
Definition get_next_instance (self : ActivePipeline) (m : Z) : result (option entry) :=
  match choice m (unlabeled_corpus self) with
  | Ok question => Ok (Some question)
  | Raise IndexError => Ok None
  | Raise e => Raise e
  end.

(** The order in which sorting by insertion leaves the indices: by score,
    and by index among equal scores. *)
Definition score (scores : list Q) (i : nat) : Q := nth i scores 0%Q.
Definition ranks_below (scores : list Q) (i j : nat) : Prop :=
  (score scores i < score scores j)%Q
  \/ (score scores i == score scores j /\ (i < j)%nat)%Q.
Definition ranks_above (scores : list Q) (i j : nat) : Prop :=
  ranks_below scores j i.

(** What is known of numpy's sort of a longer array: it returns a
    permutation of the indices along which the scores do not descend. *)
Definition sorts (quicksort : list Q -> list nat) : Prop :=
  forall scores : list Q,
    Permutation (quicksort scores) (seq 0 (length scores)) /\
    StronglySorted (fun i j => (score scores i <= score scores j)%Q)
                   (quicksort scores).

(** A pipeline with three classes that shows one option, and the scores of
    two instances: one without ties, one with the two best classes tied. *)
Definition one_option : store :=
  <[ default_config := <[ "number_of_options"%string := VInt 1 ]> default_config_value ]>
    store_at_import.
Definition three_classes : ActivePipeline :=
  mkActivePipeline "" false default_config [] [] [] [] ["a"; "b"; "c"]%string.
Definition scores_no_ties : list Q := [-(1 # 1); -(3 # 1); -(2 # 1)]%Q.
Definition scores_tied : list Q := [-(1 # 1); -(1 # 1); -(3 # 1)]%Q.

(** Two pipeline objects, one with three unlabeled questions and one with
    none. *)
Definition three_questions : ActivePipeline :=
  mkActivePipeline "" false default_config []
    [mkentry "q0" None; mkentry "q1" None; mkentry "q2" None] [] [] ["a"; "b"]%string.

Definition no_questions : ActivePipeline :=
  mkActivePipeline "" false default_config [] [] [] [] ["a"; "b"]%string.

(** Keyword arguments of two successive constructions: both name a
    classifier class and a feature extractor, the first also sets
    [number_of_options], the second sets [feature_boost]. *)
Definition first_kwargs : gmap string pyvalue :=
  list_to_map
    [ ("classifier", VClass "MultinomialNB");
      ("features", VInstance "CountVectorizer");
      ("number_of_options", VInt 5) ]%string.
Definition second_kwargs : gmap string pyvalue :=
  list_to_map
    [ ("classifier", VClass "BernoulliNB");
      ("features", VInstance "CountVectorizer");
      ("feature_boost", VFloat (9 # 10)) ]%string.
Definition nothing_loaded : list entry * (list string * list string) * list string :=
  ([], ([], []), []).

End ActivePipe.

(** ** visualization.py: the instance query loop *)

Module Visualization.
Open Scope Z_scope.

Section InstanceBootstrap.

(** The feature vectors and the part of the pipeline object the loop does
    not look at (the trained classifier and its corpora). *)
Variables (V M : Type).

(** Modelled from the spec: the [Corpus] class is not among the source
    files.  A corpus is an ordered collection of instances, each a feature
    vector with its list of labels (empty: unlabeled; the primary label is
    the first) and a representation; [instances], [primary_targets] and
    [representations] are its parallel views, [pop_instance(index)] removes
    and returns an instance, [add_instance] appends one. *)
Record instance : Type := mkinstance
  { vector : V; targets : list string; representation : string }.
Definition Corpus : Type := list instance.
Definition instances (c : Corpus) : list V := map vector c.
Definition representations (c : Corpus) : list string := map representation c.
Definition primary_targets (c : Corpus) : list (option string) :=
  map (fun i => head (targets i)) c.
Definition pop_instance (c : Corpus) (index : nat) : result (instance * Corpus) :=
  match nth_error c index with
  | Some i => Ok (i, firstn index c ++ skipn (S index) c)
  | None => Raise IndexError
  end.
Definition add_instance (c : Corpus) (v : V) (t : list string) (r : string) : Corpus :=
  c ++ [mkinstance v t r].

(** The pipeline object the loop drives. *)
Record activepipe : Type := mkactivepipe
  { unlabeled_corpus : Corpus;
    user_corpus : Corpus;
    new_instances : Z;
    emulate : bool;
    model : M }.

(** The methods of the pipeline object that the loop calls.  This revision
    of the loop calls [get_next_instance] for an index into the unlabeled
    corpus and calls [_expectation_maximization], which activepipe.py does
    not define; they are taken as given. *)
Record methods : Type := mkmethods
  { get_next_instance : activepipe -> nat;
    _most_probable_classes : activepipe -> V -> list string;
    _train : activepipe -> activepipe;
    _expectation_maximization : activepipe -> activepipe }.

(** Truth value of a primary target: [None] and the empty string are false. *)
Definition truthy (t : option string) : bool :=
  match t with
  | Some s => negb (String.eqb s "")
  | None => false
  end.

(** How one pass through the body of the [while] ends: at its end or by
    [continue], by [break], in the debugger of line 115, or by an exception. *)
Inductive flow : Type := Next | Break | Debugger | Raised (e : exn).

(** The local variables of [instance_bootstrap] that live across passes. *)
Record locals : Type := mklocals { it : Z; result_ : Z }.

(** Lines 110-140: one pass through the body of the loop.
    [get_labeled_instance] answers the question of this pass. *)
Definition loop_body (m : methods)
    (get_labeled_instance : string -> list string -> string)
    (a : activepipe) (l : locals) : flow * activepipe * locals :=
  let l := mklocals (it l + 1) (result_ l) in
  let new_index := get_next_instance m a in
  match nth_error (instances (unlabeled_corpus a)) new_index with
  | None => (Debugger, a, l)
  | Some new_instance =>
      match nth_error (representations (unlabeled_corpus a)) new_index,
            nth_error (primary_targets (unlabeled_corpus a)) new_index with
      | Some shown, Some primary =>
          let prediction :=
            if emulate a && truthy primary
            then match primary with Some p => p | None => ""%string end
            else get_labeled_instance shown
                   (_most_probable_classes m a new_instance) in
          if String.eqb prediction "stop" then (Break, a, l)
          else if String.eqb prediction "train"
          then (Next, _expectation_maximization m (_train m a), l)
          else
            match pop_instance (unlabeled_corpus a) new_index with
            | Raise e => (Raised e, a, l)
            | Ok (i, rest) =>
                (Next,
                 mkactivepipe rest
                   (add_instance (user_corpus a) (vector i)
                      (prediction :: targets i) (representation i))
                   (new_instances a + 1) (emulate a) (model a),
                 mklocals (it l) (result_ l + 1))
            end
      | _, _ => (Raised IndexError, a, l)
      end
  end.

(** Line 108-109: the condition of the [while]. *)
Definition loop_condition (max_iterations : option Z) (a : activepipe)
    (l : locals) : bool :=
  (match max_iterations with
   | None => true
   | Some n => (n =? 0) || (it l <? n)
   end)
  && negb (Nat.eqb (length (unlabeled_corpus a)) 0).

(** The [while] loop, cut off after [fuel] passes ([None]: still running).
    The oracle may answer differently from one pass to the next: it is
    given the number of the pass. *)
Fixpoint while_loop (fuel : nat) (m : methods)
    (get_labeled_instance : Z -> string -> list string -> string)
    (max_iterations : option Z) (a : activepipe) (l : locals)
    : option (flow * activepipe * locals) :=
  if loop_condition max_iterations a l
  then match fuel with
       | O => None
       | S fuel' =>
           match loop_body m (get_labeled_instance (it l + 1)) a l with
           | (Next, a', l') =>
               while_loop fuel' m get_labeled_instance max_iterations a' l'
           | stopped => Some stopped
           end
       end
  else Some (Break, a, l).

(** [instance_bootstrap]: the number of instances labelled, with the
    pipeline as the loop left it. *)
Definition instance_bootstrap (fuel : nat) (m : methods)
    (get_labeled_instance : Z -> string -> list string -> string)
    (max_iterations : option Z) (a : activepipe)
    : option (flow * activepipe * Z) :=
  match while_loop fuel m get_labeled_instance max_iterations a (mklocals 0 0) with
  | Some (f, a', l) => Some (f, a', result_ l)
  | None => None
  end.

End InstanceBootstrap.

(** A pipeline object whose model is the number of fits made so far, with a
    corpus of two unlabeled instances, and an oracle that answers 'train'
    once and 'stop' afterwards. *)
Definition counting_methods : methods nat nat :=
  mkmethods
    (fun a => 0%nat)
    (fun a v => ["a"; "b"]%string)
    (fun a => mkactivepipe (unlabeled_corpus a) (user_corpus a)
                (new_instances a) (emulate a) (S (model a)))
    (fun a => mkactivepipe (unlabeled_corpus a) (user_corpus a)
                (new_instances a) (emulate a) (S (model a))).
Definition two_unlabeled : activepipe nat nat :=
  mkactivepipe
    [mkinstance 7%nat [] "first question"; mkinstance 8%nat [] "second question"]
    [] 0 false 0%nat.
Definition train_then_stop (pass : Z) (shown : string) (classes : list string) : string :=
  if pass =? 1 then "train"%string else "stop"%string.

End Visualization.

(** ** activepipe.py: the session of user answers *)

Module ActivePipeSession.
Import ActivePipe.
Open Scope Z_scope.

(** What opening a file gives: its content, or the IOError of a file that
    does not exist. *)
Inductive io_result (A : Type) : Type :=
| Read (a : A)
| IOError.
Arguments Read {A} a.
Arguments IOError {A}.

(** The session files: each holds the pickled pair of the user's vectors
    and targets.  Writing a file is taken to succeed. *)
Definition session_files : Type := gmap string (list string * list string).

(** [ActivePipeline.save_session] *)
Definition save_session (self : ActivePipeline) (fs : session_files)
    (filename : string) : session_files * bool :=
  if match user_vectors self with [] => true | _ => false end
     || String.eqb filename ""
  then (fs, false)
  else (<[ filename := (user_vectors self, user_targets self) ]> fs, true).

(** [ActivePipeline.load_session]: overwrites the answers of the user with
    those stored under [self.filename]. *)
Definition load_session (self : ActivePipeline) (fs : session_files)
    : io_result (ActivePipeline * bool) :=
  if String.eqb (filename self) "" then Read (self, false)
  else match fs !! filename self with
       | None => IOError
       | Some (vectors, targets) =>
           Read (mkActivePipeline (filename self) (emulate self) (config self)
                   (steps self) (unlabeled_corpus self) vectors targets
                   (classes self),
                 true)
       end.

(** The assignment [u_question['target'] = target] on the first entry of the
    corpus whose question is the given one (line 149-152), if there is one. *)
Fixpoint set_first_target (corpus : list entry) (q target : string) : list entry :=
  match corpus with
  | [] => []
  | e :: rest =>
      if String.eqb (question e) q
      then mkentry (question e) (Some target) :: rest
      else e :: set_first_target rest q target
  end.

(** The loop of [label_corpus] over [enumerate(self.user_vectors)], from
    position [index] on. *)
Fixpoint label_loop (targets : list string) (index : nat) (vectors : list string)
    (corpus : list entry) : result (list entry) :=
  match vectors with
  | [] => Ok corpus
  | v :: rest =>
      if existsb (fun e => String.eqb (question e) v) corpus
      then let! t := ActivePipe.index targets index in
           label_loop targets (S index) rest (set_first_target corpus v t)
      else label_loop targets (S index) rest corpus
  end.

(** [ActivePipeline.label_corpus]: the corpus as it is written to the file
    of the unlabeled corpus, and the number returned. *)
Definition label_corpus (self : ActivePipeline) : result (list entry * nat) :=
  let! corpus := label_loop (user_targets self) 0 (user_vectors self)
                   (unlabeled_corpus self) in
  Ok (corpus, length (user_vectors self)).

Section Bootstrap.

(** The scikit-learn pipeline of the object: its state, how it is fitted and
    how it scores one question. *)
Variable P : Type.
Variable pipeline_fit : P -> list string -> list string -> P.
Variable pipeline_predict_log_proba : P -> string -> list (list Q).

(** What numpy's argsort returns for an array of more than 16 scores. *)
Variable quicksort : list Q -> list nat.

(** The pipeline object together with what [_get_corpus] loaded for
    training and with its scikit-learn pipeline. *)
Record trained : Type := mktrained
  { base : ActivePipeline;
    training_vectors : list string;
    training_target : list string;
    pipeline : P }.

(** [ActivePipeline._train] *)
Definition _train (self : trained) : trained :=
  mktrained (base self) (training_vectors self) (training_target self)
    (pipeline_fit (pipeline self)
       (training_vectors self ++ user_vectors (base self))
       (training_target self ++ user_targets (base self))).

(** [ActivePipeline._process_prediction] *)
Definition _process_prediction (self : trained) (instance prediction : string)
    : trained * bool :=
  let b := base self in
  let b := mkActivePipeline (filename b) (emulate b) (config b) (steps b)
             (unlabeled_corpus b) (user_vectors b ++ [instance])
             (user_targets b ++ [prediction]) (classes b) in
  (_train (mktrained b (training_vectors self) (training_target self)
             (pipeline self)),
   true).

(** How the loop of [bootstrap] leaves a pass: on to the next one, by
    [break], or by an exception. *)
Inductive pass_end : Type := Goes_on | Stops | Raises (e : exn).

(** One pass through the loop of [bootstrap] (lines 98-111); [u] is the
    draw of this pass and [get_class] answers its question. *)
Definition bootstrap_pass (h : store) (self : trained) (u : Z)
    (get_class : string -> list string -> string) : pass_end * trained :=
  match get_next_instance (base self) u with
  | Raise e => (Raises e, self)
  | Ok None => (Raises TypeError, self)
  | Ok (Some new_instance) =>
      match emulate (base self), target new_instance with
      | true, Some _ => (Raises TypeError, self)
      | _, _ =>
          let new_instance := question new_instance in
          let classes := pipeline_predict_log_proba (pipeline self) new_instance in
          match _most_probable_classes quicksort h (base self) classes with
          | Raise e => (Raises e, self)
          | Ok classes =>
              let prediction := get_class new_instance classes in
              if String.eqb prediction "stop" then (Stops, self)
              else (Goes_on, fst (_process_prediction self new_instance prediction))
          end
      end
  end.

(** [ActivePipeline.bootstrap], cut off after [fuel] passes ([None]: still
    running); the draw and the answer of a pass are given by its number. *)
Fixpoint bootstrap (fuel : nat) (h : store) (self : trained) (pass : nat)
    (draws : nat -> Z) (get_class : nat -> string -> list string -> string)
    : option (pass_end * trained) :=
  match fuel with
  | O => None
  | S fuel' =>
      match bootstrap_pass h self (draws pass) (get_class pass) with
      | (Goes_on, self') => bootstrap fuel' h self' (S pass) draws get_class
      | stopped => Some stopped
      end
  end.

End Bootstrap.

(** What a run of the loop of [bootstrap] has done to the object: the
    questions and answers it recorded. *)
Definition recorded {P : Type} (pipeline_fit : P -> list string -> list string -> P)
    (self self' : trained P) (qs ans : list string) : Prop :=
  unlabeled_corpus (base self') = unlabeled_corpus (base self) /\
  classes (base self') = classes (base self) /\
  training_vectors self' = training_vectors self /\
  training_target self' = training_target self /\
  user_vectors (base self') = user_vectors (base self) ++ qs /\
  user_targets (base self') = user_targets (base self) ++ ans /\
  length qs = length ans /\
  Forall (fun q => In q (map question (unlabeled_corpus (base self)))) qs /\
  Forall (fun a => a <> "stop"%string) ans /\
  (qs = [] -> pipeline self' = pipeline self) /\
  (qs <> [] ->
   exists p0 : P,
     pipeline self'
     = pipeline_fit p0 (training_vectors self ++ user_vectors (base self'))
                       (training_target self ++ user_targets (base self'))).

(** A pipeline object with two answers of the user and a corpus in which
    one of the answered questions occurs. *)
Definition answered : ActivePipeline :=
  mkActivePipeline "sessions/demo" false default_config []
    [mkentry "q0" None; mkentry "q1" None; mkentry "q2" None]
    ["q1"; "q9"] ["b"; "a"] ["a"; "b"]%string.

(** A pipeline object with three questions and three classes in front of a
    stand-in for the scikit-learn pipeline: fitting leaves it as it is and
    every question gets the same scores.  The user answers the first
    question with a class and the second with 'stop'. *)
Definition fit_nothing (p : unit) (vectors targets : list string) : unit := p.
Definition same_scores (p : unit) (question : string) : list (list Q) :=
  [scores_no_ties].
Definition asking : trained unit :=
  mktrained
    (mkActivePipeline "" false default_config []
       [mkentry "q0" None; mkentry "q1" None; mkentry "q2" None] [] []
       ["a"; "b"; "c"]%string)
    ["t0"]%string ["c"]%string tt.
Definition answer_then_stop (pass : nat) (question : string)
    (classes : list string) : string :=
  match pass with
  | O => "a"%string
  | S _ => "stop"%string
  end.

(** The same pipeline object in emulation mode over a corpus that carries
    its labels, and one with nothing left to ask. *)
Definition emulating : trained unit :=
  mktrained
    (mkActivePipeline "" true default_config []
       [mkentry "q0" (Some "a"); mkentry "q1" (Some "b")] [] []
       ["a"; "b"; "c"]%string)
    ["t0"]%string ["c"]%string tt.
Definition exhausted : trained unit :=
  mktrained no_questions ["t0"]%string ["c"]%string tt.

End ActivePipeSession.

(** ** visualization.py: what a run of the instance loop leaves behind *)

Module VisualizationSession.
Import Visualization.
Open Scope Z_scope.

(** Training and expectation maximization as activepipe.py has [_train]:
    they refit the classifier and leave the corpora and the counter of new
    instances alone. *)
Definition training_keeps_corpora {V M : Type} (m : methods V M) : Prop :=
  forall a : activepipe V M,
    let a' := _expectation_maximization m (_train m a) in
    unlabeled_corpus a' = unlabeled_corpus a /\
    user_corpus a' = user_corpus a /\
    new_instances a' = new_instances a.

(** An instance as the loop adds it to the user corpus: its first target
    is an answer, which is neither of the two commands. *)
Definition answered_instance {V : Type} (i : instance V) : Prop :=
  exists (p : string) (rest : list string),
    targets i = p :: rest /\ p <> "stop"%string /\ p <> "train"%string.

(** What identifies an instance apart from its targets. *)
Definition identity {V : Type} (i : instance V) : V * string :=
  (vector i, representation i).

(** [n] instances have moved from the unlabeled corpus of [a] to the end of
    its user corpus. *)
Definition moved {V M : Type} (a a' : activepipe V M) (n : Z) : Prop :=
  (exists added : Corpus V,
      user_corpus a' = user_corpus a ++ added /\
      Z.of_nat (length added) = n /\
      Forall answered_instance added) /\
  Z.of_nat (length (unlabeled_corpus a')) + n
  = Z.of_nat (length (unlabeled_corpus a)) /\
  new_instances a' = new_instances a + n /\
  Permutation (map identity (unlabeled_corpus a' ++ user_corpus a'))
              (map identity (unlabeled_corpus a ++ user_corpus a)).

(** A user who labels the first instance shown and then stops. *)
Definition label_then_stop (pass : Z) (shown : string) (classes : list string)
    : string :=
  if pass =? 1 then "a"%string else "stop"%string.

End VisualizationSession.

(** ** em_bayes.py: Gaussian naive Bayes *)

Module GaussianNB.
Import Np.
Open Scope R_scope.

(** The attributes that [GaussianNB.fit] sets. *)
Record t : Type := mk
  { _classes : list Z;
    theta : ndarray;
    sigma : ndarray;
    class_prior : list R }.

(** [np.mean(A, axis=0)] and [np.var(A, axis=0)]: the mean of each column
    and the mean squared deviation from it. *)
Definition mean_axis0 (A : ndarray) : list R :=
  vtabulate (shape1 A)
    (fun j => rsum (shape0 A) (fun i => get A i j) / INR (shape0 A)).
Definition var_axis0 (A : ndarray) : list R :=
  vtabulate (shape1 A)
    (fun j => rsum (shape0 A)
                (fun i => Rsqr (get A i j - nth j (mean_axis0 A) 0))
              / INR (shape0 A)).

(** [X[y == y_i, :]]: the rows of [X] at the positions where [y] is [y_i].
    A boolean mask that is not as long as [X] has rows is an IndexError. *)
Definition rows_where (X : ndarray) (y : list Z) (y_i : Z) : result ndarray :=
  if Nat.eqb (length y) (shape0 X) then take_rows X (where_eq y y_i)
  else Raise IndexError.

(** Lines 167-170, the loop over [enumerate(unique_y)]: for each class the
    row of [theta], the row of [sigma] and the entry of [class_prior]; the
    count of the class is divided by [n_classes]. *)
Fixpoint fit_loop (X : ndarray) (y : list Z) (n_classes : nat)
    (unique_y : list Z) : result (list (list R * list R * R)) :=
  match unique_y with
  | [] => Ok []
  | y_i :: rest =>
      let! rows := rows_where X y y_i in
      let! others := fit_loop X y n_classes rest in
      Ok ((mean_axis0 rows, var_axis0 rows,
           INR (length (where_eq y y_i)) / INR n_classes) :: others)
  end.

(** [GaussianNB.fit]: the fitted attributes. *)
Definition fit (X : ndarray) (y : list Z) : result t :=
  let unique_y := unique y in
  let n_classes := length unique_y in
  let n_features := shape1 X in
  let! stats := fit_loop X y n_classes unique_y in
  Ok (mk unique_y
        (mkarray n_classes n_features (map (fun s => fst (fst s)) stats))
        (mkarray n_classes n_features (map (fun s => snd (fst s)) stats))
        (map snd stats)).

(** Four samples with two features in two classes, the second class with a
    single sample. *)
Definition four_samples : ndarray :=
  mkarray 4 2 [[1; 2]; [3; 4]; [5; 0]; [7; 1]].
Definition four_labels : list Z := [0; 0; 0; 1]%Z.

End GaussianNB.

(** Samples that differ from [two_counts] only in how far their entries
    lie above zero. *)
Module BernoulliData.
Import Np.
Open Scope R_scope.

Definition other_counts : ndarray := mkarray 2 2 [[5; 3]; [0; 9]].

End BernoulliData.

(** * Properties *)

(** ** Facts about arrays *)

Module NpFacts.
Import Np.
Open Scope R_scope.

Lemma length_vtabulate (n : nat) (f : nat -> R) : length (vtabulate n f) = n.
Proof. unfold vtabulate. now rewrite length_map, length_seq. Qed.

Lemma nth_vtabulate (n : nat) (f : nat -> R) (i : nat) (d : R) :
  (i < n)%nat -> nth i (vtabulate n f) d = f i.
Proof.
  intros Hi. unfold vtabulate.
  rewrite (nth_indep _ d (f 0%nat)) by now rewrite length_map, length_seq.
  rewrite (map_nth f (seq 0 n) 0%nat i), seq_nth by exact Hi. reflexivity.
Qed.

Lemma get_tabulate (n m : nat) (f : nat -> nat -> R) (i j : nat) :
  (i < n)%nat -> (j < m)%nat -> get (tabulate n m f) i j = f i j.
Proof.
  intros Hi Hj. unfold get, tabulate; cbn [data].
  rewrite (nth_indep _ [] (map (f 0%nat) (seq 0 m)))
    by now rewrite length_map, length_seq.
  rewrite (map_nth (fun i => map (f i) (seq 0 m)) (seq 0 n) 0%nat i).
  rewrite seq_nth by exact Hi. cbn [Nat.add].
  apply (nth_vtabulate (f i) 0 Hj).
Qed.

Lemma tabulate_ext (n m : nat) (f g : nat -> nat -> R) :
  (forall i j, (i < n)%nat -> (j < m)%nat -> f i j = g i j) ->
  tabulate n m f = tabulate n m g.
Proof.
  intros H. unfold tabulate. f_equal. apply map_ext_in. intros i Hi.
  apply List.in_seq in Hi. apply map_ext_in. intros j Hj.
  apply List.in_seq in Hj. apply H; lia.
Qed.

Lemma shape0_tabulate (n m : nat) (f : nat -> nat -> R) : shape0 (tabulate n m f) = n.
Proof. reflexivity. Qed.

Lemma shape1_tabulate (n m : nat) (f : nat -> nat -> R) : shape1 (tabulate n m f) = m.
Proof. reflexivity. Qed.

Lemma shape0_T (A : ndarray) : shape0 (T A) = shape1 A.
Proof. reflexivity. Qed.

Lemma shape1_T (A : ndarray) : shape1 (T A) = shape0 A.
Proof. reflexivity. Qed.

Lemma shape0_map_array (f : R -> R) (A : ndarray) : shape0 (map_array f A) = shape0 A.
Proof. reflexivity. Qed.

Lemma shape1_map_array (f : R -> R) (A : ndarray) : shape1 (map_array f A) = shape1 A.
Proof. reflexivity. Qed.

Lemma shape0_binarize (A : ndarray) (t : R) : shape0 (binarize A t) = shape0 A.
Proof. reflexivity. Qed.

Lemma shape1_binarize (A : ndarray) (t : R) : shape1 (binarize A t) = shape1 A.
Proof. reflexivity. Qed.

Create Rewrite HintDb np_shape.
#[export] Hint Rewrite shape0_tabulate shape1_tabulate shape0_T shape1_T
  shape0_map_array shape1_map_array shape0_binarize shape1_binarize
  length_vtabulate : np_shape.

Ltac np_shape := autorewrite with np_shape; try congruence.

Lemma get_map_array (f : R -> R) (A : ndarray) (i j : nat) :
  (i < shape0 A)%nat -> (j < shape1 A)%nat ->
  get (map_array f A) i j = f (get A i j).
Proof. intros Hi Hj. unfold map_array. now rewrite get_tabulate. Qed.

Lemma get_T (A : ndarray) (i j : nat) :
  (i < shape1 A)%nat -> (j < shape0 A)%nat -> get (T A) i j = get A j i.
Proof. intros Hi Hj. unfold T. now rewrite get_tabulate. Qed.

Lemma well_shaped_tabulate (n m : nat) (f : nat -> nat -> R) :
  well_shaped (tabulate n m f).
Proof.
  split; cbn.
  - now rewrite length_map, length_seq.
  - apply List.Forall_forall. intros r Hr. apply in_map_iff in Hr as [i [<- _]].
    now rewrite length_map, length_seq.
Qed.

Lemma rsum_ext (n : nat) (f g : nat -> R) :
  (forall i, (i < n)%nat -> f i = g i) -> rsum n f = rsum n g.
Proof.
  intros H. unfold rsum, vtabulate. f_equal. apply map_ext_in.
  intros i Hi. apply List.in_seq in Hi. apply H. lia.
Qed.

Lemma vsum_nil : vsum [] = 0.
Proof. reflexivity. Qed.

Lemma vsum_cons (x : R) (v : list R) : vsum (x :: v) = x + vsum v.
Proof. reflexivity. Qed.

Lemma vsum_app (v w : list R) : vsum (v ++ w) = vsum v + vsum w.
Proof.
  induction v as [|x v IH]; cbn [app].
  - rewrite vsum_nil. lra.
  - rewrite !vsum_cons, IH. lra.
Qed.

Lemma rsum_S (n : nat) (f : nat -> R) : rsum (S n) f = rsum n f + f n.
Proof.
  unfold rsum, vtabulate. rewrite seq_S, map_app. cbn [Nat.add map].
  change (fold_right Rplus 0) with vsum.
  rewrite vsum_app, vsum_cons, vsum_nil. lra.
Qed.

Lemma rsum_vtabulate (n : nat) (f : nat -> R) : vsum (vtabulate n f) = rsum n f.
Proof. reflexivity. Qed.

Lemma get_nonneg_of_data (A : ndarray) :
  Forall (Forall (fun x => 0 <= x)) (data A) -> forall r i, 0 <= get A r i.
Proof.
  intros H r i. unfold get.
  destruct (nth_in_or_default r (data A) []) as [Hr | ->].
  - eapply List.Forall_forall in H; [|exact Hr].
    destruct (nth_in_or_default i (nth r (data A) []) 0) as [Hi | ->]; [|lra].
    eapply List.Forall_forall in H; [|exact Hi]. exact H.
  - destruct i; cbn; lra.
Qed.

(** Evaluation of array expressions on concrete data, leaving the
    operations on the reals alone. *)
Ltac np_eval :=
  cbv - [Rplus Rminus Rmult Ropp Rinv Rdiv ln exp Rabs Rmax Rlt_dec Rle_dec IZR].

Ltac np_eval_in H :=
  cbv - [Rplus Rminus Rmult Ropp Rinv Rdiv ln exp Rabs Rmax Rlt_dec Rle_dec IZR] in H.

Lemma ln_ratio_neq (a b c d : R) :
  0 < a -> 0 < b -> 0 < c -> 0 < d -> a * d <> c * b ->
  ln a - ln b <> ln c - ln d.
Proof.
  intros Ha Hb Hc Hd Hne H.
  assert (H' : ln (a * d) = ln (c * b)) by (rewrite !ln_mult by assumption; lra).
  apply ln_inv in H'; try (apply Rmult_lt_0_compat; assumption). contradiction.
Qed.

End NpFacts.

(** ** The constructor of the EM meta-estimator *)

Module SemisupervisedNBFacts.
Import Np NaiveBayes SemisupervisedNB.

(** C10: constructing the EM meta-estimator with an estimator that is not a
    discrete naive Bayes classifier (a GaussianNB, or any other object)
    raises TypeError and gives no trainer; with a MultinomialNB or a
    BernoulliNB construction succeeds, and the trainer stores exactly the
    given estimator, n_iter, relabel_all, tol and verbose. *)
Theorem init_accepts_exactly_discrete_nb :
  forall (est : pyobject) (n : Z) (relabel : bool) (eps : R) (v : bool),
    match est with
    | ObjDiscreteNB clf =>
        (variant clf = Multinomial \/ exists b, variant clf = Bernoulli b) /\
        exists t : SemisupervisedNB.t,
          __init__ est n relabel eps v = Ok t /\
          estimator t = est /\ n_iter t = n /\ relabel_all t = relabel /\
          tol t = eps /\ verbose t = v
    | ObjGaussianNB | ObjOther _ =>
        __init__ est n relabel eps v = Raise TypeError
    end.
Proof.
  intros est n relabel eps v. destruct est as [clf| |s]; cbn; try reflexivity.
  split.
  - destruct (variant clf) as [|b]; [now left | right; now exists b].
  - eexists. split; [reflexivity|]. cbn. repeat split.
Qed.

End SemisupervisedNBFacts.

(** ** The pipeline object *)

Module ActivePipeFacts.
Import ActivePipe.
Open Scope Q_scope.

(** *** The draw of random.choice *)

Section Rounding.
Local Open Scope Z_scope.
Local Unset Implicit Arguments.

Lemma round53_small (a : Z) : Z.log2 a - 52 <= 0 -> round53 a = a.
Proof.
  intros H. unfold round53. cbv zeta.
  destruct (Z.leb_spec (Z.log2 a - 52) 0); [reflexivity | lia].
Qed.

Lemma round53_cases (a : Z) :
  0 < Z.log2 a - 52 ->
  (round53 a = a / 2 ^ (Z.log2 a - 52) * 2 ^ (Z.log2 a - 52) /\
   a mod 2 ^ (Z.log2 a - 52) <= 2 ^ (Z.log2 a - 52 - 1)) \/
  (round53 a = (a / 2 ^ (Z.log2 a - 52) + 1) * 2 ^ (Z.log2 a - 52) /\
   2 ^ (Z.log2 a - 52 - 1) <= a mod 2 ^ (Z.log2 a - 52)).
Proof.
  intros He. unfold round53. cbv zeta.
  destruct (Z.leb_spec (Z.log2 a - 52) 0); [lia|].
  destruct (Z.ltb_spec (a mod 2 ^ (Z.log2 a - 52)) (2 ^ (Z.log2 a - 52 - 1)));
    [left; split; [reflexivity | lia]|].
  destruct (Z.ltb_spec (2 ^ (Z.log2 a - 52 - 1)) (a mod 2 ^ (Z.log2 a - 52)));
    [right; split; [reflexivity | lia]|].
  destruct (Z.even _); [left | right]; split; try reflexivity; lia.
Qed.

Lemma round53_above (a c : Z) :
  0 <= a -> a < 2 ^ 106 -> 0 <= c -> c * 2 ^ 53 <= a -> c * 2 ^ 53 <= round53 a.
Proof.
  intros Ha Hbig Hc Hle.
  destruct (Z_le_gt_dec (Z.log2 a - 52) 0) as [He|He].
  - now rewrite round53_small.
  - set (e := Z.log2 a - 52) in *.
    assert (Hpos : 0 < a).
    { destruct (Z.eq_dec a 0) as [E|E]; [|lia].
      unfold e in He. rewrite E in He. change (Z.log2 0) with 0 in He. lia. }
    assert (He53 : e <= 53).
    { assert (Z.log2 a < 106) by (apply Z.log2_lt_pow2; lia). lia. }
    assert (Hsplit : 2 ^ 53 = 2 ^ (53 - e) * 2 ^ e).
    { rewrite <- Z.pow_add_r by lia. f_equal. lia. }
    assert (H2e : 0 < 2 ^ e) by (apply Z.pow_pos_nonneg; lia).
    assert (H2d : 0 < 2 ^ (53 - e)) by (apply Z.pow_pos_nonneg; lia).
    assert (Hq : c * 2 ^ (53 - e) <= a / 2 ^ e).
    { apply Z.div_le_lower_bound; [exact H2e|]. rewrite Hsplit in Hle. lia. }
    assert (HR : a / 2 ^ e * 2 ^ e <= round53 a).
    { destruct (round53_cases a ltac:(lia)) as [[-> _]|[-> _]]; fold e; nia. }
    rewrite Hsplit. nia.
Qed.

Lemma round53_near (a : Z) : 0 <= a -> (round53 a - a) * 2 ^ 53 <= a.
Proof.
  intros Ha.
  destruct (Z_le_gt_dec (Z.log2 a - 52) 0) as [He|He].
  - rewrite round53_small by exact He. lia.
  - set (e := Z.log2 a - 52) in *.
    assert (Hpos : 0 < a).
    { destruct (Z.eq_dec a 0) as [E|E]; [|lia].
      unfold e in He. rewrite E in He. change (Z.log2 0) with 0 in He. lia. }
    assert (H2e : 0 < 2 ^ e) by (apply Z.pow_pos_nonneg; lia).
    assert (Hdm : a = 2 ^ e * (a / 2 ^ e) + a mod 2 ^ e) by (apply Z.div_mod; lia).
    assert (Hmod : 0 <= a mod 2 ^ e < 2 ^ e) by (apply Z.mod_pos_bound; lia).
    assert (Hhalf : 2 ^ e = 2 * 2 ^ (e - 1)).
    { rewrite <- Z.pow_succ_r by lia. f_equal. lia. }
    assert (Hlog : 2 ^ (e - 1) * 2 ^ 53 <= a).
    { rewrite <- Z.pow_add_r by lia. replace (e - 1 + 53) with (Z.log2 a) by (unfold e; lia).
      apply Z.log2_spec. exact Hpos. }
    destruct (round53_cases a ltac:(lia)) as [[-> Hr]|[-> Hr]]; fold e in Hr |- *.
    + assert (a / 2 ^ e * 2 ^ e - a <= 0) by lia. nia.
    + assert ((a / 2 ^ e + 1) * 2 ^ e - a <= 2 ^ (e - 1)) by lia.
      assert (0 < 2 ^ 53) by (apply Z.pow_pos_nonneg; lia). nia.
Qed.

Section Draws.
Variables (m : Z) (n : nat).
Hypothesis Hm : 0 <= m < 2 ^ 53.
Hypothesis Hn : 0 < Z.of_nat n <= 2 ^ 53.

Lemma product_bounds :
  0 <= m * Z.of_nat n /\ m * Z.of_nat n < 2 ^ 106 /\
  m * Z.of_nat n < Z.of_nat n * 2 ^ 53.
Proof.
  assert (H106 : 2 ^ 106 = 2 ^ 53 * 2 ^ 53) by (rewrite <- Z.pow_add_r by lia; reflexivity).
  assert (0 < 2 ^ 53) by (apply Z.pow_pos_nonneg; lia).
  rewrite H106. repeat split; nia.
Qed.

Lemma round53_product_bounds :
  0 <= round53 (m * Z.of_nat n) < Z.of_nat n * 2 ^ 53 /\
  round53 (m * Z.of_nat n) < m * Z.of_nat n + Z.of_nat n.
Proof.
  destruct product_bounds as (H0 & H106 & Hlt).
  assert (HB : 0 < 2 ^ 53) by (apply Z.pow_pos_nonneg; lia).
  pose proof (round53_above (m * Z.of_nat n) 0 H0 H106 ltac:(lia) ltac:(lia)) as Hlo.
  pose proof (round53_near (m * Z.of_nat n) H0) as Hnear.
  set (R := round53 (m * Z.of_nat n)) in *. set (a := m * Z.of_nat n) in *.
  set (B := 2 ^ 53) in *.
  assert (Hlt2 : R < a + Z.of_nat n) by nia.
  split; [split; [lia|] | exact Hlt2].
  assert (m <= B - 1) by lia.
  assert (Ha : a <= (B - 1) * Z.of_nat n) by (unfold a; nia).
  nia.
Qed.

Lemma drawn_index_in_range : (drawn_index m n < n)%nat.
Proof.
  destruct round53_product_bounds as [[H0 Hlt] _].
  unfold drawn_index.
  assert (HB : 0 < 2 ^ 53) by (apply Z.pow_pos_nonneg; lia).
  assert (Hq : round53 (m * Z.of_nat n) / 2 ^ 53 < Z.of_nat n).
  { apply Z.div_lt_upper_bound; [exact HB | lia]. }
  assert (0 <= round53 (m * Z.of_nat n) / 2 ^ 53) by (apply Z.div_pos; lia).
  lia.
Qed.

Lemma drawn_index_near_floor :
  Z.of_nat (drawn_index m n) * 2 ^ 53 - Z.of_nat n < m * Z.of_nat n /\
  m * Z.of_nat n < (Z.of_nat (drawn_index m n) + 1) * 2 ^ 53.
Proof.
  destruct product_bounds as (H0 & H106 & Hlt).
  destruct round53_product_bounds as [[HR0 HRlt] Hnear].
  assert (HB : 0 < 2 ^ 53) by (apply Z.pow_pos_nonneg; lia).
  unfold drawn_index.
  assert (Hd0 : 0 <= round53 (m * Z.of_nat n) / 2 ^ 53) by (apply Z.div_pos; lia).
  rewrite Z2Nat.id by exact Hd0.
  pose proof (Z.mul_div_le (round53 (m * Z.of_nat n)) (2 ^ 53) HB) as Hfl.
  pose proof (Z.mul_succ_div_gt (round53 (m * Z.of_nat n)) (2 ^ 53) HB) as Hfu.
  set (i := round53 (m * Z.of_nat n) / 2 ^ 53) in *.
  split; [lia|].
  destruct (Z_lt_ge_dec (m * Z.of_nat n) ((i + 1) * 2 ^ 53)) as [H|H]; [exact H|].
  pose proof (round53_above (m * Z.of_nat n) (i + 1) H0 H106 ltac:(lia) ltac:(lia)).
  lia.
Qed.

Lemma drawn_index_inside (j : nat) :
  Z.of_nat j * 2 ^ 53 <= m * Z.of_nat n ->
  m * Z.of_nat n < (Z.of_nat j + 1) * 2 ^ 53 - Z.of_nat n ->
  drawn_index m n = j.
Proof.
  intros Hlo Hhi.
  destruct product_bounds as (H0 & H106 & Hlt).
  destruct round53_product_bounds as [[HR0 HRlt] Hnear].
  assert (HB : 0 < 2 ^ 53) by (apply Z.pow_pos_nonneg; lia).
  pose proof (round53_above (m * Z.of_nat n) (Z.of_nat j) H0 H106 ltac:(lia) Hlo) as Hab.
  unfold drawn_index.
  assert (Hq : round53 (m * Z.of_nat n) / 2 ^ 53 = Z.of_nat j).
  { symmetry. apply Z.div_unique with (r := round53 (m * Z.of_nat n) - Z.of_nat j * 2 ^ 53); lia. }
  rewrite Hq. apply Nat2Z.id.
Qed.

End Draws.

End Rounding.

(** C7, as the code has it: when the unlabeled pool is not empty (and has
    at most 2^53 elements, so that its size is a double), get_next_instance
    returns the element at position int(u * n) of the pool, for the draw
    u = m / 2^53 of random() and the pool size n, the product being one of
    doubles; that position is within the pool, it is i for every draw with
    i <= u * n < i + 1 - n / 2^53 and for no draw outside
    i - n / 2^53 < u * n < i + 1 (each position has an interval of length
    about 1/n, a uniform choice up to the rounding of the product at the
    ends of the interval); when the pool is empty it returns None and
    raises no error. *)
Theorem get_next_instance_uniform_or_None :
  forall (self : ActivePipeline) (m : Z),
    (0 <= m < 2 ^ 53)%Z ->
    (Z.of_nat (length (unlabeled_corpus self)) <= 2 ^ 53)%Z ->
    match unlabeled_corpus self with
    | [] => get_next_instance self m = Ok None
    | pool =>
        let n := length pool in
        let i := drawn_index m n in
        (exists q : entry,
            nth_error pool i = Some q /\
            In q pool /\
            get_next_instance self m = Ok (Some q)) /\
        (Z.of_nat i * 2 ^ 53 - Z.of_nat n < m * Z.of_nat n
         < (Z.of_nat i + 1) * 2 ^ 53)%Z /\
        (forall j : nat,
            (Z.of_nat j * 2 ^ 53 <= m * Z.of_nat n
             < (Z.of_nat j + 1) * 2 ^ 53 - Z.of_nat n)%Z ->
            drawn_index m n = j)
    end.
Proof.
  intros self m Hm Hsize. unfold get_next_instance, choice, index.
  destruct (unlabeled_corpus self) as [|e pool] eqn:Hpool.
  - now destruct (drawn_index m (length [])).
  - set (full := e :: pool) in *. cbv zeta.
    assert (Hn : (0 < Z.of_nat (length full) <= 2 ^ 53)%Z)
      by (split; [cbn [length full]; lia | exact Hsize]).
    split; [|split].
    + pose proof (drawn_index_in_range m (length full) Hm Hn) as Hr.
      destruct (nth_error full (drawn_index m (length full))) as [q|] eqn:Hq.
      * exists q. split; [reflexivity|]. split; [|reflexivity].
        eapply nth_error_In; exact Hq.
      * apply nth_error_None in Hq. lia.
    + exact (drawn_index_near_floor m (length full) Hm Hn).
    + intros j [Hlo Hhi].
      exact (drawn_index_inside m (length full) Hm Hn j Hlo Hhi).
Qed.

Lemma get_next_instance_uniform_or_None_witness :
  (0 <= 6004799503160661 < 2 ^ 53)%Z /\
  (Z.of_nat (length (unlabeled_corpus three_questions)) <= 2 ^ 53)%Z /\
  get_next_instance three_questions 6004799503160661
  = Ok (Some (mkentry "q2" None)).
Proof.
  assert (H0 : (0 <= 6004799503160661 < 2 ^ 53)%Z) by (split; now compute).
  assert (H1 : (Z.of_nat (length (unlabeled_corpus three_questions)) <= 2 ^ 53)%Z)
    by (now compute).
  split; [exact H0|]. split; [exact H1|].
  destruct (@get_next_instance_uniform_or_None three_questions
              6004799503160661%Z H0 H1) as [[q [Hq [_ Hr]]] _].
  rewrite Hr. vm_compute in Hq. now inversion Hq.
Defined.

(** C7 as stated fails: on an empty pool get_next_instance returns None, it
    does not fail with an error. *)
Lemma get_next_instance_empty_pool_no_error :
  unlabeled_corpus no_questions = [] /\
  get_next_instance no_questions 4503599627370496 = Ok None /\
  (forall e : exn, get_next_instance no_questions 4503599627370496 <> Raise e).
Proof. repeat split. intros e H. discriminate H. Qed.

(** C9, as the code has it: constructing the pipeline merges the given
    options into the process-wide dictionary default_config in place
    (default_config.update(kwargs)), also when the construction then fails,
    and the pipeline's config is that same dictionary: a key that is passed
    takes the passed value, a key that is not passed keeps the value the
    shared dictionary had before the call, whoever set it. *)
Theorem init_updates_shared_default_config :
  forall (h : store) (d : gmap string pyvalue) (fname : string) (em : bool)
         (kwargs : gmap string pyvalue)
         (loaded : list entry * (list string * list string) * list string),
    h !! default_config = Some d ->
    let h' := fst (__init__ h fname em kwargs loaded) in
    h' !! default_config = Some (kwargs ∪ d) /\
    (forall p, snd (__init__ h fname em kwargs loaded) = Ok p ->
               config p = default_config) /\
    (forall k v, kwargs !! k = Some v -> getitem h' default_config k = Ok v) /\
    (forall k, kwargs !! k = None ->
               getitem h' default_config k = getitem h default_config k).
Proof.
  intros h d fname em kwargs loaded Hd. unfold __init__. cbn [fst snd].
  assert (Hh : dict_update h default_config kwargs !! default_config
               = Some (kwargs ∪ d)).
  { unfold dict_update. rewrite Hd. apply lookup_insert_eq. }
  split; [exact Hh|]. split; [|split].
  - intros p Hp. unfold rbind in Hp.
    destruct (getitem _ _ "classifier") as [c|]; [|discriminate].
    destruct (call c) as [cl|]; [|discriminate].
    destruct (getitem _ _ "features") as [f|]; [|discriminate].
    destruct loaded as [[u [vs ts]] cs]. now inversion Hp.
  - intros k v Hk. unfold getitem. rewrite Hh.
    now rewrite (lookup_union_Some_l kwargs d k v Hk).
  - intros k Hk. unfold getitem. rewrite Hh, Hd.
    now rewrite (lookup_union_r kwargs d k Hk).
Qed.

Lemma init_updates_shared_default_config_witness :
  store_at_import !! default_config = Some default_config_value /\
  fst (__init__ store_at_import "" false first_kwargs nothing_loaded)
    !! default_config = Some (first_kwargs ∪ default_config_value).
Proof.
  split; [reflexivity|].
  exact (proj1 (init_updates_shared_default_config store_at_import ""
                  false first_kwargs nothing_loaded eq_refl)).
Defined.

(** C9 as stated fails: an option passed to one construction is seen by the
    next construction, which did not pass it and whose defaults do not have
    it, and an option passed to the second construction changes the
    configuration of the first pipeline. *)
Lemma init_options_leak_between_constructions :
  let first := __init__ store_at_import "" false first_kwargs nothing_loaded in
  let second := __init__ (fst first) "" false second_kwargs nothing_loaded in
  match snd first, snd second with
  | Ok p1, Ok p2 =>
      second_kwargs !! "number_of_options"%string = None /\
      default_config_value !! "number_of_options"%string = None /\
      getitem store_at_import default_config "number_of_options" = Raise KeyError /\
      getitem (fst second) (config p2) "number_of_options" = Ok (VInt 5) /\
      getitem (fst first) (config p1) "feature_boost" = Ok (VFloat (1 # 2)) /\
      getitem (fst second) (config p1) "feature_boost" = Ok (VFloat (9 # 10))
  | _, _ => False
  end.
Proof.
  cbv zeta.
  destruct (snd (__init__ store_at_import "" false first_kwargs nothing_loaded))
    as [p1|e] eqn:E1; [|vm_compute in E1; discriminate E1].
  destruct (snd (__init__ (fst (__init__ store_at_import "" false first_kwargs
                                  nothing_loaded)) "" false second_kwargs
                   nothing_loaded))
    as [p2|e] eqn:E2; [|vm_compute in E2; discriminate E2].
  vm_compute in E1. injection E1 as <-.
  vm_compute in E2. injection E2 as <-.
  cbn [config]. repeat split; vm_compute; reflexivity.
Qed.

(** *** The shortlist of classes *)

Section Ranking.
Variable s : list Q.

Lemma ranks_below_trans (i j k : nat) :
  ranks_below s i j -> ranks_below s j k -> ranks_below s i k.
Proof.
  unfold ranks_below. intros [H1|[E1 L1]] [H2|[E2 L2]].
  - left. eapply Qlt_trans; eassumption.
  - left. now rewrite <- E2.
  - left. now rewrite E1.
  - right. split; [now rewrite E1 | lia].
Qed.

Lemma ranks_below_le (i j : nat) : ranks_below s i j -> score s i <= score s j.
Proof.
  intros [H|[E _]]; [now apply Qlt_le_weak | rewrite E; apply Qle_refl].
Qed.

Lemma ranks_below_irrefl (i : nat) : ~ ranks_below s i i.
Proof. intros [H|[_ H]]; [now apply Qlt_irrefl in H | lia]. Qed.

Lemma insert_index_perm (i : nat) (l : list nat) :
  Permutation (insert_index s i l) (i :: l).
Proof.
  induction l as [|j l IH]; cbn [insert_index]; [reflexivity|].
  destruct (Qle_bool _ _); [|reflexivity].
  rewrite IH. apply perm_swap.
Qed.

Lemma insert_index_sorted (i : nat) (l : list nat) :
  StronglySorted (ranks_below s) l ->
  Forall (fun j => (j < i)%nat) l ->
  StronglySorted (ranks_below s) (insert_index s i l).
Proof.
  induction l as [|j l IH]; intros Hs Hlt; cbn [insert_index].
  - constructor; constructor.
  - apply StronglySorted_inv in Hs as [Hs Hj].
    apply List.Forall_cons_iff in Hlt as [Hji Hlt].
    fold (score s j). fold (score s i).
    destruct (Qle_bool (score s j) (score s i)) eqn:E.
    + apply Qle_bool_iff in E.
      assert (Hrank : ranks_below s j i).
      { apply Qle_lteq in E as [E|E]; [now left | right; now split]. }
      constructor; [now apply IH|].
      eapply Permutation_Forall;
        [symmetry; apply insert_index_perm | constructor; assumption].
    + assert (Hrank : ranks_below s i j).
      { left. apply Qnot_le_lt. intros H. apply Qle_bool_iff in H. congruence. }
      constructor; [now constructor|]. constructor; [exact Hrank|].
      eapply List.Forall_impl; [|exact Hj]. intros k Hk.
      eapply ranks_below_trans; eassumption.
Qed.

Lemma fold_insert_spec (len start : nat) (acc : list nat) :
  StronglySorted (ranks_below s) acc ->
  Forall (fun j => (j < start)%nat) acc ->
  let r := fold_left (fun sorted i => insert_index s i sorted) (seq start len) acc in
  Permutation r (acc ++ seq start len) /\ StronglySorted (ranks_below s) r.
Proof.
  revert start acc. induction len as [|len IH]; intros start acc Hs Hlt; cbn [seq fold_left].
  - rewrite app_nil_r. now split.
  - destruct (IH (S start) (insert_index s start acc)) as [Hp Hs'].
    + now apply insert_index_sorted.
    + eapply Permutation_Forall; [symmetry; apply insert_index_perm|].
      constructor; [lia|]. eapply List.Forall_impl; [|exact Hlt].
      intros j Hj. cbn in Hj. lia.
    + split; [|exact Hs']. cbv zeta in Hp. rewrite Hp.
      rewrite insert_index_perm. cbn [app].
      now rewrite Permutation_middle.
Qed.

Lemma insertion_argsort_spec :
  Permutation (insertion_argsort s) (seq 0 (length s)) /\
  StronglySorted (ranks_below s) (insertion_argsort s).
Proof.
  unfold insertion_argsort.
  destruct (@fold_insert_spec (length s) 0%nat []) as [Hp Hs];
    [constructor | constructor | now split].
Qed.

End Ranking.

Lemma StronglySorted_app {A : Type} (R : A -> A -> Prop) (l1 l2 : list A) :
  StronglySorted R l1 -> StronglySorted R l2 ->
  (forall a b, In a l1 -> In b l2 -> R a b) ->
  StronglySorted R (l1 ++ l2).
Proof.
  induction l1 as [|x l1 IH]; intros H1 H2 H; cbn [app]; [exact H2|].
  apply StronglySorted_inv in H1 as [H1 Hx].
  constructor.
  - apply IH; [exact H1 | exact H2 |]. intros a b Ha Hb. apply H; [now right | exact Hb].
  - apply List.Forall_app. split; [exact Hx|].
    apply List.Forall_forall. intros b Hb. apply H; [now left | exact Hb].
Qed.

Lemma StronglySorted_app_inv {A : Type} (R : A -> A -> Prop) (l1 l2 : list A) :
  StronglySorted R (l1 ++ l2) ->
  StronglySorted R l1 /\ (forall a b, In a l1 -> In b l2 -> R a b).
Proof.
  induction l1 as [|x l1 IH]; cbn [app]; intros H.
  - split; [constructor | intros a b []].
  - apply StronglySorted_inv in H as [H Hx]. destruct (IH H) as [H1 H12].
    apply List.Forall_app in Hx as [Hx1 Hx2]. split; [now constructor|].
    intros a b [<-|Ha] Hb; [|now apply H12].
    eapply List.Forall_forall in Hx2; eassumption.
Qed.

Lemma StronglySorted_rev {A : Type} (R : A -> A -> Prop) (l : list A) :
  StronglySorted R l -> StronglySorted (fun a b => R b a) (rev l).
Proof.
  induction l as [|x l IH]; intros H; cbn [rev]; [constructor|].
  apply StronglySorted_inv in H as [H Hx].
  apply StronglySorted_app; [now apply IH | constructor; constructor |].
  intros a b Ha [<-|[]]. apply in_rev in Ha.
  eapply List.Forall_forall in Hx; eassumption.
Qed.

Lemma StronglySorted_nth {A : Type} (R : A -> A -> Prop) (l : list A) (d : A) :
  StronglySorted R l ->
  forall a b : nat, (a < b < length l)%nat -> R (nth a l d) (nth b l d).
Proof.
  induction 1 as [|x l Hs IH Hx]; intros a b Hab; [cbn in Hab; lia|].
  destruct b as [|b]; [lia|]. cbn [length] in Hab. destruct a as [|a]; cbn [nth].
  - eapply List.Forall_forall; [exact Hx|]. apply nth_In. lia.
  - apply IH. lia.
Qed.

Lemma class_names_ok (classes : list string) (l : list nat) :
  Forall (fun i => (i < length classes)%nat) l ->
  class_names classes l = Ok (map (fun i => nth i classes ""%string) l).
Proof.
  induction l as [|i l IH]; intros H; cbn [class_names map]; [reflexivity|].
  apply List.Forall_cons_iff in H as [Hi Hl]. rewrite (IH Hl). unfold index.
  destruct (nth_error classes i) as [c|] eqn:E.
  - cbn [rbind]. now rewrite (nth_error_nth classes i ""%string E).
  - apply nth_error_None in E. lia.
Qed.

Lemma index_last_ok {A : Type} (l : list A) (d : A) :
  l <> [] -> index_last l = Ok (List.last l d).
Proof.
  intros H. destruct (exists_last H) as [l' [x ->]].
  unfold index_last. rewrite rev_app_distr. cbn [rev app].
  now rewrite last_last.
Qed.

Lemma StronglySorted_weaken {A : Type} (R R' : A -> A -> Prop) (l : list A) :
  (forall a b, R a b -> R' a b) -> StronglySorted R l -> StronglySorted R' l.
Proof.
  intros H. induction 1 as [|x l Hs IH Hx]; constructor; [exact IH|].
  eapply List.Forall_impl; [|exact Hx]. intros b Hb. now apply H.
Qed.

Lemma insertion_argsort_sorts : sorts insertion_argsort.
Proof.
  intros scores. destruct (insertion_argsort_spec scores) as [Hp Hs].
  split; [exact Hp|].
  eapply StronglySorted_weaken; [|exact Hs].
  intros a b Hab. exact (ranks_below_le Hab).
Qed.

Lemma argsort_sorts (quicksort : list Q -> list nat) (scores : list Q) :
  sorts quicksort ->
  Permutation (argsort quicksort scores) (seq 0 (length scores)) /\
  StronglySorted (fun i j => score scores i <= score scores j)
                 (argsort quicksort scores).
Proof.
  intros Hq. unfold argsort. destruct (Nat.leb (length scores) 16).
  - apply insertion_argsort_sorts.
  - apply Hq.
Qed.

Lemma argsort_short (quicksort : list Q -> list nat) (scores : list Q) :
  (length scores <= 16)%nat ->
  argsort quicksort scores = insertion_argsort scores.
Proof.
  intros H. unfold argsort. apply Nat.leb_le in H. now rewrite H.
Qed.

(** C6, as the code has it: for the scores of a single instance and a
    shortlist size k, _most_probable_classes returns the classes at the
    first k positions of the reversed argsort of the scores, k distinct
    classes whose scores descend and of which none scores lower than a
    class left out, followed by exactly one more label, the last class of
    the class list, classes[-1], whatever its score.  Among equal scores
    the order is what the sort leaves: with at most 16 classes the sort is
    by insertion and the reversed order lists a class above another when
    its score is higher or, at equal scores, its index is higher; with more
    classes the order among equal scores is left to numpy's quicksort. *)
Theorem most_probable_classes_shortlist :
  forall (quicksort : list Q -> list nat) (h : store) (self : ActivePipeline)
         (scores : list Q) (k : nat),
    sorts quicksort ->
    getitem h (config self) "number_of_options" = Ok (VInt (Z.of_nat k)) ->
    length scores = length (classes self) ->
    classes self <> [] ->
    let top := firstn k (rev (argsort quicksort scores)) in
    _most_probable_classes quicksort h self [scores]
    = Ok (map (fun i => nth i (classes self) ""%string) top
          ++ [List.last (classes self) ""%string]) /\
    length top = Nat.min k (length (classes self)) /\
    Forall (fun i => (i < length (classes self))%nat) top /\
    List.NoDup top /\
    (forall a b : nat, (a < b < length top)%nat ->
       score scores (nth b top 0%nat) <= score scores (nth a top 0%nat)) /\
    (forall i j : nat, In i top -> (j < length (classes self))%nat -> ~ In j top ->
       score scores j <= score scores i) /\
    ((length scores <= 16)%nat ->
     StronglySorted (ranks_above scores) top /\
     (forall i j : nat, In i top -> (j < length (classes self))%nat ->
        ~ In j top -> ranks_above scores i j)).
Proof.
  intros quicksort h self scores k Hq Hk Hlen Hne top.
  destruct (@argsort_sorts quicksort scores Hq) as [Hperm Hsorted].
  set (d := rev (argsort quicksort scores)) in *.
  assert (Hd : StronglySorted (fun i j => score scores j <= score scores i) d)
    by (apply StronglySorted_rev; exact Hsorted).
  assert (Hdperm : Permutation d (seq 0 (length (classes self)))).
  { unfold d. rewrite <- Hlen, <- Hperm. symmetry. apply Permutation_rev. }
  assert (Hsplit : d = top ++ skipn k d) by (symmetry; apply firstn_skipn).
  assert (Hrange : Forall (fun i => (i < length (classes self))%nat) d).
  { apply List.Forall_forall. intros i Hi.
    eapply Permutation_in in Hi; [|exact Hdperm]. apply List.in_seq in Hi. lia. }
  assert (Htop_range : Forall (fun i => (i < length (classes self))%nat) top).
  { rewrite Hsplit in Hrange. now apply List.Forall_app in Hrange as [? _]. }
  assert (Hnodup : List.NoDup top).
  { assert (Hnd : List.NoDup d).
    { eapply Permutation_NoDup; [symmetry; exact Hdperm | apply List.seq_NoDup]. }
    rewrite Hsplit in Hnd. exact (List.NoDup_app_remove_r _ _ Hnd). }
  assert (Hrest : forall j : nat, (j < length (classes self))%nat -> ~ In j top ->
                    In j (skipn k d)).
  { intros j Hj Hnot.
    assert (Hjd : In j d).
    { eapply Permutation_in; [symmetry; exact Hdperm|]. apply List.in_seq. lia. }
    rewrite Hsplit in Hjd. apply in_app_or in Hjd as [Hjd|Hjd];
      [contradiction | exact Hjd]. }
  pose proof Hd as Hd'. rewrite Hsplit in Hd'.
  apply StronglySorted_app_inv in Hd' as [Htop Hcross].
  split; [|split; [|split; [exact Htop_range|split; [exact Hnodup|split; [|split]]]]].
  - unfold _most_probable_classes. cbn [map index nth_error rbind].
    fold d. rewrite Hk. cbn [rbind slice_to_value]. unfold slice_to.
    replace (0 <=? Z.of_nat k)%Z with true by (symmetry; apply Z.leb_le; lia).
    rewrite Nat2Z.id. fold top.
    rewrite (class_names_ok _ Htop_range). cbn [rbind].
    now rewrite (index_last_ok ""%string Hne).
  - unfold top. rewrite length_firstn. f_equal.
    rewrite (Permutation_length Hdperm). apply length_seq.
  - intros a b Hab. apply (StronglySorted_nth 0%nat Htop Hab).
  - intros i j Hi Hj Hnot. apply Hcross; [exact Hi | now apply Hrest].
  - intros H16.
    assert (Hins : StronglySorted (ranks_above scores) d).
    { unfold d. rewrite (@argsort_short quicksort scores H16).
      apply StronglySorted_rev. apply insertion_argsort_spec. }
    rewrite Hsplit in Hins.
    apply StronglySorted_app_inv in Hins as [Htop' Hcross'].
    split; [exact Htop'|].
    intros i j Hi Hj Hnot. apply Hcross'; [exact Hi | now apply Hrest].
Qed.

Lemma most_probable_classes_shortlist_witness :
  sorts insertion_argsort /\
  getitem one_option (config three_classes) "number_of_options"
  = Ok (VInt (Z.of_nat 1)) /\
  length scores_no_ties = length (classes three_classes) /\
  classes three_classes <> [] /\
  _most_probable_classes insertion_argsort one_option three_classes
    [scores_no_ties]
  = Ok ["a"; "c"]%string.
Proof.
  assert (H1 : getitem one_option (config three_classes) "number_of_options"
               = Ok (VInt (Z.of_nat 1))) by (vm_compute; reflexivity).
  assert (H2 : length scores_no_ties = length (classes three_classes)) by reflexivity.
  assert (H3 : classes three_classes <> []) by discriminate.
  split; [exact insertion_argsort_sorts|].
  split; [exact H1|]. split; [exact H2|]. split; [exact H3|].
  rewrite (proj1 (@most_probable_classes_shortlist insertion_argsort one_option
                    three_classes scores_no_ties 1 insertion_argsort_sorts
                    H1 H2 H3)).
  reflexivity.
Defined.

(** C6 as stated fails twice.  With scores -1, -3, -2 for the classes a, b,
    c and one option to show, the label appended after the shortlist is c,
    the last class, although b has the lowest score.  With the scores of a
    and b tied at -1, the class listed first is b: among three classes the
    tie goes to the higher index.  Three scores are sorted by insertion,
    so this is so whatever numpy does with longer arrays. *)
Lemma appended_class_is_last_not_lowest :
  (forall quicksort : list Q -> list nat,
     _most_probable_classes quicksort one_option three_classes [scores_no_ties]
     = Ok ["a"; "c"]%string) /\
  (forall j : nat, (j < 3)%nat -> score scores_no_ties 1 <= score scores_no_ties j) /\
  score scores_no_ties 1 < score scores_no_ties 2 /\
  nth 1 (classes three_classes) ""%string = "b"%string /\
  (forall quicksort : list Q -> list nat,
     _most_probable_classes quicksort one_option three_classes [scores_tied]
     = Ok ["b"; "c"]%string) /\
  score scores_tied 0 == score scores_tied 1.
Proof.
  split; [intros quicksort; vm_compute; reflexivity|].
  split.
  { intros j Hj. destruct j as [|[|[|j]]]; try lia; vm_compute; discriminate. }
  split; [reflexivity|]. split; [reflexivity|].
  split; [intros quicksort; vm_compute; reflexivity | reflexivity].
Qed.

End ActivePipeFacts.

(** ** The instance query loop *)

Module VisualizationFacts.
Import Visualization.
Open Scope Z_scope.

(** C8: in a pass of the instance query loop in which the oracle is asked
    and answers 'train', the loop calls _train and then
    _expectation_maximization, pops no instance (given that these two
    methods leave the corpora and the counter of the pipeline object alone,
    the unlabeled pool, the user corpus, the counter of new instances and
    the count of labelled instances are as before the pass), and goes on
    with the next evaluation of the loop condition: it neither leaves the
    loop nor faults. *)
Theorem train_answer_refits_and_consumes_nothing :
  forall (V M : Type) (m : methods V M)
         (get_labeled_instance : Z -> string -> list string -> string)
         (max_iterations : option Z) (a : activepipe V M) (l : locals)
         (i : instance V) (fuel : nat),
    (forall b, unlabeled_corpus (_train m b) = unlabeled_corpus b /\
               user_corpus (_train m b) = user_corpus b /\
               new_instances (_train m b) = new_instances b) ->
    (forall b, unlabeled_corpus (_expectation_maximization m b) = unlabeled_corpus b /\
               user_corpus (_expectation_maximization m b) = user_corpus b /\
               new_instances (_expectation_maximization m b) = new_instances b) ->
    loop_condition max_iterations a l = true ->
    nth_error (unlabeled_corpus a) (get_next_instance m a) = Some i ->
    emulate a && truthy (head (targets i)) = false ->
    get_labeled_instance (it l + 1) (representation i)
      (_most_probable_classes m a (vector i)) = "train"%string ->
    let a' := _expectation_maximization m (_train m a) in
    let l' := mklocals (it l + 1) (result_ l) in
    loop_body m (get_labeled_instance (it l + 1)) a l = (Next, a', l') /\
    unlabeled_corpus a' = unlabeled_corpus a /\
    user_corpus a' = user_corpus a /\
    new_instances a' = new_instances a /\
    result_ l' = result_ l /\
    while_loop (S fuel) m get_labeled_instance max_iterations a l
    = while_loop fuel m get_labeled_instance max_iterations a' l'.
Proof.
  intros V M m oracle max_iterations a l i fuel Htrain Hem Hcond Hi Hemu Hans a' l'.
  assert (Hbody : loop_body m (oracle (it l + 1)) a l = (Next, a', l')).
  { unfold loop_body, instances, representations, primary_targets.
    rewrite !nth_error_map, Hi. cbn [option_map].
    rewrite Hemu, Hans. reflexivity. }
  split; [exact Hbody|].
  destruct (Htrain a) as [Ht1 [Ht2 Ht3]].
  destruct (Hem (_train m a)) as [He1 [He2 He3]].
  repeat split; unfold a'; try congruence.
  cbn [while_loop]. rewrite Hcond, Hbody. reflexivity.
Qed.

Lemma train_answer_refits_and_consumes_nothing_witness :
  loop_condition None two_unlabeled (mklocals 0 0) = true /\
  while_loop 2 counting_methods train_then_stop None two_unlabeled (mklocals 0 0)
  = Some (Break,
          mkactivepipe (unlabeled_corpus two_unlabeled) [] 0 false 2%nat,
          mklocals 2 0).
Proof.
  split; [reflexivity|].
  assert (Hframe : forall b : activepipe nat nat,
            unlabeled_corpus (_train counting_methods b) = unlabeled_corpus b /\
            user_corpus (_train counting_methods b) = user_corpus b /\
            new_instances (_train counting_methods b) = new_instances b)
    by (intros b; repeat split).
  destruct (train_answer_refits_and_consumes_nothing counting_methods
              train_then_stop None two_unlabeled (mklocals 0 0)
              (i := mkinstance 7%nat [] "first question") 1
              Hframe Hframe eq_refl eq_refl eq_refl eq_refl)
    as [_ [_ [_ [_ [_ Hloop]]]]].
  rewrite Hloop. reflexivity.
Defined.

End VisualizationFacts.

(** ** The discrete classifiers *)

Module NaiveBayesFacts.
Import Np NpFacts NaiveBayes.
Open Scope R_scope.

Lemma shape_scale_rows (Y Yw : ndarray) (w : list R) :
  scale_rows Y w = Ok Yw -> shape0 Yw = shape0 Y /\ shape1 Yw = shape1 Y.
Proof.
  unfold scale_rows. intros H.
  destruct (Nat.eqb (length w) (shape0 Y)); [inversion H; now split|].
  destruct (Nat.eqb (length w) 1); [inversion H; now split | discriminate].
Qed.

Lemma shape_weighted (Y Yw : ndarray) (sw : option (list R)) :
  weighted Y sw = Ok Yw -> shape0 Yw = shape0 Y /\ shape1 Yw = shape1 Y.
Proof.
  destruct sw as [w|]; cbn.
  - apply shape_scale_rows.
  - intros H. inversion H. now split.
Qed.

Lemma shape_counted (self : DiscreteNB) (X : ndarray) :
  shape0 (counted self X) = shape0 X /\ shape1 (counted self X) = shape1 X.
Proof. unfold counted. destruct (variant self) as [|[t|]]; now split. Qed.

Lemma dot_ok (A B : ndarray) :
  shape1 A = shape0 B ->
  dot A B = Ok (tabulate (shape0 A) (shape1 B)
                  (fun i j => rsum (shape1 A) (fun k => get A i k * get B k j))).
Proof. intros H. unfold dot. now rewrite H, Nat.eqb_refl. Qed.

Lemma dot_inv (A B C : ndarray) :
  dot A B = Ok C ->
  shape1 A = shape0 B /\
  C = tabulate (shape0 A) (shape1 B)
        (fun i j => rsum (shape1 A) (fun k => get A i k * get B k j)).
Proof.
  unfold dot. destruct (Nat.eqb (shape1 A) (shape0 B)) eqn:E; [|discriminate].
  intros H. inversion H. split; [now apply Nat.eqb_eq | reflexivity].
Qed.

Lemma length_prior_of (self : DiscreteNB) (Y : ndarray) (cp : option (list R))
    (prior : list R) :
  prior_of self Y (shape1 Y) cp = Ok prior -> length prior = shape1 Y.
Proof.
  unfold prior_of. intros H.
  assert (Hdef : (if fit_prior self
                  then Ok (map (fun f => ln f - ln (vsum (sum_axis0 Y))) (sum_axis0 Y))
                  else Ok (vtabulate (shape1 Y) (fun _ => 0 - ln (INR (shape1 Y)))))
                 = Ok prior -> length prior = shape1 Y).
  { destruct (fit_prior self); intros H'; inversion H'.
    - rewrite length_map. apply length_vtabulate.
    - apply length_vtabulate. }
  destruct cp as [[|p ps]|]; try (now apply Hdef).
  destruct (Nat.eqb (length (p :: ps)) (shape1 Y)) eqn:E; [|discriminate].
  injection H as <-. apply Nat.eqb_eq in E. cbn [map length] in *.
  now rewrite length_map.
Qed.

(** [_fit1ofK] succeeds whenever the weights and the prior fit the label
    matrix and X has one row per row of Y, and then stores the prior and the
    smoothed log-estimates. *)
Lemma fit1ofK_ok (self : DiscreteNB) (X Y Yw : ndarray)
    (sw cp : option (list R)) (prior : list R) :
  weighted Y sw = Ok Yw ->
  prior_of self Yw (shape1 Y) cp = Ok prior ->
  shape0 Yw = shape0 X ->
  _fit1ofK self X Y sw cp
  = (set_feature_log_prob (set_class_log_prior self prior)
       (tabulate (shape1 Yw) (shape1 X)
          (spec_feature_log_prob (alpha self) (counted self X) Yw)),
     Ok tt).
Proof.
  intros HY Hp Hs. unfold _fit1ofK. fold (weighted Y sw). rewrite HY.
  fold (prior_of self Yw (shape1 Y) cp). rewrite Hp.
  unfold _count. cbn [variant set_class_log_prior].
  fold (counted self X).
  destruct (shape_counted self X) as [Hc0 Hc1].
  rewrite dot_ok by (rewrite shape1_T; congruence).
  cbn [rbind]. change (alpha (set_class_log_prior self prior)) with (alpha self).
  rewrite !shape0_tabulate, !shape1_tabulate, shape0_T, shape1_T.
  f_equal. f_equal. rewrite Hc1.
  set (N := tabulate (shape1 Yw) (shape1 X)
              (fun i j => rsum (shape0 Yw)
                 (fun k => get (T Yw) i k * get (counted self X) k j))).
  apply tabulate_ext. intros c i Hc Hi.
  assert (HN : forall j, (j < shape1 X)%nat ->
                 get N c j = spec_N_ci (counted self X) Yw c j).
  { intros j Hj. unfold N. rewrite get_tabulate by assumption.
    unfold spec_N_ci. rewrite Hc0, <- Hs. apply rsum_ext. intros k Hk.
    now rewrite get_T. }
  unfold spec_feature_log_prob, spec_N_c, sum_axis1.
  unfold N at 2 3. rewrite shape0_tabulate, shape1_tabulate. fold N.
  rewrite Hc1, nth_vtabulate by exact Hc.
  rewrite (HN i Hi). f_equal. f_equal. f_equal. now apply rsum_ext.
Qed.

(** What a successful [_fit1ofK] has done. *)
Lemma fit1ofK_inv (self self' : DiscreteNB) (X Y : ndarray)
    (sw cp : option (list R)) (u : unit) :
  _fit1ofK self X Y sw cp = (self', Ok u) ->
  exists (Yw : ndarray) (prior : list R),
    weighted Y sw = Ok Yw /\
    prior_of self Yw (shape1 Y) cp = Ok prior /\
    shape0 Yw = shape0 X /\
    self' = set_feature_log_prob (set_class_log_prior self prior)
              (tabulate (shape1 Yw) (shape1 X)
                 (spec_feature_log_prob (alpha self) (counted self X) Yw)).
Proof.
  intros H.
  destruct (weighted Y sw) as [Yw|e] eqn:HY.
  - destruct (prior_of self Yw (shape1 Y) cp) as [prior|e] eqn:Hp.
    + destruct (Nat.eq_dec (shape0 Yw) (shape0 X)) as [Hs|Hs].
      * rewrite (fit1ofK_ok self X Y sw cp HY Hp Hs) in H.
        inversion H. now exists Yw, prior.
      * exfalso. revert H. unfold _fit1ofK. fold (weighted Y sw). rewrite HY.
        fold (prior_of self Yw (shape1 Y) cp). rewrite Hp.
        unfold _count. fold (counted (set_class_log_prior self prior) X).
        unfold dot. rewrite shape1_T.
        destruct (shape_counted (set_class_log_prior self prior) X) as [-> _].
        apply Nat.eqb_neq in Hs. rewrite Hs. cbn [rbind]. discriminate.
    + exfalso. revert H. unfold _fit1ofK. fold (weighted Y sw). rewrite HY.
      fold (prior_of self Yw (shape1 Y) cp). rewrite Hp. discriminate.
  - exfalso. revert H. unfold _fit1ofK. fold (weighted Y sw). rewrite HY.
    discriminate.
Qed.

Lemma label_1ofK_1D (self : DiscreteNB) (y : list Z) :
  fst (_label_1ofK self (Labels1D y)) = set_classes self (unique y) /\
  shape0 (snd (_label_1ofK self (Labels1D y))) = length y.
Proof.
  unfold _label_1ofK, LabelBinarizer_fit_transform, LabelBinarizer_classes.
  destruct (length (unique y)) as [|[|[|n]]]; cbn; now split.
Qed.

Lemma fit_mismatch (self : DiscreteNB) (X : ndarray) (y : list Z)
    (sw cp : option (list R)) :
  shape0 X <> length y ->
  fit self X (Labels1D y) sw cp = (set_classes self (unique y), Raise ValueError).
Proof.
  intros Hne. unfold fit.
  destruct (label_1ofK_1D self y) as [H1 H2].
  destruct (_label_1ofK self (Labels1D y)) as [self1 Y]. cbn [fst snd] in *.
  apply Nat.eqb_neq in Hne. rewrite H2, Hne. cbn [negb]. now subst self1.
Qed.

(** C2, as the code has it: when the number of rows of X differs from the
    length of the label vector y, fit raises the ValueError of line 238 and
    leaves class_log_prior_ and feature_log_prob_ (and alpha, fit_prior and
    the variant) as they were; the class set, which _label_1ofK stores
    before the shapes are compared, is by then the sorted distinct labels
    of y. *)
Theorem fit_shape_mismatch_raises :
  forall (self : DiscreteNB) (X : ndarray) (y : list Z)
         (sample_weight class_prior : option (list R)),
    shape0 X <> length y ->
    let self' := fst (fit self X (Labels1D y) sample_weight class_prior) in
    snd (fit self X (Labels1D y) sample_weight class_prior) = Raise ValueError /\
    class_log_prior_ self' = class_log_prior_ self /\
    feature_log_prob_ self' = feature_log_prob_ self /\
    alpha self' = alpha self /\ fit_prior self' = fit_prior self /\
    variant self' = variant self /\
    _classes self' = Some (unique y).
Proof.
  intros self X y sw cp Hne. cbv zeta. rewrite (@fit_mismatch self X y sw cp Hne).
  repeat split.
Qed.

Lemma fit_shape_mismatch_raises_witness :
  shape0 three_samples <> length [5; 6]%Z /\
  snd (fit unfitted_multinomial three_samples (Labels1D [5; 6]%Z) None None)
  = Raise ValueError.
Proof.
  assert (H : shape0 three_samples <> length [5; 6]%Z) by (cbn; lia).
  split; [exact H|].
  exact (proj1 (fit_shape_mismatch_raises unfitted_multinomial three_samples
                  [5; 6]%Z None None H)).
Defined.

(** C2 as stated fails: a classifier fitted on the classes 0 and 1, then
    given three samples with two labels 5 and 6, raises, and its class set
    is [5, 6] afterwards. *)
Lemma failed_fit_replaces_class_set :
  let fitted := fst (fit unfitted_multinomial three_samples
                       (Labels1D [0; 1; 1]%Z) None None) in
  let failed := fit fitted three_samples (Labels1D [5; 6]%Z) None None in
  snd (fit unfitted_multinomial three_samples (Labels1D [0; 1; 1]%Z) None None)
  = Ok tt /\
  _classes fitted = Some [0; 1]%Z /\
  snd failed = Raise ValueError /\
  _classes (fst failed) = Some [5; 6]%Z /\
  _classes (fst failed) <> _classes fitted.
Proof.
  cbv zeta.
  set (first := fit unfitted_multinomial three_samples (Labels1D [0; 1; 1]%Z) None None).
  assert (Hfirst : snd first = Ok tt /\ _classes (fst first) = Some [0; 1]%Z).
  { unfold first, fit.
    destruct (label_1ofK_1D unfitted_multinomial [0; 1; 1]%Z) as [H1 H2].
    destruct (_label_1ofK unfitted_multinomial (Labels1D [0; 1; 1]%Z)) as [s1 Y].
    cbn [fst snd] in *. rewrite H2. cbn [three_samples shape0 length Nat.eqb negb].
    rewrite (fit1ofK_ok s1 three_samples Y None None (Yw := Y)
               (prior := map (fun f => ln f - ln (vsum (sum_axis0 Y))) (sum_axis0 Y)));
      [| reflexivity | subst s1; reflexivity | exact H2].
    subst s1. split; reflexivity. }
  destruct Hfirst as [Hok Hcl]. split; [exact Hok|]. split; [exact Hcl|].
  assert (Hne : shape0 three_samples <> length [5; 6]%Z) by (cbn; lia).
  rewrite (@fit_mismatch (fst first) three_samples [5; 6]%Z None None Hne). cbn [fst snd].
  split; [reflexivity|]. split; [reflexivity|]. rewrite Hcl. discriminate.
Qed.

Lemma fit_inv (self self' : DiscreteNB) (X : ndarray) (y : labels)
    (sw cp : option (list R)) (u : unit) :
  fit self X y sw cp = (self', Ok u) ->
  shape0 X = shape0 (snd (_label_1ofK self y)) /\
  _fit1ofK (fst (_label_1ofK self y)) X (snd (_label_1ofK self y)) sw cp
  = (self', Ok u).
Proof.
  unfold fit. destruct (_label_1ofK self y) as [s1 Y]. cbn [fst snd].
  destruct (Nat.eqb (shape0 X) (shape0 Y)) eqn:E; cbn [negb].
  - intros H. split; [now apply Nat.eqb_eq | exact H].
  - discriminate.
Qed.

Lemma alpha_label_1ofK (self : DiscreteNB) (y : labels) :
  alpha (fst (_label_1ofK self y)) = alpha self /\
  variant (fst (_label_1ofK self y)) = variant self.
Proof.
  destruct y as [y|Y]; cbn; [|now split].
  destruct (Nat.eqb _ 1); now split.
Qed.

(** C4, as the code has it: after every successful fit, with Y the 1-of-K
    label matrix (row-scaled by sample_weight when given), X' the array that
    is counted (X itself for MultinomialNB and for a BernoulliNB without
    threshold, X binarized at the threshold for a BernoulliNB with one),
    N_ci = Y-transpose times X' and N_c the sum of N_ci over the features,
    feature_log_prob_ has one row per column of Y and one column per
    feature, and its entry (c, i) is log(N_ci + alpha) - log(N_c + alpha*F)
    with F the number of features. *)
Theorem fit_feature_log_prob :
  forall (self self' : DiscreteNB) (X : ndarray) (y : labels)
         (sample_weight class_prior : option (list R)),
    fit self X y sample_weight class_prior = (self', Ok tt) ->
    exists Yw flp : ndarray,
      weighted (snd (_label_1ofK self y)) sample_weight = Ok Yw /\
      feature_log_prob_ self' = Some flp /\
      shape0 flp = shape1 Yw /\ shape1 flp = shape1 X /\
      (forall c i : nat, (c < shape1 Yw)%nat -> (i < shape1 X)%nat ->
         get flp c i = spec_feature_log_prob (alpha self) (counted self X) Yw c i) /\
      (variant self = Multinomial \/ variant self = Bernoulli None ->
       counted self X = X) /\
      (forall t, variant self = Bernoulli (Some t) ->
       counted self X = binarize X t).
Proof.
  intros self self' X y sw cp H.
  apply fit_inv in H as [_ H]. apply fit1ofK_inv in H as [Yw [prior [HY [_ [_ ->]]]]].
  destruct (alpha_label_1ofK self y) as [Ha Hv].
  exists Yw. eexists. split; [exact HY|]. split; [reflexivity|].
  cbn [tabulate shape0 shape1]. repeat split.
  - intros c i Hc Hi. rewrite get_tabulate by assumption.
    rewrite Ha. unfold counted. now rewrite Hv.
  - intros [Hm|Hb]; unfold counted; [now rewrite Hm | now rewrite Hb].
  - intros t Ht. unfold counted. now rewrite Ht.
Qed.

Lemma fit_feature_log_prob_witness :
  exists self' : DiscreteNB,
    fit unfitted_multinomial three_samples (Labels1D [0; 1; 1]%Z) None None
    = (self', Ok tt) /\
    exists flp : ndarray,
      feature_log_prob_ self' = Some flp /\
      shape0 flp = 2%nat /\ shape1 flp = 2%nat.
Proof.
  destruct (fit unfitted_multinomial three_samples (Labels1D [0; 1; 1]%Z) None None)
    as [self' r] eqn:Hfit.
  assert (Hr : r = Ok tt).
  { change r with (snd (self', r)). rewrite <- Hfit. unfold fit.
    destruct (label_1ofK_1D unfitted_multinomial [0; 1; 1]%Z) as [H1 H2].
    destruct (_label_1ofK unfitted_multinomial (Labels1D [0; 1; 1]%Z)) as [s1 Y].
    cbn [fst snd] in *. rewrite H2. cbn [three_samples shape0 length Nat.eqb negb].
    rewrite (fit1ofK_ok s1 three_samples Y None None (Yw := Y)
               (prior := map (fun f => ln f - ln (vsum (sum_axis0 Y))) (sum_axis0 Y)));
      [reflexivity | reflexivity | subst s1; reflexivity | exact H2]. }
  subst r. exists self'. split; [reflexivity|].
  destruct (fit_feature_log_prob _ _ _ _ _ Hfit)
    as [Yw [flp [HY [Hf [H0 [H1 _]]]]]].
  exists flp. split; [exact Hf|]. cbn in HY. inversion HY. subst Yw.
  split; [exact H0 | exact H1].
Defined.

(** C4 as stated fails for a BernoulliNB with its default threshold: on
    samples [2, 1] (class 0) and [0, 1] (class 1) with alpha = 1 the fitted
    entry (0, 0) is log 2 - log 4, from the binarized counts, and not
    log 3 - log 5, which Y-transpose times X gives. *)
Lemma bernoulli_fit_counts_binarized_features :
  exists (self' : DiscreteNB) (flp : ndarray),
    fit unfitted_bernoulli two_counts (Labels1D two_labels) None None
    = (self', Ok tt) /\
    feature_log_prob_ self' = Some flp /\
    get flp 0 0 = ln 2 - ln 4 /\
    spec_feature_log_prob (alpha unfitted_bernoulli) two_counts
      (snd (_label_1ofK unfitted_bernoulli (Labels1D two_labels))) 0 0
    = ln 3 - ln 5 /\
    get flp 0 0 <>
    spec_feature_log_prob (alpha unfitted_bernoulli) two_counts
      (snd (_label_1ofK unfitted_bernoulli (Labels1D two_labels))) 0 0.
Proof.
  set (Y := snd (_label_1ofK unfitted_bernoulli (Labels1D two_labels))).
  set (s1 := fst (_label_1ofK unfitted_bernoulli (Labels1D two_labels))).
  assert (Hfit : fit unfitted_bernoulli two_counts (Labels1D two_labels) None None
                 = _fit1ofK s1 two_counts Y None None) by reflexivity.
  rewrite (fit1ofK_ok s1 two_counts Y None None (Yw := Y)
             (prior := map (fun f => ln f - ln (vsum (sum_axis0 Y))) (sum_axis0 Y)))
    in Hfit; [| reflexivity | reflexivity | reflexivity].
  assert (Hcode : get (tabulate (shape1 Y) (shape1 two_counts)
                         (spec_feature_log_prob (alpha s1) (counted s1 two_counts) Y))
                    0 0 = ln 2 - ln 4).
  { rewrite get_tabulate by (cbn; lia). np_eval.
    destruct (Rlt_dec 0 2) as [_|n]; [|exfalso; apply n; lra].
    destruct (Rlt_dec 0 0) as [l|_]; [exfalso; lra|].
    destruct (Rlt_dec 0 1) as [_|n]; [|exfalso; apply n; lra].
    f_equal; f_equal; lra. }
  assert (Hspec : spec_feature_log_prob (alpha unfitted_bernoulli) two_counts Y 0 0
                  = ln 3 - ln 5).
  { np_eval. f_equal; f_equal; lra. }
  eexists. eexists. split; [exact Hfit|]. split; [reflexivity|].
  split; [exact Hcode|]. split; [exact Hspec|].
  rewrite Hcode, Hspec. apply ln_ratio_neq; lra.
Qed.

(** *** Log-sum-exp and the normalisation of the scores *)

Lemma vsum_map_scale (f : R -> R) (k : R) (l : list R) :
  vsum (map (fun x => f x * k) l) = vsum (map f l) * k.
Proof.
  induction l as [|x l IH]; cbn [map].
  - rewrite vsum_nil. lra.
  - rewrite !vsum_cons, IH. lra.
Qed.

Lemma vsum_map_pos (f : R -> R) (l : list R) :
  l <> [] -> (forall x, 0 < f x) -> 0 < vsum (map f l).
Proof.
  intros Hl Hf. destruct l as [|x l]; [contradiction|]. clear Hl.
  revert x. induction l as [|y l IH]; intros x; cbn [map].
  - rewrite vsum_cons, vsum_nil. specialize (Hf x). lra.
  - rewrite vsum_cons. specialize (Hf x). specialize (IH y). cbn [map] in IH. lra.
Qed.

Lemma shifted_sum_pos (row : list R) (m : R) :
  row <> [] -> 0 < vsum (map (fun x => exp (x - m)) row).
Proof. intros H. apply vsum_map_pos; [exact H | intros x; apply exp_pos]. Qed.

(** The stable form is the log of the sum of the exponentials. *)
Lemma logsumexp_row_plain (row : list R) :
  row <> [] -> logsumexp_row row = ln (vsum (map exp row)).
Proof.
  intros Hrow. unfold logsumexp_row. set (m := row_max row).
  rewrite (map_ext (fun x => exp (x - m)) (fun x => exp x * / exp m)).
  2:{ intros x. unfold Rminus. now rewrite exp_plus, exp_Ropp. }
  rewrite vsum_map_scale.
  assert (HS : 0 < vsum (map exp row)) by (apply vsum_map_pos; [exact Hrow | apply exp_pos]).
  assert (Hm : 0 < / exp m) by (apply Rinv_0_lt_compat, exp_pos).
  rewrite ln_mult by assumption.
  rewrite ln_Rinv by apply exp_pos. rewrite ln_exp. lra.
Qed.

(** Exponentiating a row from which its log-sum-exp was subtracted gives
    numbers that sum to one. *)
Lemma normalized_row_sums_to_one (row : list R) :
  row <> [] ->
  vsum (map (fun x => exp (x - logsumexp_row row)) row) = 1.
Proof.
  intros Hrow. unfold logsumexp_row. set (m := row_max row).
  set (S := vsum (map (fun x => exp (x - m)) row)).
  assert (HS : 0 < S) by now apply shifted_sum_pos.
  rewrite (map_ext (fun x => exp (x - (ln S + m))) (fun x => exp (x - m) * / S)).
  2:{ intros x. replace (x - (ln S + m)) with ((x - m) + - ln S) by lra.
      now rewrite exp_plus, exp_Ropp, exp_ln. }
  rewrite vsum_map_scale. fold S. field. lra.
Qed.

Lemma vtabulate_nonempty (n : nat) (f : nat -> R) :
  (0 < n)%nat -> vtabulate n f <> [].
Proof. intros Hn H. apply (f_equal (@length R)) in H. rewrite length_vtabulate in H. cbn in H. lia. Qed.

Lemma map_vtabulate (g : R -> R) (n : nat) (f : nat -> R) :
  map g (vtabulate n f) = vtabulate n (fun i => g (f i)).
Proof. unfold vtabulate. now rewrite map_map. Qed.

Lemma vtabulate_ext (n : nat) (f g : nat -> R) :
  (forall i, (i < n)%nat -> f i = g i) -> vtabulate n f = vtabulate n g.
Proof.
  intros H. unfold vtabulate. apply map_ext_in. intros i Hi.
  apply List.in_seq in Hi. apply H. lia.
Qed.

(** *** The scores of a fitted classifier *)

Lemma add_rowvec_ok (A : ndarray) (v : list R) :
  length v = shape1 A ->
  add_rowvec A v = Ok (tabulate (shape0 A) (shape1 A) (fun i j => get A i j + nth j v 0)).
Proof. intros H. unfold add_rowvec. now rewrite H, Nat.eqb_refl. Qed.

Lemma joint_log_likelihood_ok (self : DiscreteNB) (X : ndarray) (C F : nat) :
  fitted self C F -> shape1 X = F ->
  exists jll : ndarray,
    _joint_log_likelihood self X = Ok jll /\
    shape0 jll = shape0 X /\ shape1 jll = C.
Proof.
  intros [prior [flp [Hp [Hf [Hlen [H0 H1]]]]]] HX.
  unfold _joint_log_likelihood, coef_, intercept_. rewrite Hp, Hf.
  destruct (variant self) as [|threshold]; cbn [rbind].
  - rewrite dot_ok by np_shape.
    cbn [rbind]. rewrite add_rowvec_ok by np_shape.
    eexists. split; [reflexivity|]. split; np_shape.
  - set (Xb := match threshold with Some t => binarize X t | None => X end).
    assert (Hb : shape0 Xb = shape0 X /\ shape1 Xb = shape1 X)
      by (unfold Xb; destruct threshold; now split).
    destruct Hb as [Hb0 Hb1].
    replace (Nat.eqb (shape1 Xb) (shape1 flp)) with true
      by (symmetry; apply Nat.eqb_eq; congruence).
    cbn [negb].
    rewrite dot_ok by np_shape.
    cbn [rbind]. unfold rowvec_sub, sum_axis1. np_shape.
    rewrite Nat.eqb_refl. cbn [rbind].
    rewrite dot_ok by np_shape.
    cbn [rbind]. unfold add. np_shape.
    rewrite !Nat.eqb_refl. cbn [andb rbind].
    rewrite add_rowvec_ok by np_shape.
    eexists. split; [reflexivity|]. split; np_shape.
Qed.

Lemma predict_log_proba_ok (self : DiscreteNB) (X jll : ndarray) :
  _joint_log_likelihood self X = Ok jll -> (0 < shape1 jll)%nat ->
  predict_log_proba self X
  = Ok (tabulate (shape0 jll) (shape1 jll)
          (fun i j => get jll i j
                      - logsumexp_row (vtabulate (shape1 jll) (get jll i)))).
Proof.
  intros Hj HC. unfold predict_log_proba. rewrite Hj. cbn [rbind].
  unfold logsumexp_axis1.
  replace (Nat.eqb (shape1 jll) 0) with false by (symmetry; apply Nat.eqb_neq; lia).
  cbn [rbind]. unfold sub_colvec. rewrite length_vtabulate, Nat.eqb_refl.
  f_equal. apply tabulate_ext. intros i j Hi Hj'. now rewrite nth_vtabulate.
Qed.

Lemma fit1ofK_fitted (self self' : DiscreteNB) (X Y : ndarray)
    (sw cp : option (list R)) (u : unit) :
  _fit1ofK self X Y sw cp = (self', Ok u) ->
  fitted self' (shape1 Y) (shape1 X) /\
  variant self' = variant self /\ alpha self' = alpha self /\
  fit_prior self' = fit_prior self /\ _classes self' = _classes self.
Proof.
  intros H. apply fit1ofK_inv in H as [Yw [prior [HY [Hp [_ ->]]]]].
  destruct (shape_weighted Y sw HY) as [_ Hw1].
  split; [|repeat split].
  exists prior. eexists. cbn. repeat split; try exact Hw1.
  rewrite <- Hw1 in Hp. rewrite <- Hw1. exact (length_prior_of self Yw cp Hp).
Qed.


Lemma fit_fitted (self self' : DiscreteNB) (X : ndarray) (y : labels)
    (sw cp : option (list R)) (u : unit) :
  fit self X y sw cp = (self', Ok u) ->
  fitted self' (shape1 (snd (_label_1ofK self y))) (shape1 X).
Proof.
  intros H. apply fit_inv in H as [_ H]. now apply fit1ofK_fitted in H.
Qed.

Lemma fit_three_samples_ok :
  exists self' : DiscreteNB,
    fit unfitted_multinomial three_samples (Labels1D [0; 1; 1]%Z) None None
    = (self', Ok tt).
Proof.
  set (Y := snd (_label_1ofK unfitted_multinomial (Labels1D [0; 1; 1]%Z))).
  set (s1 := fst (_label_1ofK unfitted_multinomial (Labels1D [0; 1; 1]%Z))).
  assert (Hfit : fit unfitted_multinomial three_samples (Labels1D [0; 1; 1]%Z) None None
                 = _fit1ofK s1 three_samples Y None None) by reflexivity.
  rewrite (fit1ofK_ok s1 three_samples Y None None (Yw := Y)
             (prior := map (fun f => ln f - ln (vsum (sum_axis0 Y))) (sum_axis0 Y)))
    in Hfit; [| reflexivity | reflexivity | reflexivity].
  eexists. exact Hfit.
Qed.

Lemma three_samples_nonneg : forall r i, 0 <= get three_samples r i.
Proof. apply get_nonneg_of_data. cbn. repeat constructor; lra. Qed.




End NaiveBayesFacts.

(** ** The EM loop *)

Module EMFacts.
Import Np NpFacts NaiveBayes NaiveBayesFacts SemisupervisedNB.
Open Scope R_scope.

Lemma fitted_coef_intercept (clf : DiscreteNB) (C F : nat) :
  fitted clf C F ->
  exists (c : ndarray) (b : list R),
    coef_ clf = Ok c /\ intercept_ clf = Ok b /\
    shape0 c = C /\ shape1 c = F /\ length b = C.
Proof.
  intros [prior [flp [Hp [Hf [Hlen [H0 H1]]]]]]. exists flp, prior.
  unfold coef_, intercept_. rewrite Hp, Hf. repeat split; assumption.
Qed.

(** With relabel_all disabled the first pass through the loop reads the
    unbound local X_unlabeled. *)
Lemma em_loop_unbound (tolF : R) (cp : option (list R)) (n : nat)
    (clf : DiscreteNB) (X Y oc : ndarray) (oi : list R) :
  em_loop false tolF cp (S n) clf X Y None None oc oi
  = (clf, Raise UnboundLocalError).
Proof. reflexivity. Qed.

(** C1 fails on the code: with relabel_all disabled and at least one
    iteration allowed, fit never completes; once its initial M-step on the
    labeled rows has succeeded, the first E-step raises UnboundLocalError,
    because X_unlabeled and Y_unlabeled are bound only when relabel_all is
    enabled (line 545), so no soft labels are computed and no M-step of the
    loop runs. *)
Theorem fit_relabel_all_disabled_raises :
  forall (self : SemisupervisedNB.t) (clf : DiscreteNB) (X : ndarray)
         (y : list Z) (class_prior : option (list R)),
    estimator self = ObjDiscreteNB clf ->
    relabel_all self = false ->
    (0 < n_iter self)%Z ->
    (forall ex : em_exit, snd (fit self X y class_prior) <> Ok ex) /\
    (forall (Xl Yl : ndarray) (clf0 : DiscreteNB),
        take_rows X (where_ne y (-1)) = Ok Xl ->
        take_rows (snd (_label_1ofK clf (Labels1D y))) (where_ne y (-1)) = Ok Yl ->
        _fit1ofK (fst (_label_1ofK clf (Labels1D y))) Xl Yl None class_prior
        = (clf0, Ok tt) ->
        snd (fit self X y class_prior) = Raise UnboundLocalError).
Proof.
  intros self clf X y cp Hest Hrel Hn.
  destruct (Z.to_nat (n_iter self)) as [|n] eqn:En; [lia|].
  unfold fit. rewrite Hest, Hrel, En.
  destruct (_label_1ofK clf (Labels1D y)) as [clf1 Y]. cbn [fst snd].
  destruct (take_rows X (where_ne y (-1))) as [Xl|e] eqn:EX; cbn [rbind].
  2:{ split; [intros ex H; discriminate H | intros ? ? ? H; discriminate H]. }
  destruct (take_rows Y (where_ne y (-1))) as [Yl|e] eqn:EY; cbn [rbind].
  2:{ split; [intros ex H; discriminate H | intros ? ? ? _ H; discriminate H]. }
  destruct (_fit1ofK clf1 Xl Yl None cp) as [clf0 [[]|e]] eqn:EF.
  2:{ split; [intros ex H; discriminate H|].
      intros Xl' Yl' clf' H1 H2 H3. injection H1 as <-. injection H2 as <-.
      rewrite EF in H3. discriminate H3. }
  destruct (fit1ofK_fitted _ _ _ _ _ EF) as [Hfit _].
  destruct (fitted_coef_intercept Hfit) as [c [b [Hc [Hb _]]]].
  rewrite Hc, Hb, em_loop_unbound. cbn [snd].
  split; [intros ex H; discriminate H | intros; reflexivity].
Qed.

Lemma fit_relabel_all_disabled_raises_witness :
  estimator trainer_unlabeled_only = ObjDiscreteNB unfitted_multinomial /\
  relabel_all trainer_unlabeled_only = false /\
  (0 < n_iter trainer_unlabeled_only)%Z /\
  snd (fit trainer_unlabeled_only three_samples three_labels None)
  = Raise UnboundLocalError.
Proof.
  split; [reflexivity|]. split; [reflexivity|]. split; [reflexivity|].
  destruct (fit_relabel_all_disabled_raises trainer_unlabeled_only three_samples
              three_labels None eq_refl eq_refl eq_refl) as [_ H].
  set (Y := snd (_label_1ofK unfitted_multinomial (Labels1D three_labels))) in *.
  set (s1 := fst (_label_1ofK unfitted_multinomial (Labels1D three_labels))) in *.
  destruct (take_rows three_samples (where_ne three_labels (-1))) as [Xl|e] eqn:EX;
    [|discriminate EX].
  destruct (take_rows Y (where_ne three_labels (-1))) as [Yl|e] eqn:EY;
    [|discriminate EY].
  assert (HX : shape0 Xl = 2%nat /\ shape1 Xl = 2%nat)
    by (injection EX as <-; now split).
  assert (HY : shape0 Yl = 2%nat) by (injection EY as <-; reflexivity).
  eapply (H Xl Yl); [reflexivity | reflexivity |].
  apply (@fit1ofK_ok s1 Xl Yl Yl None None
           (map (fun f => ln f - ln (vsum (sum_axis0 Yl))) (sum_axis0 Yl)));
    [reflexivity | reflexivity | destruct HX; congruence].
Defined.

(** *** The convergence measure *)

Lemma max_list_ge (v : list R) (x : R) : In x v -> x <= max_list v.
Proof.
  induction v as [|y v IH]; intros H; [destruct H|].
  change (max_list (y :: v)) with (Rmax y (max_list v)).
  destruct H as [<-|H]; [apply Rmax_l|].
  eapply Rle_trans; [now apply IH | apply Rmax_r].
Qed.

Lemma max_list_in (v : list R) :
  v <> [] -> (forall x, In x v -> 0 <= x) -> In (max_list v) v.
Proof.
  induction v as [|y v IH]; intros Hne Hpos; [contradiction|].
  change (max_list (y :: v)) with (Rmax y (max_list v)).
  destruct v as [|z v].
  - left. change (max_list []) with 0. symmetry. apply Rmax_left.
    apply Hpos. now left.
  - destruct (Rmax_case y (max_list (z :: v)) (fun m => m = y \/ m = max_list (z :: v)))
      as [H|H]; [now left | now right | left; now symmetry |].
    right. rewrite H. apply IH; [discriminate|].
    intros x Hx. apply Hpos. now right.
Qed.

Lemma rsum_nonneg (n : nat) (f : nat -> R) :
  (forall i, 0 <= f i) -> 0 <= rsum n f.
Proof.
  intros H. induction n as [|n IH]; [unfold rsum; cbn; lra|].
  rewrite rsum_S. specialize (H n). lra.
Qed.

Lemma in_vtabulate (n : nat) (f : nat -> R) (x : R) :
  In x (vtabulate n f) <-> exists i, (i < n)%nat /\ x = f i.
Proof.
  unfold vtabulate. rewrite in_map_iff. split.
  - intros [i [<- Hi]]. apply List.in_seq in Hi. exists i. split; [lia | reflexivity].
  - intros [i [Hi ->]]. exists i. split; [reflexivity | apply List.in_seq; lia].
Qed.

Lemma sub_ok (A B : ndarray) :
  shape0 A = shape0 B -> shape1 A = shape1 B ->
  sub A B = Ok (tabulate (shape0 A) (shape1 A) (fun i j => get A i j - get B i j)).
Proof. intros H0 H1. unfold sub. now rewrite H0, H1, !Nat.eqb_refl. Qed.

Lemma vsub_ok (v w : list R) :
  length v = length w ->
  vsub v w = Ok (vtabulate (length v) (fun i => nth i v 0 - nth i w 0)).
Proof. intros H. unfold vsub. now rewrite H, Nat.eqb_refl. Qed.

Lemma norm1_vec_vtabulate (n : nat) (f : nat -> R) :
  norm1_vec (vtabulate n f) = rsum n (fun i => Rabs (f i)).
Proof. unfold norm1_vec. now rewrite map_vtabulate. Qed.

(** The distance of lines 572-573 exists for parameters of one shape over
    at least one feature, and is the largest absolute column sum of the
    coefficient differences plus the absolute sum of the intercept
    differences. *)
Lemma distance_spec (oc c : ndarray) (oi b : list R) (clf : DiscreteNB) :
  coef_ clf = Ok c -> intercept_ clf = Ok b ->
  shape0 oc = shape0 c -> shape1 oc = shape1 c -> length oi = length b ->
  (0 < shape1 oc)%nat ->
  exists d : R, distance oc oi clf = Ok d /\ spec_distance oc oi c b d.
Proof.
  intros Hc Hb H0 H1 Hl HF. unfold distance. rewrite Hc, Hb. cbn [rbind].
  rewrite (sub_ok oc c H0 H1). cbn [rbind]. rewrite (vsub_ok oi b Hl). cbn [rbind].
  unfold norm1_mat. rewrite shape1_tabulate.
  replace (Nat.eqb (shape1 oc) 0) with false by (symmetry; apply Nat.eqb_neq; lia).
  cbn [rbind]. eexists. split; [reflexivity|].
  set (D := tabulate (shape0 oc) (shape1 oc) (fun i j => get oc i j - get c i j)).
  assert (Hcols : sum_axis0 (map_array Rabs D)
                  = vtabulate (shape1 oc) (column_abs_sum oc c)).
  { unfold sum_axis0. rewrite shape0_map_array, shape1_map_array.
    unfold D at 1 2. rewrite shape0_tabulate, shape1_tabulate.
    apply vtabulate_ext. intros j Hj. unfold column_abs_sum.
    apply rsum_ext. intros i Hi.
    rewrite get_map_array by (unfold D; now rewrite ?shape0_tabulate, ?shape1_tabulate).
    unfold D. now rewrite get_tabulate. }
  rewrite Hcols. exists (max_list (vtabulate (shape1 oc) (column_abs_sum oc c))).
  split.
  - split.
    + intros j Hj. apply max_list_ge. apply in_vtabulate. now exists j.
    + apply in_vtabulate. apply max_list_in.
      * now apply vtabulate_nonempty.
      * intros x Hx. apply in_vtabulate in Hx as [j [_ ->]].
        apply rsum_nonneg. intros i. apply Rabs_pos.
  - f_equal. rewrite norm1_vec_vtabulate. reflexivity.
Qed.

(** *** The loop *)

Lemma predict_proba_ok (clf : DiscreteNB) (X : ndarray) (C F : nat) :
  fitted clf C F -> (0 < C)%nat -> shape1 X = F ->
  exists P : ndarray,
    predict_proba clf X = Ok P /\ shape0 P = shape0 X /\ shape1 P = C.
Proof.
  intros Hfit HC HX.
  destruct (joint_log_likelihood_ok X Hfit HX) as [jll [Hj [Hs0 Hs1]]].
  assert (HL := predict_log_proba_ok clf X Hj ltac:(lia)).
  unfold predict_proba. rewrite HL. cbn [rbind]. eexists.
  split; [reflexivity|]. split; np_shape.
Qed.

Lemma prior_of_ok (self : DiscreteNB) (Y : ndarray) (cp : option (list R)) :
  class_prior_fits (shape1 Y) cp ->
  exists prior : list R, prior_of self Y (shape1 Y) cp = Ok prior.
Proof.
  unfold class_prior_fits, prior_of. intros H.
  destruct cp as [[|p ps]|].
  - destruct (fit_prior self); eexists; reflexivity.
  - rewrite H, Nat.eqb_refl. eexists; reflexivity.
  - destruct (fit_prior self); eexists; reflexivity.
Qed.

(** Every pass with relabel_all enabled succeeds on a fitted classifier and
    follows the course described by [em_run]. *)
Lemma em_loop_runs (tolF : R) (cp : option (list R)) (X : ndarray) (C F : nat) :
  (0 < C)%nat -> (0 < F)%nat -> shape1 X = F -> class_prior_fits C cp ->
  forall (n : nat) (clf : DiscreteNB) (Y : ndarray) (Xu Yu : option ndarray)
         (oc : ndarray) (oi : list R),
    fitted clf C F -> shape0 oc = C -> shape1 oc = F -> length oi = C ->
    exists (clf' : DiscreteNB) (ex : em_exit),
      em_loop true tolF cp n clf X Y Xu Yu oc oi = (clf', Ok ex) /\
      em_run tolF cp X n clf oc oi clf' ex /\
      fitted clf' C F.
Proof.
  intros HC HF HX Hcp. induction n as [|n IH]; intros clf Y Xu Yu oc oi Hfit H0 H1 Hl.
  - exists clf, MaxIterExceeded. split; [reflexivity|]. split; [constructor | exact Hfit].
  - destruct (@predict_proba_ok clf X C F Hfit HC HX) as [P [HP [HP0 HP1]]].
    assert (Hcp' : class_prior_fits (shape1 P) cp) by now rewrite HP1.
    destruct (@prior_of_ok clf P cp Hcp') as [prior Hprior].
    assert (HM := @fit1ofK_ok clf X P P None cp prior eq_refl Hprior HP0).
    set (clf1 := set_feature_log_prob (set_class_log_prior clf prior)
                   (tabulate (shape1 P) (shape1 X)
                      (spec_feature_log_prob (alpha clf) (counted clf X) P))) in *.
    destruct (@fit1ofK_fitted _ _ _ _ _ _ _ HM) as [Hfit1 _].
    rewrite HP1, HX in Hfit1.
    destruct (@fitted_coef_intercept _ _ _ Hfit1) as [c [b [Hc [Hb [Hc0 [Hc1 Hbl]]]]]].
    destruct (@distance_spec oc c oi b clf1 Hc Hb) as [d [Hd Hspec]]; try congruence; try lia.
    cbn [em_loop]. unfold e_step. rewrite HP. cbn [rbind]. rewrite HM, Hd.
    destruct (Rlt_dec d tolF) as [Hlt|Hge].
    + exists clf1, Converged. split; [reflexivity|]. split; [|exact Hfit1].
      eapply em_run_converged; eassumption.
    + rewrite Hc, Hb.
      destruct (IH clf1 P Xu Yu c b Hfit1 Hc0 Hc1 Hbl) as [clf' [ex [Hloop [Hrun Hfit']]]].
      exists clf', ex. split; [exact Hloop|]. split; [|exact Hfit'].
      eapply em_run_continue; eassumption.
Qed.

Lemma take_rows_ok (A : ndarray) (idx : list nat) :
  Forall (fun i => (i < shape0 A)%nat) idx ->
  exists B : ndarray,
    take_rows A idx = Ok B /\ shape0 B = length idx /\ shape1 B = shape1 A.
Proof.
  intros H. unfold take_rows.
  replace (forallb (fun i => Nat.ltb i (shape0 A)) idx) with true.
  - eexists. split; [reflexivity|]. now split.
  - symmetry. apply forallb_forall. intros i Hi. apply Nat.ltb_lt.
    eapply List.Forall_forall in H; eassumption.
Qed.

Lemma where_ne_in_range (y : list Z) (v : Z) :
  Forall (fun i => (i < length y)%nat) (where_ne y v).
Proof.
  apply List.Forall_forall. intros i Hi. unfold where_ne in Hi.
  apply list_elem_of_In, list_elem_of_filter in Hi as [_ Hi].
  apply list_elem_of_In, List.in_seq in Hi. lia.
Qed.

Lemma where_eq_in_range (y : list Z) (v : Z) :
  Forall (fun i => (i < length y)%nat) (where_eq y v).
Proof.
  apply List.Forall_forall. intros i Hi. unfold where_eq in Hi.
  apply list_elem_of_In, list_elem_of_filter in Hi as [_ Hi].
  apply list_elem_of_In, List.in_seq in Hi. lia.
Qed.

Lemma insert_unique_nonempty (x : Z) (l : list Z) : insert_unique x l <> [].
Proof.
  destruct l as [|h t]; cbn [insert_unique]; [discriminate|].
  destruct (Z.ltb x h); [discriminate|]. destruct (Z.eqb x h); discriminate.
Qed.

Lemma label_1ofK_columns (clf : DiscreteNB) (y : list Z) :
  y <> [] -> (2 <= shape1 (snd (_label_1ofK clf (Labels1D y))))%nat.
Proof.
  intros Hy. unfold _label_1ofK, LabelBinarizer_fit_transform, LabelBinarizer_classes.
  destruct y as [|x y]; [contradiction|].
  assert (Hu : unique (x :: y) <> []) by apply insert_unique_nonempty.
  destruct (unique (x :: y)) as [|a [|b [|c l]]]; [contradiction| | |]; cbn; lia.
Qed.

(** C3, as the code has it: for a MultinomialNB with alpha > 0 whose class
    prior comes from the arguments (given with positive entries and one
    entry per class, or uniform with fit_prior disabled), when every row is
    relabelled (relabel_all) and X is non-negative with one row per label
    and at least one feature, fit succeeds; after the initial M-step on the
    labeled rows each iteration relabels, refits and computes the distance
    as the largest absolute column sum of (old coef - new coef), that is the
    maximum over the features of the sum over the classes, plus the sum of
    the absolute values of (old intercept - new intercept); it stops
    converged exactly when that distance is below tol * F, with F the number
    of features, and otherwise takes the new parameters as the snapshot and
    continues; when max_iterations passes are used up it stops with the last
    computed parameters and raises no error.  (With the learned prior a
    class without label mass, such as the marker -1 of the unlabeled
    samples, has the prior log(0); these runs are not covered.) *)
Theorem em_fit_convergence :
  forall (self : SemisupervisedNB.t) (clf : DiscreteNB) (X : ndarray)
         (y : list Z) (class_prior : option (list R)),
    estimator self = ObjDiscreteNB clf ->
    relabel_all self = true ->
    variant clf = Multinomial -> 0 < alpha clf ->
    (forall r i : nat, 0 <= get X r i) ->
    prior_from_arguments clf class_prior ->
    shape0 X = length y -> y <> [] -> (0 < shape1 X)%nat ->
    class_prior_fits (shape1 (snd (_label_1ofK clf (Labels1D y)))) class_prior ->
    exists (Xl Yl : ndarray) (clf0 clf' : DiscreteNB) (c0 : ndarray)
           (b0 : list R) (ex : em_exit),
      take_rows X (where_ne y (-1)) = Ok Xl /\
      take_rows (snd (_label_1ofK clf (Labels1D y))) (where_ne y (-1)) = Ok Yl /\
      _fit1ofK (fst (_label_1ofK clf (Labels1D y))) Xl Yl None class_prior
      = (clf0, Ok tt) /\
      coef_ clf0 = Ok c0 /\ intercept_ clf0 = Ok b0 /\
      fit self X y class_prior
      = (mk (ObjDiscreteNB clf') (n_iter self) true (tol self) (verbose self),
         Ok ex) /\
      em_run (tol self * INR (shape1 X)) class_prior X
        (Z.to_nat (n_iter self)) clf0 c0 b0 clf' ex.
Proof.
  intros self clf X y cp Hest Hrel _ _ _ _ Hrows Hy HF Hcp.
  destruct (label_1ofK_1D clf y) as [_ HY0].
  assert (HYC := @label_1ofK_columns clf y Hy).
  unfold fit. rewrite Hest, Hrel.
  destruct (_label_1ofK clf (Labels1D y)) as [clf1 Y]. cbn [fst snd] in *.
  destruct (@take_rows_ok X (where_eq y (-1))) as [Xu [HXu _]];
    [rewrite Hrows; apply where_eq_in_range|].
  destruct (@take_rows_ok Y (where_eq y (-1))) as [Yu [HYu _]];
    [rewrite HY0; apply where_eq_in_range|].
  destruct (@take_rows_ok X (where_ne y (-1))) as [Xl [HXl [HXl0 HXl1]]];
    [rewrite Hrows; apply where_ne_in_range|].
  destruct (@take_rows_ok Y (where_ne y (-1))) as [Yl [HYl [HYl0 HYl1]]];
    [rewrite HY0; apply where_ne_in_range|].
  rewrite HXu, HYu, HXl, HYl. cbn [rbind].
  assert (Hcp' : class_prior_fits (shape1 Yl) cp) by now rewrite HYl1.
  destruct (@prior_of_ok clf1 Yl cp Hcp') as [prior Hprior].
  assert (HM := @fit1ofK_ok clf1 Xl Yl Yl None cp prior eq_refl Hprior
                  ltac:(congruence)).
  set (clf0 := set_feature_log_prob (set_class_log_prior clf1 prior)
                 (tabulate (shape1 Yl) (shape1 Xl)
                    (spec_feature_log_prob (alpha clf1) (counted clf1 Xl) Yl))) in *.
  destruct (@fit1ofK_fitted _ _ _ _ _ _ _ HM) as [Hfit0 _].
  rewrite HYl1, HXl1 in Hfit0.
  destruct (@fitted_coef_intercept _ _ _ Hfit0) as [c0 [b0 [Hc [Hb [Hc0 [Hc1 Hbl]]]]]].
  rewrite HM, Hc, Hb.
  destruct (@em_loop_runs (tol self * INR (shape1 X)) cp X (shape1 Y) (shape1 X)
              ltac:(lia) HF eq_refl Hcp (Z.to_nat (n_iter self)) clf0 Y
              (Some Xu) (Some Yu) c0 b0 Hfit0 Hc0 Hc1 Hbl)
    as [clf' [ex [Hloop [Hrun _]]]].
  rewrite Hloop.
  exists Xl, Yl, clf0, clf', c0, b0, ex. repeat split; try assumption; reflexivity.
Qed.

Lemma em_fit_convergence_witness :
  estimator trainer_uniform_prior = ObjDiscreteNB uniform_multinomial /\
  relabel_all trainer_uniform_prior = true /\
  variant uniform_multinomial = Multinomial /\ 0 < alpha uniform_multinomial /\
  (forall r i : nat, 0 <= get three_samples r i) /\
  prior_from_arguments uniform_multinomial None /\
  shape0 three_samples = length three_labels /\
  three_labels <> [] /\ (0 < shape1 three_samples)%nat /\
  exists (clf' : DiscreteNB) (ex : em_exit),
    fit trainer_uniform_prior three_samples three_labels None
    = (mk (ObjDiscreteNB clf') 10 true (1 / 100000) false, Ok ex).
Proof.
  assert (Ha : 0 < alpha uniform_multinomial) by (cbn; lra).
  split; [reflexivity|]. split; [reflexivity|]. split; [reflexivity|].
  split; [exact Ha|]. split; [exact three_samples_nonneg|].
  split; [reflexivity|]. split; [reflexivity|].
  split; [discriminate|]. split; [cbn; lia|].
  destruct (@em_fit_convergence trainer_uniform_prior uniform_multinomial
              three_samples three_labels None eq_refl eq_refl eq_refl Ha
              three_samples_nonneg eq_refl eq_refl
              ltac:(discriminate) ltac:(cbn; lia) I)
    as [Xl [Yl [clf0 [clf' [c0 [b0 [ex [_ [_ [_ [_ [_ [Hfit _]]]]]]]]]]]]].
  exists clf', ex. exact Hfit.
Defined.

(** *** One iteration on two samples *)

Ltac ln_norm :=
  repeat match goal with
         | |- context [ln ?a] => progress ring_simplify a
         end.

Lemma run_c0_values :
  get run_c0 0 0 = ln 2 - ln 3 /\ get run_c0 0 1 = ln 1 - ln 3 /\
  get run_c0 1 0 = ln 1 - ln 3 /\ get run_c0 1 1 = ln 2 - ln 3.
Proof. repeat split; np_eval; ln_norm; reflexivity. Qed.

Lemma run_b0_values : run_b0 = [ln 1 - ln 2; ln 1 - ln 2].
Proof. np_eval. ln_norm. reflexivity. Qed.

Lemma run_jll_eq : _joint_log_likelihood run_clf0 one_feature_each = Ok run_jll.
Proof. reflexivity. Qed.

Lemma exp_neg_ln (a : R) : 0 < a -> exp (- ln a) = / a.
Proof. intros Ha. now rewrite exp_Ropp, exp_ln. Qed.

Lemma run_jll_values :
  get run_jll 0 0 = - ln 3 /\ get run_jll 0 1 = - ln 6 /\
  get run_jll 1 0 = - ln 6 /\ get run_jll 1 1 = - ln 3.
Proof.
  assert (H6 : ln 6 = ln 3 + ln 2)
    by (replace 6 with (3 * 2) by lra; apply ln_mult; lra).
  repeat split; np_eval; ln_norm; rewrite ln_1, ?H6; lra.
Qed.

Lemma run_P_eq : predict_proba run_clf0 one_feature_each = Ok run_P.
Proof.
  unfold predict_proba.
  rewrite (predict_log_proba_ok run_clf0 one_feature_each run_jll_eq) by (cbn; lia).
  reflexivity.
Qed.

Lemma softmax_entry (row : list R) (x : R) :
  row <> [] -> exp (x - logsumexp_row row) = exp x * / vsum (map exp row).
Proof.
  intros Hrow. rewrite (logsumexp_row_plain Hrow).
  assert (HS : 0 < vsum (map exp row)) by (apply vsum_map_pos; [exact Hrow | apply exp_pos]).
  unfold Rminus. now rewrite exp_plus, exp_Ropp, exp_ln.
Qed.

Lemma run_P_values :
  get run_P 0 0 = 2 / 3 /\ get run_P 0 1 = 1 / 3 /\
  get run_P 1 0 = 1 / 3 /\ get run_P 1 1 = 2 / 3.
Proof.
  destruct run_jll_values as [J00 [J01 [J10 J11]]].
  assert (H3 : exp (- ln 3) = / 3) by (apply exp_neg_ln; lra).
  assert (H6 : exp (- ln 6) = / 6) by (apply exp_neg_ln; lra).
  assert (Hrow : forall i, (i < 2)%nat ->
            vtabulate 2 (get run_jll i) = [get run_jll i 0; get run_jll i 1]) by reflexivity.
  assert (Hget : forall i j, (i < 2)%nat -> (j < 2)%nat ->
            get run_P i j = exp (get run_jll i j) * / vsum (map exp [get run_jll i 0; get run_jll i 1])).
  { intros i j Hi Hj. unfold run_P, run_L. rewrite get_map_array, get_tabulate by (cbn; lia).
    rewrite softmax_entry by discriminate. reflexivity. }
  repeat split; rewrite Hget by lia; cbn [map]; rewrite !vsum_cons, vsum_nil;
    rewrite ?J00, ?J01, ?J10, ?J11, ?H3, ?H6; field.
Qed.

Lemma run_M1_eq : _fit1ofK run_clf0 one_feature_each run_P None None = (run_clf1, Ok tt).
Proof.
  apply (@fit1ofK_ok run_clf0 one_feature_each run_P run_P None None run_b1); reflexivity.
Qed.

Lemma run_X_values :
  get one_feature_each 0 0 = 1 /\ get one_feature_each 0 1 = 0 /\ get one_feature_each 1 0 = 0 /\ get one_feature_each 1 1 = 1.
Proof. repeat split; reflexivity. Qed.

Lemma run_c1_values :
  get run_c1 0 0 = ln (5 / 3) - ln 3 /\ get run_c1 0 1 = ln (4 / 3) - ln 3 /\
  get run_c1 1 0 = ln (4 / 3) - ln 3 /\ get run_c1 1 1 = ln (5 / 3) - ln 3.
Proof.
  destruct run_P_values as [P00 [P01 [P10 P11]]].
  destruct run_X_values as [X00 [X01 [X10 X11]]].
  repeat split; unfold run_c1; rewrite get_tabulate by lia;
    unfold spec_feature_log_prob, spec_N_c, spec_N_ci;
    change (shape0 one_feature_each) with 2%nat; change (shape1 one_feature_each) with 2%nat;
    unfold rsum, vtabulate; cbn [seq map fold_right INR];
    rewrite ?P00, ?P01, ?P10, ?P11, ?X00, ?X01, ?X10, ?X11;
    f_equal; f_equal; field.
Qed.

Lemma run_b1_values : run_b1 = [ln 1 - ln 2; ln 1 - ln 2].
Proof.
  destruct run_P_values as [P00 [P01 [P10 P11]]].
  unfold run_b1, sum_axis0. change (shape0 run_P) with 2%nat. change (shape1 run_P) with 2%nat.
  unfold rsum, vtabulate. cbn [seq map fold_right]. rewrite !vsum_cons, vsum_nil.
  rewrite ?P00, ?P01, ?P10, ?P11.
  repeat f_equal; field.
Qed.

Lemma ln_quot (a b : R) : 0 < a -> 0 < b -> ln (a / b) = ln a - ln b.
Proof.
  intros Ha Hb. unfold Rdiv. rewrite ln_mult; [|exact Ha|now apply Rinv_0_lt_compat].
  rewrite ln_Rinv by exact Hb. lra.
Qed.

Lemma run_column_sums :
  column_abs_sum run_c0 run_c1 0 = ln (8 / 5) /\ column_abs_sum run_c0 run_c1 1 = ln (8 / 5).
Proof.
  destruct run_c0_values as [A00 [A01 [A10 A11]]].
  destruct run_c1_values as [B00 [B01 [B10 B11]]].
  assert (H53 : ln (5 / 3) = ln 5 - ln 3) by (apply ln_quot; lra).
  assert (H43 : ln (4 / 3) = ln 4 - ln 3) by (apply ln_quot; lra).
  assert (H85 : ln (8 / 5) = ln 8 - ln 5) by (apply ln_quot; lra).
  assert (H4 : ln 4 = ln 2 + ln 2)
    by (replace 4 with (2 * 2) by lra; apply ln_mult; lra).
  assert (H8 : ln 8 = ln 4 + ln 2)
    by (replace 8 with (4 * 2) by lra; apply ln_mult; lra).
  assert (L23 : ln 2 < ln 3) by (apply ln_increasing; lra).
  assert (L35 : ln 3 < ln 5) by (apply ln_increasing; lra).
  assert (L56 : ln 5 < ln 3 + ln 2).
  { rewrite <- ln_mult by lra. apply ln_increasing; lra. }
  assert (L34 : ln 3 < ln 4) by (apply ln_increasing; lra).
  split; unfold column_abs_sum; change (shape0 run_c0) with 2%nat;
    unfold rsum, vtabulate; cbn [seq map fold_right];
    rewrite ?A00, ?A01, ?A10, ?A11, ?B00, ?B01, ?B10, ?B11, ln_1, H53, H43, H85, H8, H4.
  - rewrite (Rabs_right (ln 2 - ln 3 - (ln 5 - ln 3 - ln 3))) by lra.
    rewrite (Rabs_left (0 - ln 3 - (ln 2 + ln 2 - ln 3 - ln 3))) by lra. lra.
  - rewrite (Rabs_left (0 - ln 3 - (ln 2 + ln 2 - ln 3 - ln 3))) by lra.
    rewrite (Rabs_right (ln 2 - ln 3 - (ln 5 - ln 3 - ln 3))) by lra. lra.
Qed.

Lemma run_intercepts_equal : intercept_abs_sum run_b0 run_b1 = 0.
Proof.
  rewrite run_b0_values, run_b1_values. unfold intercept_abs_sum, rsum, vtabulate.
  cbn [length seq map fold_right nth].
  replace (ln 1 - ln 2 - (ln 1 - ln 2)) with 0 by lra. rewrite Rabs_R0. lra.
Qed.

Lemma kappa_pos : 0 < ln (8 / 5).
Proof. rewrite <- ln_1. apply ln_increasing; lra. Qed.

Lemma run_d_value :
  exists d, distance run_c0 run_b0 run_clf1 = Ok d /\ d = ln (8 / 5).
Proof.
  destruct (@distance_spec run_c0 run_c1 run_b0 run_b1 run_clf1 eq_refl eq_refl eq_refl eq_refl eq_refl)
    as [d [Hd [m [[_ [j [Hj Hm]]] Heq]]]]; [cbn; lia|].
  exists d. split; [exact Hd|]. rewrite Heq, run_intercepts_equal, Hm.
  destruct run_column_sums as [K0 K1].
  change (shape1 run_c0) with 2%nat in Hj.
  destruct j as [|[|j]]; [rewrite K0 | rewrite K1 | lia]; lra.
Qed.

Lemma run_entrywise_value : entrywise_distance run_c0 run_b0 run_c1 run_b1 = 2 * ln (8 / 5).
Proof.
  destruct run_column_sums as [K0 K1].
  unfold entrywise_distance. rewrite run_intercepts_equal.
  change (shape1 run_c0) with 2%nat. unfold rsum, vtabulate. cbn [seq map fold_right].
  rewrite K0, K1. lra.
Qed.

Lemma run_fit_converges_at_once :
  fit trainer_between one_feature_each two_labels None
  = (mk (ObjDiscreteNB run_clf1) 10 true (3 / 4 * ln (8 / 5)) false, Ok Converged).
Proof.
  destruct run_d_value as [d [Hd Hv]].
  assert (Htol : d < 3 / 4 * ln (8 / 5) * INR 2).
  { rewrite Hv. cbn [INR]. pose proof kappa_pos. lra. }
  unfold fit. cbn [estimator trainer_between relabel_all n_iter tol verbose].
  change (_label_1ofK unfitted_multinomial (Labels1D two_labels))
    with (run_s1, tabulate 2 2 (fun i j => get run_Y i j)).
  cbv iota beta.
  change (take_rows one_feature_each (where_eq two_labels (-1))) with (Ok (mkarray 0 2 [])).
  change (take_rows (tabulate 2 2 (fun i j => get run_Y i j)) (where_eq two_labels (-1)))
    with (Ok (mkarray 0 2 [])).
  change (take_rows one_feature_each (where_ne two_labels (-1))) with (Ok one_feature_each).
  change (take_rows (tabulate 2 2 (fun i j => get run_Y i j)) (where_ne two_labels (-1)))
    with (Ok run_Y).
  cbv beta iota delta [rbind].
  rewrite (@fit1ofK_ok run_s1 one_feature_each run_Y run_Y None None run_b0 eq_refl eq_refl eq_refl).
  change (coef_ (set_feature_log_prob (set_class_log_prior run_s1 run_b0)
            (tabulate (shape1 run_Y) (shape1 one_feature_each)
               (spec_feature_log_prob (alpha run_s1) (counted run_s1 one_feature_each) run_Y))))
    with (Ok run_c0).
  change (intercept_ (set_feature_log_prob (set_class_log_prior run_s1 run_b0)
            (tabulate (shape1 run_Y) (shape1 one_feature_each)
               (spec_feature_log_prob (alpha run_s1) (counted run_s1 one_feature_each) run_Y))))
    with (Ok run_b0).
  cbv beta iota.
  change (set_feature_log_prob (set_class_log_prior run_s1 run_b0)
            (tabulate (shape1 run_Y) (shape1 one_feature_each)
               (spec_feature_log_prob (alpha run_s1) (counted run_s1 one_feature_each) run_Y)))
    with run_clf0.
  change (Z.to_nat 10) with 10%nat. cbn [em_loop]. unfold e_step.
  rewrite run_P_eq. cbn [rbind]. rewrite run_M1_eq, Hd.
  change (shape1 one_feature_each) with 2%nat.
  destruct (Rlt_dec d (3 / 4 * ln (8 / 5) * INR 2)) as [_|Hn]; [reflexivity | contradiction].
Qed.

(** C3 as stated fails.  On two samples with one feature each, labelled 0
    and 1, the first iteration moves the four coefficients by log(6/5) and
    log(4/3) in each feature column and leaves the intercepts alone: the
    distance the code computes is log(8/5), the largest column sum, while
    the sum over all entries is 2 log(8/5); with tol * F = 1.5 log(8/5) the
    code stops converged after this iteration although the entrywise
    distance is not below tol * F. *)
Lemma first_distance_is_a_column_sum :
  _fit1ofK run_s1 one_feature_each run_Y None None = (run_clf0, Ok tt) /\
  coef_ run_clf0 = Ok run_c0 /\ intercept_ run_clf0 = Ok run_b0 /\
  predict_proba run_clf0 one_feature_each = Ok run_P /\
  _fit1ofK run_clf0 one_feature_each run_P None None = (run_clf1, Ok tt) /\
  coef_ run_clf1 = Ok run_c1 /\ intercept_ run_clf1 = Ok run_b1 /\
  distance run_c0 run_b0 run_clf1 = Ok (ln (8 / 5)) /\
  entrywise_distance run_c0 run_b0 run_c1 run_b1 = 2 * ln (8 / 5) /\
  ln (8 / 5) <> entrywise_distance run_c0 run_b0 run_c1 run_b1 /\
  fit trainer_between one_feature_each two_labels None
  = (mk (ObjDiscreteNB run_clf1) 10 true (3 / 4 * ln (8 / 5)) false, Ok Converged) /\
  ~ entrywise_distance run_c0 run_b0 run_c1 run_b1
    < tol trainer_between * INR (shape1 one_feature_each).
Proof.
  pose proof kappa_pos as Hk. destruct run_d_value as [d [Hd ->]].
  split; [apply (@fit1ofK_ok run_s1 one_feature_each run_Y run_Y None None run_b0);
          reflexivity|].
  split; [reflexivity|]. split; [reflexivity|]. split; [exact run_P_eq|].
  split; [exact run_M1_eq|]. split; [reflexivity|]. split; [reflexivity|].
  split; [exact Hd|]. split; [exact run_entrywise_value|].
  rewrite run_entrywise_value.
  split; [lra|]. split; [exact run_fit_converges_at_once|].
  cbn [tol trainer_between shape1 one_feature_each INR]. lra.
Qed.

End EMFacts.

(** ** Further properties of the classifiers *)

Module ClassifierProperties.
Import Np NpFacts NaiveBayes NaiveBayesFacts.
Open Scope R_scope.
Unset Implicit Arguments.

Lemma rsum_plus (n : nat) (f g : nat -> R) :
  rsum n (fun i => f i + g i) = rsum n f + rsum n g.
Proof.
  induction n as [|n IH]; [unfold rsum; cbn; lra|].
  rewrite !rsum_S, IH. lra.
Qed.

Lemma rsum_const (n : nat) (k : R) : rsum n (fun _ => k) = INR n * k.
Proof.
  induction n as [|n IH]; [unfold rsum; cbn; lra|].
  rewrite rsum_S, IH, S_INR. lra.
Qed.

Lemma rsum_scale (n : nat) (f : nat -> R) (k : R) :
  rsum n (fun i => f i * k) = rsum n f * k.
Proof.
  induction n as [|n IH]; [unfold rsum; cbn; lra|].
  rewrite !rsum_S, IH. lra.
Qed.

Lemma rsum_nonneg_all (n : nat) (f : nat -> R) :
  (forall i, 0 <= f i) -> 0 <= rsum n f.
Proof.
  intros H. induction n as [|n IH]; [unfold rsum; cbn; lra|].
  rewrite rsum_S. specialize (H n). lra.
Qed.

Lemma rsum_le (n : nat) (f : nat -> R) (i : nat) :
  (forall j, 0 <= f j) -> (i < n)%nat -> f i <= rsum n f.
Proof.
  intros Hf. induction n as [|n IH]; intros Hi; [lia|].
  rewrite rsum_S. destruct (Nat.eq_dec i n) as [->|Hne].
  - pose proof (rsum_nonneg_all n f Hf). lra.
  - specialize (IH ltac:(lia)). specialize (Hf n). lra.
Qed.

Lemma get_out_of_rows (n m : nat) (f : nat -> nat -> R) (i j : nat) :
  (n <= i)%nat -> get (tabulate n m f) i j = 0.
Proof.
  intros Hi. unfold get, tabulate; cbn [data].
  rewrite (nth_overflow _ []) by (rewrite length_map, length_seq; lia).
  now destruct j.
Qed.

Lemma get_out_of_columns (n m : nat) (f : nat -> nat -> R) (i j : nat) :
  (m <= j)%nat -> get (tabulate n m f) i j = 0.
Proof.
  intros Hj. destruct (Nat.lt_ge_cases i n) as [Hi|Hi];
    [|now apply get_out_of_rows].
  unfold get, tabulate; cbn [data].
  rewrite (nth_indep _ [] (map (f 0%nat) (seq 0 m)))
    by (rewrite length_map, length_seq; lia).
  rewrite (map_nth (fun i => map (f i) (seq 0 m)) (seq 0 n) 0%nat i).
  apply nth_overflow. rewrite length_map, length_seq. lia.
Qed.

Lemma get_tabulate_nonneg (n m : nat) (f : nat -> nat -> R) :
  (forall i j, 0 <= f i j) -> forall i j, 0 <= get (tabulate n m f) i j.
Proof.
  intros Hf i j. destruct (Nat.lt_ge_cases i n) as [Hi|Hi].
  - destruct (Nat.lt_ge_cases j m) as [Hj|Hj].
    + rewrite get_tabulate by assumption. apply Hf.
    + rewrite get_out_of_columns by assumption. lra.
  - rewrite get_out_of_rows by assumption. lra.
Qed.

Lemma counted_nonneg (self : DiscreteNB) (X : ndarray) :
  (forall r i, 0 <= get X r i) -> forall r i, 0 <= get (counted self X) r i.
Proof.
  intros HX. unfold counted. destruct (variant self) as [|[t|]]; try exact HX.
  unfold binarize, map_array. apply get_tabulate_nonneg. intros i j.
  destruct (Rlt_dec t (get X i j)); lra.
Qed.

Section Estimates.
Variables (a : R) (X Y : ndarray).
Hypothesis Ha : 0 < a.
Hypothesis HF : (0 < shape1 X)%nat.
Hypothesis HX : forall r i, 0 <= get X r i.
Hypothesis HY : forall r c, 0 <= get Y r c.

Lemma spec_N_ci_nonneg (c i : nat) : 0 <= spec_N_ci X Y c i.
Proof.
  unfold spec_N_ci. apply rsum_nonneg_all. intros r.
  apply Rmult_le_pos; [apply HY | apply HX].
Qed.

Lemma spec_N_c_nonneg (c : nat) : 0 <= spec_N_c X Y c.
Proof. unfold spec_N_c. apply rsum_nonneg_all. intros i. apply spec_N_ci_nonneg. Qed.

Lemma denominator_pos (c : nat) : 0 < spec_N_c X Y c + a * INR (shape1 X).
Proof.
  pose proof (spec_N_c_nonneg c).
  assert (0 < INR (shape1 X)) by (apply lt_0_INR; exact HF).
  assert (0 < a * INR (shape1 X)) by now apply Rmult_lt_0_compat.
  lra.
Qed.

(** The estimate is the smoothed relative frequency. *)
Lemma exp_feature_log_prob (c i : nat) :
  exp (spec_feature_log_prob a X Y c i)
  = (spec_N_ci X Y c i + a) * / (spec_N_c X Y c + a * INR (shape1 X)).
Proof.
  unfold spec_feature_log_prob.
  pose proof (spec_N_ci_nonneg c i). pose proof (denominator_pos c).
  unfold Rminus. rewrite exp_plus, exp_Ropp, !exp_ln by lra. reflexivity.
Qed.

Lemma estimates_sum_to_one (c : nat) :
  rsum (shape1 X) (fun i => exp (spec_feature_log_prob a X Y c i)) = 1.
Proof.
  rewrite (@rsum_ext (shape1 X) _
             (fun i => (spec_N_ci X Y c i + a)
                       * / (spec_N_c X Y c + a * INR (shape1 X))))
    by (intros i _; apply exp_feature_log_prob).
  rewrite rsum_scale, rsum_plus, rsum_const.
  pose proof (denominator_pos c) as H. unfold spec_N_c in *.
  change (rsum (shape1 X) (fun i => spec_N_ci X Y c i))
    with (rsum (shape1 X) (spec_N_ci X Y c)) in *.
  field. lra.
Qed.

Lemma estimate_in_unit_interval (c i : nat) :
  (i < shape1 X)%nat ->
  0 < exp (spec_feature_log_prob a X Y c i) <= 1.
Proof.
  intros Hi. split; [apply exp_pos|].
  rewrite <- (estimates_sum_to_one c).
  apply (rsum_le (shape1 X) (fun i => exp (spec_feature_log_prob a X Y c i)) i);
    [intros j; left; apply exp_pos | exact Hi].
Qed.

End Estimates.

Lemma fit1ofK_feature_log_prob (self self' : DiscreteNB) (X Y Yw : ndarray)
    (sw cp : option (list R)) :
  _fit1ofK self X Y sw cp = (self', Ok tt) -> weighted Y sw = Ok Yw ->
  feature_log_prob_ self'
  = Some (tabulate (shape1 Y) (shape1 X)
            (spec_feature_log_prob (alpha self) (counted self X) Yw)).
Proof.
  intros H HY. apply fit1ofK_inv in H as [Yw' [prior [HY' [_ [_ ->]]]]].
  rewrite HY in HY'. injection HY' as <-.
  destruct (@shape_weighted Y Yw sw HY) as [_ ->]. reflexivity.
Qed.

(** X1: after a successful _fit1ofK of a MultinomialNB with alpha > 0 on
    non-negative features and non-negative (hard, soft or weighted) labels,
    every class row of exp(feature_log_prob_) sums to 1 over the features. *)
Theorem multinomial_estimates_sum_to_one :
  forall (self self' : DiscreteNB) (X Y Yw : ndarray)
         (sample_weight class_prior : option (list R)),
    _fit1ofK self X Y sample_weight class_prior = (self', Ok tt) ->
    weighted Y sample_weight = Ok Yw ->
    variant self = Multinomial ->
    0 < alpha self -> (0 < shape1 X)%nat ->
    (forall r i, 0 <= get X r i) -> (forall r c, 0 <= get Yw r c) ->
    exists flp : ndarray,
      feature_log_prob_ self' = Some flp /\
      shape0 flp = shape1 Y /\ shape1 flp = shape1 X /\
      forall c : nat, (c < shape1 Y)%nat ->
        rsum (shape1 X) (fun i => exp (get flp c i)) = 1.
Proof.
  intros self self' X Y Yw sw cp Hfit HYw Hv Ha HF HX HY.
  rewrite (fit1ofK_feature_log_prob self self' X Y Yw sw cp Hfit HYw).
  eexists. split; [reflexivity|]. split; [reflexivity|]. split; [reflexivity|].
  intros c Hc.
  assert (Hcount : counted self X = X) by (unfold counted; now rewrite Hv).
  rewrite Hcount.
  rewrite (@rsum_ext (shape1 X) _
             (fun i => exp (spec_feature_log_prob (alpha self) X Yw c i)))
    by (intros i Hi; now rewrite get_tabulate).
  now apply estimates_sum_to_one.
Qed.

(** X2: after a successful _fit1ofK of either variant with alpha > 0 on
    non-negative features and labels, every entry of exp(feature_log_prob_)
    is a probability: positive and at most 1. *)
Theorem estimates_are_probabilities :
  forall (self self' : DiscreteNB) (X Y Yw : ndarray)
         (sample_weight class_prior : option (list R)),
    _fit1ofK self X Y sample_weight class_prior = (self', Ok tt) ->
    weighted Y sample_weight = Ok Yw ->
    0 < alpha self -> (0 < shape1 X)%nat ->
    (forall r i, 0 <= get X r i) -> (forall r c, 0 <= get Yw r c) ->
    exists flp : ndarray,
      feature_log_prob_ self' = Some flp /\
      forall c i : nat, (c < shape1 Y)%nat -> (i < shape1 X)%nat ->
        0 < exp (get flp c i) <= 1.
Proof.
  intros self self' X Y Yw sw cp Hfit HYw Ha HF HX HY.
  rewrite (fit1ofK_feature_log_prob self self' X Y Yw sw cp Hfit HYw).
  eexists. split; [reflexivity|]. intros c i Hc Hi.
  rewrite get_tabulate by assumption.
  destruct (shape_counted self X) as [_ Hs1].
  apply estimate_in_unit_interval; try assumption.
  - now rewrite Hs1.
  - now apply counted_nonneg.
  - now rewrite Hs1.
Qed.

Lemma three_onehot_nonneg : forall r c, 0 <= get three_onehot r c.
Proof. apply get_nonneg_of_data. cbn. repeat constructor; lra. Qed.

Lemma fit1ofK_three_samples :
  exists self' : DiscreteNB,
    _fit1ofK unfitted_multinomial three_samples three_onehot None None
    = (self', Ok tt).
Proof.
  eexists.
  apply (@fit1ofK_ok unfitted_multinomial three_samples three_onehot three_onehot
           None None
           (map (fun f => ln f - ln (vsum (sum_axis0 three_onehot)))
              (sum_axis0 three_onehot)));
    reflexivity.
Qed.

Lemma multinomial_estimates_sum_to_one_witness :
  exists (self' : DiscreteNB) (flp : ndarray),
    _fit1ofK unfitted_multinomial three_samples three_onehot None None
    = (self', Ok tt) /\
    weighted three_onehot None = Ok three_onehot /\
    variant unfitted_multinomial = Multinomial /\
    0 < alpha unfitted_multinomial /\ (0 < shape1 three_samples)%nat /\
    feature_log_prob_ self' = Some flp /\
    rsum 2 (fun i => exp (get flp 0 i)) = 1.
Proof.
  destruct fit1ofK_three_samples as [self' Hfit].
  assert (Ha : 0 < alpha unfitted_multinomial) by (cbn; lra).
  assert (HF : (0 < shape1 three_samples)%nat) by (cbn; lia).
  destruct (multinomial_estimates_sum_to_one unfitted_multinomial self'
              three_samples three_onehot three_onehot None None Hfit eq_refl
              eq_refl Ha HF three_samples_nonneg three_onehot_nonneg)
    as [flp [Hflp [_ [_ Hsum]]]].
  exists self', flp. repeat split; try assumption.
  apply (Hsum 0%nat). cbn. lia.
Defined.

Lemma estimates_are_probabilities_witness :
  exists (self' : DiscreteNB) (flp : ndarray),
    _fit1ofK unfitted_multinomial three_samples three_onehot None None
    = (self', Ok tt) /\
    weighted three_onehot None = Ok three_onehot /\
    0 < alpha unfitted_multinomial /\ (0 < shape1 three_samples)%nat /\
    feature_log_prob_ self' = Some flp /\
    0 < exp (get flp 1 0) <= 1.
Proof.
  destruct fit1ofK_three_samples as [self' Hfit].
  assert (Ha : 0 < alpha unfitted_multinomial) by (cbn; lra).
  assert (HF : (0 < shape1 three_samples)%nat) by (cbn; lia).
  destruct (estimates_are_probabilities unfitted_multinomial self'
              three_samples three_onehot three_onehot None None Hfit eq_refl
              Ha HF three_samples_nonneg three_onehot_nonneg)
    as [flp [Hflp Hp]].
  exists self', flp. repeat split; try assumption; apply (Hp 1%nat 0%nat); cbn; lia.
Defined.

(** *** Success and failure of fit *)

Lemma fit_unfold (self : DiscreteNB) (X : ndarray) (y : list Z)
    (sw cp : option (list R)) :
  fit self X (Labels1D y) sw cp
  = if negb (Nat.eqb (shape0 X) (length y))
    then (set_classes self (unique y), Raise ValueError)
    else _fit1ofK (set_classes self (unique y)) X
           (snd (_label_1ofK self (Labels1D y))) sw cp.
Proof.
  unfold fit. destruct (label_1ofK_1D self y) as [H1 H2].
  destruct (_label_1ofK self (Labels1D y)) as [s1 Y]. cbn [fst snd] in *.
  now rewrite H1, H2.
Qed.

(** X3: without sample weights and class prior, fit on a label vector
    succeeds exactly when X has one row per label. *)
Theorem fit_succeeds_iff_rows_match :
  forall (self : DiscreteNB) (X : ndarray) (y : list Z),
    (exists self' : DiscreteNB,
        fit self X (Labels1D y) None None = (self', Ok tt))
    <-> shape0 X = length y.
Proof.
  intros self X y. rewrite fit_unfold. split.
  - intros [self' H]. destruct (Nat.eqb (shape0 X) (length y)) eqn:E;
      [now apply Nat.eqb_eq | discriminate H].
  - intros H. rewrite H, Nat.eqb_refl. cbn [negb].
    set (Y := snd (_label_1ofK self (Labels1D y))).
    assert (HY0 : shape0 Y = shape0 X)
      by (rewrite H; apply (proj2 (label_1ofK_1D self y))).
    destruct (EMFacts.prior_of_ok (set_classes self (unique y)) Y None I)
      as [prior Hp].
    eexists.
    apply (@fit1ofK_ok (set_classes self (unique y)) X Y Y None None prior
             eq_refl Hp HY0).
Qed.

Lemma scale_rows_ones (Y : ndarray) :
  scale_rows Y (repeat 1 (shape0 Y))
  = Ok (tabulate (shape0 Y) (shape1 Y)
          (fun i j => get Y i j * nth i (repeat 1 (shape0 Y)) 0)).
Proof. unfold scale_rows. now rewrite repeat_length, Nat.eqb_refl. Qed.

Lemma nth_repeat_one (n i : nat) : (i < n)%nat -> nth i (repeat 1 n) 0 = 1.
Proof.
  revert i. induction n as [|n IH]; intros i Hi; [lia|].
  destruct i as [|i]; cbn; [reflexivity | apply IH; lia].
Qed.

Lemma spec_feature_log_prob_ext (a : R) (X Y Y' : ndarray) :
  (forall r c, (r < shape0 X)%nat -> get Y r c = get Y' r c) ->
  forall c i, spec_feature_log_prob a X Y c i = spec_feature_log_prob a X Y' c i.
Proof.
  intros H c i. unfold spec_feature_log_prob, spec_N_c, spec_N_ci.
  assert (HN : forall j, rsum (shape0 X) (fun r => get Y r c * get X r j)
                         = rsum (shape0 X) (fun r => get Y' r c * get X r j)).
  { intros j. apply rsum_ext. intros r Hr. now rewrite H. }
  rewrite HN. f_equal. f_equal. f_equal. apply rsum_ext. intros j _. apply HN.
Qed.

Lemma sum_axis0_ext (Y Y' : ndarray) :
  shape0 Y = shape0 Y' -> shape1 Y = shape1 Y' ->
  (forall r c, (r < shape0 Y)%nat -> (c < shape1 Y)%nat -> get Y r c = get Y' r c) ->
  sum_axis0 Y = sum_axis0 Y'.
Proof.
  intros H0 H1 H. unfold sum_axis0. rewrite <- H0, <- H1.
  apply vtabulate_ext. intros c Hc. apply rsum_ext. intros r Hr. now apply H.
Qed.

(** X4: sample weights that are all 1 change nothing: fit with one unit
    weight per label returns exactly what fit without weights returns, the
    fitted classifier or the error. *)
Theorem unit_weights_change_nothing :
  forall (self : DiscreteNB) (X : ndarray) (y : list Z)
         (class_prior : option (list R)),
    fit self X (Labels1D y) (Some (repeat 1 (length y))) class_prior
    = fit self X (Labels1D y) None class_prior.
Proof.
  intros self X y cp. rewrite !fit_unfold.
  destruct (Nat.eqb (shape0 X) (length y)) eqn:E; cbn [negb]; [|reflexivity].
  apply Nat.eqb_eq in E.
  set (s1 := set_classes self (unique y)).
  set (Y := snd (_label_1ofK self (Labels1D y))).
  assert (HY0 : shape0 Y = length y) by apply (proj2 (label_1ofK_1D self y)).
  set (Yw := tabulate (shape0 Y) (shape1 Y)
               (fun i j => get Y i j * nth i (repeat 1 (shape0 Y)) 0)).
  assert (Hget : forall r c, (r < shape0 Y)%nat -> (c < shape1 Y)%nat ->
                   get Yw r c = get Y r c).
  { intros r c Hr Hc. unfold Yw. rewrite get_tabulate by assumption.
    rewrite nth_repeat_one by assumption. lra. }
  assert (Hw : weighted Y (Some (repeat 1 (length y))) = Ok Yw)
    by (cbn [weighted]; rewrite <- HY0; apply scale_rows_ones).
  assert (Hsum : sum_axis0 Yw = sum_axis0 Y)
    by (apply sum_axis0_ext; [reflexivity | reflexivity | exact Hget]).
  assert (Hprior : prior_of s1 Yw (shape1 Y) cp = prior_of s1 Y (shape1 Y) cp).
  { unfold prior_of. now rewrite Hsum. }
  destruct (prior_of s1 Y (shape1 Y) cp) as [prior|e] eqn:Hp.
  - rewrite (@fit1ofK_ok s1 X Y Yw (Some (repeat 1 (length y))) cp prior Hw Hprior
               ltac:(unfold Yw; rewrite shape0_tabulate; congruence)).
    rewrite (@fit1ofK_ok s1 X Y Y None cp prior eq_refl Hp ltac:(congruence)).
    f_equal. f_equal. unfold Yw at 1. rewrite shape1_tabulate.
    apply tabulate_ext. intros c i Hc Hi.
    assert (Hrows : shape0 (counted s1 X) = shape0 Y)
      by (rewrite (proj1 (shape_counted s1 X)); congruence).
    unfold spec_feature_log_prob, spec_N_c, spec_N_ci. rewrite Hrows.
    assert (HN : forall j,
              rsum (shape0 Y) (fun r => get Yw r c * get (counted s1 X) r j)
              = rsum (shape0 Y) (fun r => get Y r c * get (counted s1 X) r j)).
    { intros j. apply rsum_ext. intros r Hr. now rewrite Hget. }
    rewrite HN. f_equal. f_equal. f_equal. apply rsum_ext. intros j _. apply HN.
  - unfold _fit1ofK. fold (weighted Y (Some (repeat 1 (length y)))).
    rewrite Hw. fold (weighted Y None). cbn [weighted].
    fold (prior_of s1 Yw (shape1 Y) cp). fold (prior_of s1 Y (shape1 Y) cp).
    now rewrite Hprior, Hp.
Qed.

Lemma label_matrix_independent (self other : DiscreteNB) (y : labels) :
  snd (_label_1ofK self y) = snd (_label_1ofK other y).
Proof.
  destruct y as [y|Y]; cbn; [|reflexivity].
  now destruct (Nat.eqb (shape1 (LabelBinarizer_fit_transform y)) 1).
Qed.

(** X5: fit is a full refit: what it returns depends on the variant, alpha
    and fit_prior of the classifier and on its arguments, not on parameters
    or classes fitted before.  Two classifiers with the same settings end up
    identical after the same successful fit. *)
Theorem fit_forgets_previous_state :
  forall (self other fitted_self : DiscreteNB) (X : ndarray) (y : list Z)
         (sample_weight class_prior : option (list R)),
    variant self = variant other ->
    alpha self = alpha other ->
    fit_prior self = fit_prior other ->
    fit self X (Labels1D y) sample_weight class_prior = (fitted_self, Ok tt) ->
    fit other X (Labels1D y) sample_weight class_prior = (fitted_self, Ok tt).
Proof.
  intros self other s X y sw cp Hv Ha Hf. rewrite !fit_unfold.
  destruct (Nat.eqb (shape0 X) (length y)); cbn [negb]; [|discriminate].
  rewrite (label_matrix_independent other self (Labels1D y)).
  set (Y := snd (_label_1ofK self (Labels1D y))).
  intros H. apply fit1ofK_inv in H as [Yw [prior [HY [Hp [Hs ->]]]]].
  assert (Hp' : prior_of (set_classes other (unique y)) Yw (shape1 Y) cp = Ok prior).
  { revert Hp. unfold prior_of. cbn [fit_prior set_classes]. now rewrite Hf. }
  rewrite (@fit1ofK_ok (set_classes other (unique y)) X Y Yw sw cp prior HY Hp' Hs).
  f_equal. unfold counted, set_feature_log_prob, set_class_log_prior, set_classes.
  cbn [variant alpha fit_prior _classes class_log_prior_ feature_log_prob_].
  now rewrite Hv, Ha, Hf.
Qed.

Lemma fit_forgets_previous_state_witness :
  exists (refitted : DiscreteNB),
    variant unfitted_multinomial = variant refitted /\
    alpha unfitted_multinomial = alpha refitted /\
    fit_prior unfitted_multinomial = fit_prior refitted /\
    fit unfitted_multinomial three_samples (Labels1D [0; 1; 1]%Z) None None
    = (refitted, Ok tt) /\
    fit refitted three_samples (Labels1D [0; 1; 1]%Z) None None
    = (refitted, Ok tt).
Proof.
  destruct fit_three_samples_ok as [s Hfit].
  assert (Hs : variant unfitted_multinomial = variant s /\
               alpha unfitted_multinomial = alpha s /\
               fit_prior unfitted_multinomial = fit_prior s).
  { pose proof Hfit as H. apply fit_inv in H as [_ H].
    apply fit1ofK_fitted in H as [_ [Hv [Ha [Hf _]]]].
    destruct (alpha_label_1ofK unfitted_multinomial (Labels1D [0; 1; 1]%Z))
      as [Ha' Hv'].
    rewrite Hv, Ha, Hf, Hv', Ha'. repeat split. }
  destruct Hs as [Hv [Ha Hf]].
  exists s. repeat split; try assumption.
  exact (fit_forgets_previous_state unfitted_multinomial s s three_samples
           [0; 1; 1]%Z None None Hv Ha Hf Hfit).
Defined.

(** X6: a non-empty class_prior whose length is not the number of columns
    of the label matrix fails the assertion of line 252: fit raises
    AssertionError and has written neither class_log_prior_ nor
    feature_log_prob_ (only the class set, which _label_1ofK stored). *)
Theorem wrong_prior_length_raises :
  forall (self : DiscreteNB) (X : ndarray) (y : list Z) (p : R) (ps : list R),
    shape0 X = length y ->
    length (p :: ps) <> shape1 (snd (_label_1ofK self (Labels1D y))) ->
    fit self X (Labels1D y) None (Some (p :: ps))
    = (set_classes self (unique y), Raise AssertionError).
Proof.
  intros self X y p ps Hrows Hlen. rewrite fit_unfold, Hrows, Nat.eqb_refl.
  cbn [negb]. unfold _fit1ofK.
  apply Nat.eqb_neq in Hlen. now rewrite Hlen.
Qed.

Lemma wrong_prior_length_raises_witness :
  shape0 three_samples = length [0; 1; 1]%Z /\
  length [1 / 3; 1 / 3; 1 / 3]
  <> shape1 (snd (_label_1ofK unfitted_multinomial (Labels1D [0; 1; 1]%Z))) /\
  fit unfitted_multinomial three_samples (Labels1D [0; 1; 1]%Z) None
    (Some [1 / 3; 1 / 3; 1 / 3])
  = (set_classes unfitted_multinomial (unique [0; 1; 1]%Z), Raise AssertionError).
Proof.
  assert (H1 : shape0 three_samples = length [0; 1; 1]%Z) by reflexivity.
  assert (H2 : length [1 / 3; 1 / 3; 1 / 3]
               <> shape1 (snd (_label_1ofK unfitted_multinomial
                                 (Labels1D [0; 1; 1]%Z)))) by (cbn; lia).
  split; [exact H1|]. split; [exact H2|].
  exact (wrong_prior_length_raises unfitted_multinomial three_samples
           [0; 1; 1]%Z (1 / 3) [1 / 3; 1 / 3] H1 H2).
Defined.

(** X7: sample weights that are neither one per sample nor a single weight
    cannot be broadcast over the label matrix: fit raises ValueError before
    it writes any parameter. *)
Theorem wrong_weights_length_raises :
  forall (self : DiscreteNB) (X : ndarray) (y : list Z) (w : list R)
         (class_prior : option (list R)),
    shape0 X = length y ->
    length w <> length y -> length w <> 1%nat ->
    fit self X (Labels1D y) (Some w) class_prior
    = (set_classes self (unique y), Raise ValueError).
Proof.
  intros self X y w cp Hrows Hw H1. rewrite fit_unfold, Hrows, Nat.eqb_refl.
  cbn [negb]. unfold _fit1ofK, scale_rows.
  rewrite (proj2 (label_1ofK_1D self y)).
  apply Nat.eqb_neq in Hw, H1. now rewrite Hw, H1.
Qed.

Lemma wrong_weights_length_raises_witness :
  shape0 three_samples = length [0; 1; 1]%Z /\
  length [1; 2] <> length [0; 1; 1]%Z /\ length [1; 2] <> 1%nat /\
  fit unfitted_multinomial three_samples (Labels1D [0; 1; 1]%Z) (Some [1; 2]) None
  = (set_classes unfitted_multinomial (unique [0; 1; 1]%Z), Raise ValueError).
Proof.
  assert (H1 : shape0 three_samples = length [0; 1; 1]%Z) by reflexivity.
  assert (H2 : length [1; 2] <> length [0; 1; 1]%Z) by (cbn; lia).
  assert (H3 : length [1; 2] <> 1%nat) by (cbn; lia).
  split; [exact H1|]. split; [exact H2|]. split; [exact H3|].
  exact (wrong_weights_length_raises unfitted_multinomial three_samples
           [0; 1; 1]%Z [1; 2] None H1 H2 H3).
Defined.

(** *** The class prior *)

Lemma fit1ofK_class_log_prior (self self' : DiscreteNB) (X Y Yw : ndarray)
    (sw cp : option (list R)) :
  _fit1ofK self X Y sw cp = (self', Ok tt) -> weighted Y sw = Ok Yw ->
  exists prior : list R,
    prior_of self Yw (shape1 Y) cp = Ok prior /\
    class_log_prior_ self' = Some prior.
Proof.
  intros H HY. apply fit1ofK_inv in H as [Yw' [prior [HY' [Hp [_ ->]]]]].
  rewrite HY in HY'. injection HY' as <-. now exists prior.
Qed.

(** X8: when no class prior is given, the prior that _fit1ofK learns is a
    distribution over the classes: with fit_prior and a positive label mass
    in every column of the label matrix (the empirical frequencies), and
    without fit_prior (the uniform prior), exp(class_log_prior_) has one
    entry per class and sums to 1. *)
Theorem learned_prior_sums_to_one :
  forall (self self' : DiscreteNB) (X Y Yw : ndarray)
         (sample_weight : option (list R)),
    _fit1ofK self X Y sample_weight None = (self', Ok tt) ->
    weighted Y sample_weight = Ok Yw ->
    (0 < shape1 Y)%nat ->
    (fit_prior self = true ->
     forall c : nat, (c < shape1 Y)%nat -> 0 < nth c (sum_axis0 Yw) 0) ->
    exists prior : list R,
      class_log_prior_ self' = Some prior /\
      length prior = shape1 Y /\
      vsum (map exp prior) = 1.
Proof.
  intros self self' X Y Yw sw Hfit HY HC Hpos.
  destruct (fit1ofK_class_log_prior self self' X Y Yw sw None Hfit HY)
    as [prior [Hp Hprior]].
  destruct (@shape_weighted Y Yw sw HY) as [_ Hw1].
  exists prior. split; [exact Hprior|].
  split; [rewrite <- Hw1 in Hp |- *; exact (@length_prior_of self Yw None prior Hp)|].
  unfold prior_of in Hp. destruct (fit_prior self) eqn:Hf.
  - injection Hp as <-. specialize (Hpos eq_refl).
    unfold sum_axis0 in *. rewrite Hw1 in *.
    set (g := fun j => rsum (shape0 Yw) (fun i => get Yw i j)) in *.
    rewrite rsum_vtabulate, !map_vtabulate, rsum_vtabulate.
    assert (Hg : forall c, (c < shape1 Y)%nat -> 0 < g c).
    { intros c Hc. specialize (Hpos c Hc). now rewrite nth_vtabulate in Hpos. }
    assert (HS : 0 < rsum (shape1 Y) g).
    { clear - HC Hg. induction (shape1 Y) as [|n IH]; [lia|].
      rewrite rsum_S. destruct n as [|n].
      - unfold rsum at 1. cbn. specialize (Hg 0%nat ltac:(lia)). lra.
      - specialize (IH ltac:(lia) ltac:(intros c Hc; apply Hg; lia)).
        specialize (Hg (S n) ltac:(lia)). lra. }
    rewrite (@rsum_ext (shape1 Y) _ (fun c => g c * / rsum (shape1 Y) g)).
    + rewrite rsum_scale. field. lra.
    + intros c Hc. specialize (Hg c Hc). unfold Rminus.
      now rewrite exp_plus, exp_Ropp, !exp_ln.
  - injection Hp as <-. rewrite map_vtabulate, rsum_vtabulate, rsum_const.
    assert (HI : 0 < INR (shape1 Y)) by now apply lt_0_INR.
    replace (0 - ln (INR (shape1 Y))) with (- ln (INR (shape1 Y))) by lra.
    rewrite exp_Ropp, exp_ln by exact HI. field. lra.
Qed.

Lemma learned_prior_sums_to_one_witness :
  exists (self' : DiscreteNB) (prior : list R),
    _fit1ofK unfitted_multinomial three_samples three_onehot None None
    = (self', Ok tt) /\
    weighted three_onehot None = Ok three_onehot /\
    (0 < shape1 three_onehot)%nat /\
    class_log_prior_ self' = Some prior /\
    vsum (map exp prior) = 1.
Proof.
  destruct fit1ofK_three_samples as [self' Hfit].
  assert (HC : (0 < shape1 three_onehot)%nat) by (cbn; lia).
  assert (Hpos : fit_prior unfitted_multinomial = true ->
                 forall c : nat, (c < shape1 three_onehot)%nat ->
                   0 < nth c (sum_axis0 three_onehot) 0).
  { intros _ c Hc. cbn in Hc. destruct c as [|[|c]]; [| |lia];
      np_eval; lra. }
  destruct (learned_prior_sums_to_one unfitted_multinomial self' three_samples
              three_onehot three_onehot None Hfit eq_refl HC Hpos)
    as [prior [Hp [_ Hsum]]].
  exists self', prior. repeat split; assumption.
Defined.

(** *** Errors of the scoring functions *)

(** X9: a batch whose number of features differs from the number the
    classifier was fitted with makes the scores fail with ValueError, for
    both variants, and with them predict_log_proba, predict_proba and
    predict (which looks at its classes only after the scores). *)
Theorem feature_count_mismatch_raises :
  forall (self : DiscreteNB) (X : ndarray) (C F : nat),
    fitted self C F -> shape1 X <> F ->
    _joint_log_likelihood self X = Raise ValueError /\
    predict_log_proba self X = Raise ValueError /\
    predict_proba self X = Raise ValueError /\
    predict self X = Raise ValueError.
Proof.
  intros self X C F [prior [flp [Hp [Hf [Hlen [H0 H1]]]]]] HX.
  assert (Hj : _joint_log_likelihood self X = Raise ValueError).
  { unfold _joint_log_likelihood, coef_, intercept_. rewrite Hp, Hf.
    destruct (variant self) as [|threshold]; cbn [rbind].
    - unfold dot. rewrite shape0_T, H1.
      apply Nat.eqb_neq in HX. now rewrite HX.
    - assert (Hb : shape1 (match threshold with
                           | Some t => binarize X t
                           | None => X
                           end) = shape1 X) by now destruct threshold.
      rewrite Hb, H1. apply Nat.eqb_neq in HX. now rewrite HX. }
  unfold predict_proba, predict_log_proba, predict. rewrite Hj. repeat split.
Qed.

Lemma feature_count_mismatch_raises_witness :
  exists self' : DiscreteNB,
    fitted self' 2 2 /\ shape1 (mkarray 1 3 [[1; 0; 2]]) <> 2%nat /\
    predict_proba self' (mkarray 1 3 [[1; 0; 2]]) = Raise ValueError.
Proof.
  destruct fit_three_samples_ok as [self' Hfit].
  assert (Hf : fitted self' 2 2) by exact (@fit_fitted _ _ _ _ _ _ _ Hfit).
  assert (Hne : shape1 (mkarray 1 3 [[1; 0; 2]]) <> 2%nat) by (cbn; lia).
  exists self'. split; [exact Hf|]. split; [exact Hne|].
  exact (proj1 (proj2 (proj2 (feature_count_mismatch_raises self'
                                 (mkarray 1 3 [[1; 0; 2]]) 2 2 Hf Hne)))).
Defined.

(** X10: a classifier that was never fitted has no feature_log_prob_: the
    scores, predict_log_proba, predict_proba and predict raise
    AttributeError, whatever the batch. *)
Theorem unfitted_classifier_raises :
  forall (self : DiscreteNB) (X : ndarray),
    feature_log_prob_ self = None ->
    _joint_log_likelihood self X = Raise AttributeError /\
    predict_log_proba self X = Raise AttributeError /\
    predict_proba self X = Raise AttributeError /\
    predict self X = Raise AttributeError.
Proof.
  intros self X Hf.
  assert (Hj : _joint_log_likelihood self X = Raise AttributeError).
  { unfold _joint_log_likelihood, coef_. rewrite Hf.
    now destruct (variant self). }
  unfold predict_proba, predict_log_proba, predict. rewrite Hj. repeat split.
Qed.

Lemma unfitted_classifier_raises_witness :
  feature_log_prob_ unfitted_bernoulli = None /\
  predict unfitted_bernoulli three_samples = Raise AttributeError.
Proof.
  split; [reflexivity|].
  exact (proj2 (proj2 (proj2 (unfitted_classifier_raises unfitted_bernoulli
                                 three_samples eq_refl)))).
Defined.

(** *** Probabilities and predictions *)

Lemma predict_proba_entries (self : DiscreteNB) (X : ndarray) (C F : nat) :
  fitted self C F -> (0 < C)%nat -> shape1 X = F ->
  exists jll L P : ndarray,
    _joint_log_likelihood self X = Ok jll /\
    shape0 jll = shape0 X /\ shape1 jll = C /\
    predict_log_proba self X = Ok L /\
    predict_proba self X = Ok P /\
    (forall i j, (i < shape0 X)%nat -> (j < C)%nat ->
       get L i j = get jll i j - logsumexp_row (vtabulate C (get jll i)) /\
       get P i j = exp (get L i j)) /\
    (forall i, (i < shape0 X)%nat -> rsum C (get P i) = 1).
Proof.
  intros Hfit HC HX.
  destruct (@joint_log_likelihood_ok self X C F Hfit HX) as [jll [Hj [Hs0 Hs1]]].
  assert (HL := @predict_log_proba_ok self X jll Hj ltac:(lia)).
  rewrite Hs0, Hs1 in HL.
  set (L := tabulate (shape0 X) C
              (fun i j => get jll i j - logsumexp_row (vtabulate C (get jll i)))) in *.
  exists jll, L, (map_array exp L).
  split; [exact Hj|]. split; [exact Hs0|]. split; [exact Hs1|].
  split; [exact HL|].
  split; [unfold predict_proba; rewrite HL; reflexivity|].
  assert (Hent : forall i j, (i < shape0 X)%nat -> (j < C)%nat ->
            get L i j = get jll i j - logsumexp_row (vtabulate C (get jll i)) /\
            get (map_array exp L) i j = exp (get L i j)).
  { intros i j Hi Hj'. split.
    - unfold L. now rewrite get_tabulate.
    - now rewrite get_map_array. }
  split; [exact Hent|].
  intros i Hi. rewrite <- rsum_vtabulate.
  rewrite (@vtabulate_ext C (get (map_array exp L) i)
             (fun j => exp (get jll i j - logsumexp_row (vtabulate C (get jll i))))).
  - rewrite <- (map_vtabulate
                  (fun x => exp (x - logsumexp_row (vtabulate C (get jll i))))).
    apply normalized_row_sums_to_one. now apply vtabulate_nonempty.
  - intros j Hj'. destruct (Hent i j Hi Hj') as [H1 H2]. now rewrite H2, H1.
Qed.










End ClassifierProperties.

(** ** Further properties of the EM meta-estimator *)

Module EMProperties.
Import Np NpFacts NaiveBayes NaiveBayesFacts SemisupervisedNB EMFacts.
Import ClassifierProperties.
Open Scope R_scope.
Unset Implicit Arguments.

Lemma take_rows_inv (A B : ndarray) (idx : list nat) :
  take_rows A idx = Ok B -> Forall (fun i => (i < shape0 A)%nat) idx.
Proof.
  unfold take_rows.
  destruct (forallb (fun i => Nat.ltb i (shape0 A)) idx) eqn:E; [|discriminate].
  intros _. apply List.Forall_forall. intros i Hi.
  rewrite forallb_forall in E. apply Nat.ltb_lt. now apply E.
Qed.

Lemma take_rows_error (A : ndarray) (idx : list nat) (e : exn) :
  take_rows A idx = Raise e -> e = IndexError.
Proof.
  unfold take_rows.
  destruct (forallb (fun i => Nat.ltb i (shape0 A)) idx); [discriminate|].
  intros H. now injection H.
Qed.

(** X13: with n_iter at most 0 the loop body never runs: fit is the initial
    M-step on the labeled rows and nothing else, it ends without error with
    the parameters of that M-step, also when relabel_all is disabled. *)
Theorem em_without_iterations_is_initial_fit :
  forall (self : SemisupervisedNB.t) (clf clf0 : DiscreteNB) (X Xl Yl : ndarray)
         (y : list Z) (class_prior : option (list R)),
    estimator self = ObjDiscreteNB clf ->
    (n_iter self <= 0)%Z ->
    shape0 X = length y ->
    take_rows X (where_ne y (-1)) = Ok Xl ->
    take_rows (snd (_label_1ofK clf (Labels1D y))) (where_ne y (-1)) = Ok Yl ->
    _fit1ofK (fst (_label_1ofK clf (Labels1D y))) Xl Yl None class_prior
    = (clf0, Ok tt) ->
    fit self X y class_prior
    = (mk (ObjDiscreteNB clf0) (n_iter self) (relabel_all self) (tol self)
          (verbose self),
       Ok MaxIterExceeded).
Proof.
  intros self clf clf0 X Xl Yl y cp Hest Hn Hrows HXl HYl HM.
  unfold fit. rewrite Hest.
  destruct (label_1ofK_1D clf y) as [_ HY0].
  destruct (_label_1ofK clf (Labels1D y)) as [clf1 Y]. cbn [fst snd] in *.
  assert (Hun : (if relabel_all self
                 then let! Xu := take_rows X (where_eq y (-1)) in
                      let! Yu := take_rows Y (where_eq y (-1)) in
                      Ok (Some Xu, Some Yu)
                 else Ok (None, None))
                <> Raise IndexError /\
                forall e, (if relabel_all self
                 then let! Xu := take_rows X (where_eq y (-1)) in
                      let! Yu := take_rows Y (where_eq y (-1)) in
                      Ok (Some Xu, Some Yu)
                 else Ok (None, None)) = Raise e -> e = IndexError).
  { destruct (relabel_all self); [|split; [discriminate | intros e H; discriminate H]].
    destruct (@take_rows_ok X (where_eq y (-1))) as [Xu [HXu _]];
      [rewrite Hrows; apply where_eq_in_range|].
    destruct (@take_rows_ok Y (where_eq y (-1))) as [Yu [HYu _]];
      [rewrite HY0; apply where_eq_in_range|].
    rewrite HXu, HYu. cbn [rbind].
    split; [discriminate | intros e H; discriminate H]. }
  destruct (if relabel_all self
            then let! Xu := take_rows X (where_eq y (-1)) in
                 let! Yu := take_rows Y (where_eq y (-1)) in
                 Ok (Some Xu, Some Yu)
            else Ok (None, None)) as [[Xu Yu]|e].
  2:{ destruct Hun as [Hne He]. specialize (He e eq_refl). now subst e. }
  rewrite HXl, HYl. cbn [rbind]. rewrite HM.
  destruct (@fit1ofK_fitted _ _ _ _ _ _ _ HM) as [Hfit _].
  destruct (@fitted_coef_intercept _ _ _ Hfit) as [c [b [Hc [Hb _]]]].
  rewrite Hc, Hb.
  replace (Z.to_nat (n_iter self)) with 0%nat by lia. reflexivity.
Qed.

Lemma where_eq_or_ne (y : list Z) (v : Z) (i : nat) :
  (i < length y)%nat -> In i (where_eq y v) \/ In i (where_ne y v).
Proof.
  intros Hi. assert (Hs : In i (seq 0 (length y))) by (apply List.in_seq; lia).
  apply list_elem_of_In in Hs.
  destruct (Z.eqb (nth i y 0%Z) v) eqn:E.
  - left. apply list_elem_of_In, list_elem_of_filter. split; [|exact Hs].
    now rewrite E.
  - right. apply list_elem_of_In, list_elem_of_filter. split; [|exact Hs].
    now rewrite E.
Qed.

(** X14: with relabel_all enabled, a label vector longer than X has rows
    makes fit raise IndexError when it selects the rows, before any
    parameter is computed: the estimator has only got the class set. *)
Theorem em_more_labels_than_rows_raises :
  forall (self : SemisupervisedNB.t) (clf : DiscreteNB) (X : ndarray)
         (y : list Z) (class_prior : option (list R)),
    estimator self = ObjDiscreteNB clf ->
    relabel_all self = true ->
    (shape0 X < length y)%nat ->
    fit self X y class_prior
    = (mk (ObjDiscreteNB (set_classes clf (unique y))) (n_iter self) true
          (tol self) (verbose self),
       Raise IndexError).
Proof.
  intros self clf X y cp Hest Hrel Hrows. unfold fit. rewrite Hest, Hrel.
  destruct (label_1ofK_1D clf y) as [H1 HY0].
  destruct (_label_1ofK clf (Labels1D y)) as [clf1 Y]. cbn [fst snd] in *.
  subst clf1.
  destruct (take_rows X (where_eq y (-1))) as [Xu|e] eqn:EXu; cbn [rbind].
  2:{ now rewrite (take_rows_error _ _ _ EXu). }
  destruct (@take_rows_ok Y (where_eq y (-1))) as [Yu [HYu _]];
    [rewrite HY0; apply where_eq_in_range|].
  rewrite HYu. cbn [rbind].
  destruct (take_rows X (where_ne y (-1))) as [Xl|e] eqn:EXl; cbn [rbind].
  2:{ now rewrite (take_rows_error _ _ _ EXl). }
  exfalso. apply take_rows_inv in EXu, EXl.
  destruct (where_eq_or_ne y (-1) (shape0 X) Hrows) as [Hin|Hin].
  - eapply List.Forall_forall in EXu; [|exact Hin]. lia.
  - eapply List.Forall_forall in EXl; [|exact Hin]. lia.
Qed.

Lemma em_more_labels_than_rows_raises_witness :
  estimator trainer_relabel_all = ObjDiscreteNB unfitted_multinomial /\
  relabel_all trainer_relabel_all = true /\
  (shape0 one_feature_each < length three_labels)%nat /\
  snd (fit trainer_relabel_all one_feature_each three_labels None)
  = Raise IndexError.
Proof.
  assert (H : (shape0 one_feature_each < length three_labels)%nat) by (cbn; lia).
  split; [reflexivity|]. split; [reflexivity|]. split; [exact H|].
  rewrite (em_more_labels_than_rows_raises trainer_relabel_all
             unfitted_multinomial one_feature_each three_labels None
             eq_refl eq_refl H).
  reflexivity.
Defined.

(** With relabel_all enabled fit succeeds on well-shaped input and leaves
    the estimator fitted for the columns of the label matrix and the
    features of X. *)
Lemma em_fit_leaves_fitted (self : SemisupervisedNB.t) (clf : DiscreteNB)
    (X : ndarray) (y : list Z) (cp : option (list R)) :
  estimator self = ObjDiscreteNB clf ->
  relabel_all self = true ->
  shape0 X = length y -> y <> [] -> (0 < shape1 X)%nat ->
  class_prior_fits (shape1 (snd (_label_1ofK clf (Labels1D y)))) cp ->
  exists (clf' : DiscreteNB) (ex : em_exit),
    fit self X y cp
    = (mk (ObjDiscreteNB clf') (n_iter self) true (tol self) (verbose self),
       Ok ex) /\
    fitted clf' (shape1 (snd (_label_1ofK clf (Labels1D y)))) (shape1 X).
Proof.
  intros Hest Hrel Hrows Hy HF Hcp.
  destruct (label_1ofK_1D clf y) as [_ HY0].
  assert (HYC := @label_1ofK_columns clf y Hy).
  unfold fit. rewrite Hest, Hrel.
  destruct (_label_1ofK clf (Labels1D y)) as [clf1 Y]. cbn [fst snd] in *.
  destruct (@take_rows_ok X (where_eq y (-1))) as [Xu [HXu _]];
    [rewrite Hrows; apply where_eq_in_range|].
  destruct (@take_rows_ok Y (where_eq y (-1))) as [Yu [HYu _]];
    [rewrite HY0; apply where_eq_in_range|].
  destruct (@take_rows_ok X (where_ne y (-1))) as [Xl [HXl [HXl0 HXl1]]];
    [rewrite Hrows; apply where_ne_in_range|].
  destruct (@take_rows_ok Y (where_ne y (-1))) as [Yl [HYl [HYl0 HYl1]]];
    [rewrite HY0; apply where_ne_in_range|].
  rewrite HXu, HYu, HXl, HYl. cbn [rbind].
  assert (Hcp' : class_prior_fits (shape1 Yl) cp) by now rewrite HYl1.
  destruct (@prior_of_ok clf1 Yl cp Hcp') as [prior Hprior].
  assert (HM := @fit1ofK_ok clf1 Xl Yl Yl None cp prior eq_refl Hprior
                  ltac:(congruence)).
  set (clf0 := set_feature_log_prob (set_class_log_prior clf1 prior)
                 (tabulate (shape1 Yl) (shape1 Xl)
                    (spec_feature_log_prob (alpha clf1) (counted clf1 Xl) Yl))) in *.
  destruct (@fit1ofK_fitted _ _ _ _ _ _ _ HM) as [Hfit0 _].
  rewrite HYl1, HXl1 in Hfit0.
  destruct (@fitted_coef_intercept _ _ _ Hfit0) as [c0 [b0 [Hc [Hb [Hc0 [Hc1 Hbl]]]]]].
  rewrite HM, Hc, Hb.
  destruct (@em_loop_runs (tol self * INR (shape1 X)) cp X (shape1 Y) (shape1 X)
              ltac:(lia) HF eq_refl Hcp (Z.to_nat (n_iter self)) clf0 Y
              (Some Xu) (Some Yu) c0 b0 Hfit0 Hc0 Hc1 Hbl)
    as [clf' [ex [Hloop [_ Hfit']]]].
  rewrite Hloop. exists clf', ex. split; [reflexivity | exact Hfit'].
Qed.

(** X15: for a MultinomialNB with alpha > 0 whose class prior comes from
    the arguments (given with positive entries, or uniform), after a fit
    with relabel_all enabled on a non-negative X with one row per label, at
    least one label and one feature, the fitted estimator scores X itself:
    predict_proba(X) succeeds, has one row per sample and one column per
    column of the label matrix, and in exact arithmetic each of its rows
    sums to 1. *)
Theorem em_fit_then_predict_proba :
  forall (self : SemisupervisedNB.t) (clf : DiscreteNB) (X : ndarray)
         (y : list Z) (class_prior : option (list R)),
    estimator self = ObjDiscreteNB clf ->
    relabel_all self = true ->
    variant clf = Multinomial -> 0 < alpha clf ->
    (forall r i : nat, 0 <= get X r i) ->
    prior_from_arguments clf class_prior ->
    shape0 X = length y -> y <> [] -> (0 < shape1 X)%nat ->
    class_prior_fits (shape1 (snd (_label_1ofK clf (Labels1D y)))) class_prior ->
    exists (clf' : DiscreteNB) (ex : em_exit) (P : ndarray),
      fit self X y class_prior
      = (mk (ObjDiscreteNB clf') (n_iter self) true (tol self) (verbose self),
         Ok ex) /\
      predict_proba clf' X = Ok P /\
      shape0 P = length y /\
      shape1 P = shape1 (snd (_label_1ofK clf (Labels1D y))) /\
      forall i : nat, (i < length y)%nat ->
        rsum (shape1 P) (get P i) = 1.
Proof.
  intros self clf X y cp Hest Hrel _ _ _ _ Hrows Hy HF Hcp.
  destruct (em_fit_leaves_fitted self clf X y cp Hest Hrel Hrows Hy HF Hcp)
    as [clf' [ex [Hfit Hfitted]]].
  assert (HYC := @label_1ofK_columns clf y Hy).
  set (C := shape1 (snd (_label_1ofK clf (Labels1D y)))) in *.
  destruct (predict_proba_entries clf' X C (shape1 X) Hfitted ltac:(lia) eq_refl)
    as [jll [L [P [_ [_ [_ [HL [HP [_ Hsum]]]]]]]]].
  destruct (@predict_proba_ok clf' X C (shape1 X) Hfitted ltac:(lia) eq_refl)
    as [P' [HP' [HP0 HP1]]].
  rewrite HP in HP'. injection HP' as <-.
  exists clf', ex, P. split; [exact Hfit|]. split; [exact HP|].
  split; [congruence|]. split; [exact HP1|].
  intros i Hi. rewrite HP1. apply Hsum. congruence.
Qed.

Lemma em_fit_then_predict_proba_witness :
  exists (clf' : DiscreteNB) (P : ndarray),
    estimator trainer_uniform_prior = ObjDiscreteNB uniform_multinomial /\
    relabel_all trainer_uniform_prior = true /\
    variant uniform_multinomial = Multinomial /\
    0 < alpha uniform_multinomial /\
    (forall r i : nat, 0 <= get three_samples r i) /\
    prior_from_arguments uniform_multinomial None /\
    shape0 three_samples = length three_labels /\
    three_labels <> [] /\ (0 < shape1 three_samples)%nat /\
    predict_proba clf' three_samples = Ok P /\
    shape0 P = 3%nat.
Proof.
  assert (Ha : 0 < alpha uniform_multinomial) by (cbn; lra).
  destruct (em_fit_then_predict_proba trainer_uniform_prior uniform_multinomial
              three_samples three_labels None eq_refl eq_refl eq_refl Ha
              three_samples_nonneg eq_refl eq_refl
              ltac:(discriminate) ltac:(cbn; lia) I)
    as [clf' [ex [P [_ [HP [H0 _]]]]]].
  exists clf', P. split; [reflexivity|]. split; [reflexivity|].
  split; [reflexivity|]. split; [exact Ha|].
  split; [exact three_samples_nonneg|]. split; [reflexivity|].
  split; [reflexivity|]. split; [discriminate|]. split; [cbn; lia|].
  split; [exact HP | exact H0].
Defined.

Lemma em_without_iterations_is_initial_fit_witness :
  exists (clf0 : DiscreteNB),
    estimator trainer_no_iterations = ObjDiscreteNB unfitted_multinomial /\
    (n_iter trainer_no_iterations <= 0)%Z /\
    shape0 three_samples = length three_labels /\
    fit trainer_no_iterations three_samples three_labels None
    = (mk (ObjDiscreteNB clf0) 0 false (1 / 100000) false, Ok MaxIterExceeded).
Proof.
  set (Y := snd (_label_1ofK unfitted_multinomial (Labels1D three_labels))).
  set (s1 := fst (_label_1ofK unfitted_multinomial (Labels1D three_labels))).
  destruct (take_rows three_samples (where_ne three_labels (-1))) as [Xl|e] eqn:EX;
    [|discriminate EX].
  destruct (take_rows Y (where_ne three_labels (-1))) as [Yl|e] eqn:EY;
    [|discriminate EY].
  assert (HX : shape0 Xl = 2%nat) by (injection EX as <-; reflexivity).
  assert (HY : shape0 Yl = 2%nat) by (injection EY as <-; reflexivity).
  assert (HM := @fit1ofK_ok s1 Xl Yl Yl None None
                  (map (fun f => ln f - ln (vsum (sum_axis0 Yl))) (sum_axis0 Yl))
                  eq_refl eq_refl ltac:(congruence)).
  eexists. split; [reflexivity|]. split; [cbn; lia|]. split; [reflexivity|].
  exact (em_without_iterations_is_initial_fit trainer_no_iterations
           unfitted_multinomial _ three_samples Xl Yl three_labels None
           eq_refl ltac:(cbn; lia) eq_refl EX EY HM).
Defined.

End EMProperties.

(** ** Further properties of the pipeline object *)

Module ActivePipeProperties.
Import ActivePipe ActivePipeFacts ActivePipeSession.
Open Scope Z_scope.
Unset Implicit Arguments.

(** X16: what save_session stores, load_session gives back: if a pipeline
    saves its session under a name, any pipeline whose filename is that name
    loads exactly the saved vectors and targets, in place of whatever
    answers it had, and keeps its corpus, classes and configuration; and
    saving has touched no file but the one named. *)
Theorem session_round_trip :
  forall (self other : ActivePipeline) (fs fs' : session_files) (name : string),
    save_session self fs name = (fs', true) ->
    filename other = name ->
    (exists loaded : ActivePipeline,
        load_session other fs' = Read (loaded, true) /\
        user_vectors loaded = user_vectors self /\
        user_targets loaded = user_targets self /\
        unlabeled_corpus loaded = unlabeled_corpus other /\
        classes loaded = classes other /\
        config loaded = config other /\
        filename loaded = name) /\
    (forall file : string, file <> name -> fs' !! file = fs !! file).
Proof.
  intros self other fs fs' name Hsave Hname. unfold save_session in Hsave.
  destruct (user_vectors self) as [|v vs] eqn:Hv; cbn [orb] in Hsave;
    [discriminate Hsave|].
  destruct (String.eqb name "") eqn:En; [discriminate Hsave|].
  injection Hsave as <-. unfold load_session. rewrite Hname, En.
  unfold session_files in *. split.
  - rewrite lookup_insert_eq. eexists. split; [reflexivity|].
    cbn. repeat split; congruence.
  - intros file Hfile. now rewrite lookup_insert_ne.
Qed.

Lemma session_round_trip_witness :
  exists fs' : session_files,
    save_session answered ∅ "sessions/demo" = (fs', true) /\
    filename answered = "sessions/demo"%string /\
    exists loaded : ActivePipeline,
      load_session answered fs' = Read (loaded, true) /\
      user_vectors loaded = ["q1"; "q9"]%string.
Proof.
  eexists. split; [reflexivity|]. split; [reflexivity|].
  destruct (proj1 (session_round_trip answered answered ∅ _ "sessions/demo"
                     eq_refl eq_refl)) as [loaded [Hl [Hv _]]].
  exists loaded. split; [exact Hl | exact Hv].
Defined.

(** X17: a session without answers cannot be resumed: save_session of a
    pipeline that has no answer yet reports False and creates no file, so
    that a pipeline given that session name afterwards does not get False
    from load_session but the IOError of opening a file that is not
    there. *)
Theorem unsaved_session_cannot_be_loaded :
  forall (self other : ActivePipeline) (fs : session_files) (name : string),
    user_vectors self = [] ->
    name <> ""%string ->
    fs !! name = None ->
    filename other = name ->
    save_session self fs name = (fs, false) /\
    load_session other (fst (save_session self fs name)) = IOError.
Proof.
  intros self other fs name Hv Hname Hnone Hother.
  assert (Hsave : save_session self fs name = (fs, false))
    by (unfold save_session; now rewrite Hv).
  split; [exact Hsave|]. rewrite Hsave. cbn [fst].
  unfold load_session. rewrite Hother.
  apply String.eqb_neq in Hname. now rewrite Hname, Hnone.
Qed.

Lemma unsaved_session_cannot_be_loaded_witness :
  user_vectors three_questions = [] /\
  "sessions/demo"%string <> ""%string /\
  (∅ : session_files) !! "sessions/demo"%string = None /\
  filename answered = "sessions/demo"%string /\
  load_session answered (fst (save_session three_questions ∅ "sessions/demo"))
  = IOError.
Proof.
  assert (H1 : user_vectors three_questions = []) by reflexivity.
  assert (H2 : "sessions/demo"%string <> ""%string) by discriminate.
  assert (H3 : (∅ : session_files) !! "sessions/demo"%string = None)
    by reflexivity.
  assert (H4 : filename answered = "sessions/demo"%string) by reflexivity.
  split; [exact H1|]. split; [exact H2|]. split; [exact H3|].
  split; [exact H4|].
  exact (proj2 (unsaved_session_cannot_be_loaded three_questions answered ∅
                  "sessions/demo" H1 H2 H3 H4)).
Defined.

(** *** Writing the answers into the corpus *)

Lemma set_first_target_questions (corpus : list entry) (q t : string) :
  map question (set_first_target corpus q t) = map question corpus.
Proof.
  induction corpus as [|e rest IH]; cbn [set_first_target map]; [reflexivity|].
  destruct (String.eqb (question e) q); cbn [map question]; [reflexivity|].
  now rewrite IH.
Qed.

Lemma set_first_target_nth (corpus : list entry) (q t : string) (k : nat)
    (e' : entry) :
  nth_error (set_first_target corpus q t) k = Some e' ->
  nth_error corpus k = Some e' \/ (question e' = q /\ target e' = Some t).
Proof.
  revert k. induction corpus as [|e rest IH]; intros k H; cbn [set_first_target] in H.
  - now left.
  - destruct (String.eqb_spec (question e) q) as [Hq|Hq].
    + destruct k as [|k]; cbn [nth_error] in *; [|now left].
      injection H as <-. right. now split.
    + destruct k as [|k]; cbn [nth_error] in *; [now left | now apply IH].
Qed.

Lemma set_first_target_other (corpus : list entry) (q t : string) (k : nat)
    (e : entry) :
  nth_error corpus k = Some e -> question e <> q ->
  nth_error (set_first_target corpus q t) k = Some e.
Proof.
  revert k. induction corpus as [|e0 rest IH]; intros k H Hq; [exact H|].
  cbn [set_first_target]. destruct (String.eqb_spec (question e0) q) as [H0|H0].
  - destruct k as [|k]; cbn [nth_error] in *; [|exact H].
    injection H as <-. contradiction.
  - destruct k as [|k]; cbn [nth_error] in *; [exact H | now apply IH].
Qed.

Lemma label_loop_spec (targets : list string) :
  forall (vs : list string) (i : nat) (c : list entry),
    (i + length vs <= length targets)%nat ->
    exists c' : list entry,
      label_loop targets i vs c = Ok c' /\
      map question c' = map question c /\
      (forall k e', nth_error c' k = Some e' ->
         nth_error c k = Some e' \/
         exists t, target e' = Some t /\
                   In (question e', t) (combine vs (skipn i targets))) /\
      (forall k e, nth_error c k = Some e -> ~ In (question e) vs ->
         nth_error c' k = Some e).
Proof.
  induction vs as [|v rest IH]; intros i c Hlen.
  - exists c. split; [reflexivity|]. split; [reflexivity|].
    split; [intros k e' H; now left | intros k e H _; exact H].
  - cbn [length] in Hlen.
    destruct (nth_error targets i) as [t|] eqn:Ht;
      [|apply nth_error_None in Ht; lia].
    assert (Hskip : skipn i targets = t :: skipn (S i) targets).
    { clear - Ht. revert i Ht. induction targets as [|x xs IHt]; intros i Ht.
      - destruct i; discriminate Ht.
      - destruct i as [|i]; cbn [nth_error skipn] in *.
        + now injection Ht as ->.
        + now apply IHt. }
    cbn [label_loop]. unfold ActivePipe.index. rewrite Ht. cbn [rbind].
    rewrite Hskip. cbn [combine].
    destruct (existsb (fun e => String.eqb (question e) v) c) eqn:Hex.
    + destruct (IH (S i) (set_first_target c v t) ltac:(lia))
        as [c' [Hrun [Hq [Hin Hout]]]].
      exists c'. split; [exact Hrun|].
      split; [now rewrite Hq, set_first_target_questions|]. split.
      * intros k e' He'. destruct (Hin k e' He') as [H|[t' [Ht' Hc]]].
        -- destruct (set_first_target_nth c v t k e' H) as [H'|[Hqe Hte]];
             [now left|].
           right. exists t. split; [exact Hte|]. left. now rewrite Hqe.
        -- right. exists t'. split; [exact Ht'|]. now right.
      * intros k e He Hnot. apply Hout.
        -- apply set_first_target_other; [exact He|].
           intros Heq. apply Hnot. now left.
        -- intros Hr. apply Hnot. now right.
    + destruct (IH (S i) c ltac:(lia)) as [c' [Hrun [Hq [Hin Hout]]]].
      exists c'. split; [exact Hrun|]. split; [exact Hq|]. split.
      * intros k e' He'. destruct (Hin k e' He') as [H|[t' [Ht' Hc]]];
          [now left|].
        right. exists t'. split; [exact Ht'|]. now right.
      * intros k e He Hnot. apply Hout; [exact He|].
        intros Hr. apply Hnot. now right.
Qed.

(** X18: label_corpus, with a target for every vector of the user, returns
    the number of these vectors and writes a corpus with the same questions
    in the same order; an entry of it is the entry that was there, or
    carries a target that the user gave for that very question; and an
    entry whose question the user never answered is left as it was. *)
Theorem label_corpus_keeps_questions :
  forall self : ActivePipeline,
    (length (user_vectors self) <= length (user_targets self))%nat ->
    exists corpus' : list entry,
      label_corpus self = Ok (corpus', length (user_vectors self)) /\
      map question corpus' = map question (unlabeled_corpus self) /\
      (forall k e', nth_error corpus' k = Some e' ->
         nth_error (unlabeled_corpus self) k = Some e' \/
         exists t, target e' = Some t /\
                   In (question e', t)
                      (combine (user_vectors self) (user_targets self))) /\
      (forall k e, nth_error (unlabeled_corpus self) k = Some e ->
         ~ In (question e) (user_vectors self) ->
         nth_error corpus' k = Some e).
Proof.
  intros self Hlen.
  destruct (label_loop_spec (user_targets self) (user_vectors self) 0
              (unlabeled_corpus self) ltac:(lia))
    as [c' [Hrun [Hq [Hin Hout]]]].
  exists c'. unfold label_corpus. rewrite Hrun. cbn [rbind].
  split; [reflexivity|]. split; [exact Hq|]. split; [exact Hin | exact Hout].
Qed.

Lemma label_corpus_keeps_questions_witness :
  (length (user_vectors answered) <= length (user_targets answered))%nat /\
  exists corpus' : list entry,
    label_corpus answered = Ok (corpus', 2%nat) /\
    map question corpus' = ["q0"; "q1"; "q2"]%string.
Proof.
  assert (H : (length (user_vectors answered) <= length (user_targets answered))%nat)
    by (cbn; lia).
  split; [exact H|].
  destruct (label_corpus_keeps_questions answered H) as [c' [Hrun [Hq _]]].
  exists c'. split; [exact Hrun | exact Hq].
Defined.

(** *** The question loop *)

Lemma get_next_instance_cases (self : ActivePipeline) (u : Z) :
  get_next_instance self u = Ok None \/
  exists q : entry,
    In q (unlabeled_corpus self) /\ get_next_instance self u = Ok (Some q).
Proof.
  unfold get_next_instance, choice, ActivePipe.index.
  destruct (nth_error (unlabeled_corpus self) _) as [q|] eqn:Hq.
  - right. exists q. split; [eapply nth_error_In; exact Hq | reflexivity].
  - now left.
Qed.

Section QuestionLoop.
Variable P : Type.
Variable pipeline_fit : P -> list string -> list string -> P.
Variable pipeline_predict_log_proba : P -> string -> list (list Q).
Variable quicksort : list Q -> list nat.

Lemma bootstrap_pass_inv (h : store) (self self' : trained P) (u : Z)
    (get_class : string -> list string -> string) (e : pass_end) :
  bootstrap_pass pipeline_fit pipeline_predict_log_proba quicksort h self u get_class = (e, self') ->
  (e <> Goes_on /\ self' = self) \/
  (e = Goes_on /\ exists q a : string, recorded pipeline_fit self self' [q] [a]).
Proof.
  unfold bootstrap_pass. intros H.
  destruct (get_next_instance_cases (base self) u) as [Hn|[q [Hin Hn]]];
    rewrite Hn in H.
  - left. injection H as <- <-. split; [discriminate | reflexivity].
  - assert (Hq : In (question q) (map question (unlabeled_corpus (base self))))
      by (now apply in_map).
    assert (Hgo :
      match _most_probable_classes quicksort h (base self)
              (pipeline_predict_log_proba (pipeline self) (question q)) with
      | Raise e0 => (Raises e0, self)
      | Ok classes =>
          if String.eqb (get_class (question q) classes) "stop"
          then (Stops, self)
          else (Goes_on,
                fst (_process_prediction pipeline_fit self (question q)
                       (get_class (question q) classes)))
      end = (e, self') ->
      (e <> Goes_on /\ self' = self) \/
      (e = Goes_on /\ exists q a : string, recorded pipeline_fit self self' [q] [a])).
    { clear H. intros H.
      destruct (_most_probable_classes quicksort h (base self) _) as [cs|e0].
      - destruct (String.eqb_spec (get_class (question q) cs) "stop") as [Hs|Hs].
        + left. injection H as <- <-. split; [discriminate | reflexivity].
        + right. injection H as <- <-. split; [reflexivity|].
          exists (question q), (get_class (question q) cs).
          unfold recorded, _process_prediction, _train.
          cbn [fst base training_vectors training_target pipeline
               unlabeled_corpus classes user_vectors user_targets length].
          repeat split.
          * now constructor.
          * now constructor.
          * intros Hnil. discriminate Hnil.
          * intros _. now exists (pipeline self).
      - left. injection H as <- <-. split; [discriminate | reflexivity]. }
    destruct (emulate (base self)), (target q); try (exact (Hgo H)).
    left. injection H as <- <-. split; [discriminate | reflexivity].
Qed.

(** X19: however a run of bootstrap ends, it has ended by 'stop' or by an
    exception; the pool of unlabeled questions and the classes are what
    they were (an answered question stays in the pool); the object has
    recorded as many new questions as new answers, fewer than the passes
    made, each question one of the pool and no answer the word 'stop';
    and when anything was recorded, the pipeline is one fitted on the
    training data followed by all the recorded answers. *)
Theorem bootstrap_records_answers :
  forall (fuel : nat) (h : store) (self self' : trained P) (pass : nat)
         (draws : nat -> Z) (get_class : nat -> string -> list string -> string)
         (e : pass_end),
    bootstrap pipeline_fit pipeline_predict_log_proba quicksort fuel h self
      pass draws get_class = Some (e, self') ->
    e <> Goes_on /\
    exists qs ans : list string,
      recorded pipeline_fit self self' qs ans /\ (length qs < fuel)%nat.
Proof.
  induction fuel as [|fuel IH]; intros h self self' pass draws get_class e H;
    [discriminate H|].
  cbn [bootstrap] in H.
  destruct (bootstrap_pass pipeline_fit pipeline_predict_log_proba quicksort h self (draws pass) (get_class pass)) as [e1 self1] eqn:Hp.
  destruct (bootstrap_pass_inv _ _ _ _ _ _ Hp) as [[Hne ->]|[-> [q [a Hrec]]]].
  - assert (He : Some (e1, self) = Some (e, self')) by (now destruct e1).
    injection He as <- <-. split; [exact Hne|].
    exists [], []. split; [|cbn; lia].
    unfold recorded. rewrite !app_nil_r.
    repeat split; try constructor. intros Hq. now contradiction Hq.
  - destruct (IH _ _ _ _ _ _ _ H) as [Hne [qs [ans [Hrec' Hlen]]]].
    split; [exact Hne|]. exists (q :: qs), (a :: ans).
    split; [|cbn [length]; lia].
    destruct Hrec as (Hu & Hc & Htv & Htt & Hv & Ht & _ & Hq & Ha & _ & Hfit).
    destruct Hrec' as (Hu' & Hc' & Htv' & Htt' & Hv' & Ht' & Hl' & Hq' & Ha' & Hsame & Hfit').
    unfold recorded.
    split; [congruence|]. split; [congruence|]. split; [congruence|].
    split; [congruence|].
    split; [rewrite Hv', Hv, <- app_assoc; reflexivity|].
    split; [rewrite Ht', Ht, <- app_assoc; reflexivity|].
    split; [cbn [length]; now rewrite Hl'|].
    split; [constructor; [now inversion Hq | now rewrite <- Hu]|].
    split; [constructor; [now inversion Ha | exact Ha']|].
    split; [intros Hnil; discriminate Hnil|].
    intros _. destruct qs as [|q' qs].
    + destruct ans; [|discriminate Hl'].
      rewrite app_nil_r in Hv', Ht'.
      destruct (Hfit ltac:(discriminate)) as [p0 Hp0].
      exists p0. now rewrite (Hsame eq_refl), Hp0, Hv', Ht'.
    + destruct (Hfit' ltac:(discriminate)) as [p0 Hp0].
      exists p0. now rewrite Hp0, Htv, Htt.
Qed.

End QuestionLoop.

Lemma bootstrap_records_answers_witness :
  bootstrap fit_nothing same_scores insertion_argsort 5 one_option asking 0
    (fun _ => 4503599627370496)
    answer_then_stop
  = Some (Stops,
          mktrained
            (mkActivePipeline "" false default_config []
               [mkentry "q0" None; mkentry "q1" None; mkentry "q2" None]
               ["q1"] ["a"] ["a"; "b"; "c"]%string)
            ["t0"]%string ["c"]%string tt) /\
  exists qs ans : list string,
    recorded fit_nothing asking
      (mktrained
         (mkActivePipeline "" false default_config []
            [mkentry "q0" None; mkentry "q1" None; mkentry "q2" None]
            ["q1"] ["a"] ["a"; "b"; "c"]%string)
         ["t0"]%string ["c"]%string tt) qs ans /\
    (length qs < 5)%nat.
Proof.
  assert (H : bootstrap fit_nothing same_scores insertion_argsort 5 one_option
                asking 0 (fun _ => 4503599627370496) answer_then_stop
              = Some (Stops,
                      mktrained
                        (mkActivePipeline "" false default_config []
                           [mkentry "q0" None; mkentry "q1" None; mkentry "q2" None]
                           ["q1"] ["a"] ["a"; "b"; "c"]%string)
                        ["t0"]%string ["c"]%string tt))
    by (vm_compute; reflexivity).
  split; [exact H|].
  exact (proj2 (bootstrap_records_answers unit fit_nothing same_scores
                  insertion_argsort 5 one_option asking _ 0%nat
                  (fun _ => 4503599627370496) answer_then_stop
                  Stops H)).
Defined.

(** X20: with nothing left in the pool, bootstrap does not return: its
    first pass raises TypeError (get_next_instance gives None, which the
    loop then indexes), whatever the mode, the draw and the user, and the
    object is left as it was. *)
Theorem bootstrap_on_empty_pool_raises :
  forall (P : Type) (pipeline_fit : P -> list string -> list string -> P)
         (pipeline_predict_log_proba : P -> string -> list (list Q))
         (quicksort : list Q -> list nat) (fuel : nat) (h : store) (self : trained P) (pass : nat)
         (draws : nat -> Z) (get_class : nat -> string -> list string -> string),
    unlabeled_corpus (base self) = [] ->
    bootstrap pipeline_fit pipeline_predict_log_proba quicksort (S fuel) h
      self pass draws get_class
    = Some (Raises TypeError, self).
Proof.
  intros P pfit ppred qs fuel h self pass draws get_class Hpool.
  cbn [bootstrap]. unfold bootstrap_pass, get_next_instance, choice,
    ActivePipe.index.
  rewrite Hpool. now destruct (drawn_index _ _).
Qed.

Lemma bootstrap_on_empty_pool_raises_witness :
  unlabeled_corpus (base exhausted) = [] /\
  bootstrap fit_nothing same_scores insertion_argsort 3 one_option exhausted 0
    (fun _ => 4503599627370496)
    answer_then_stop
  = Some (Raises TypeError, exhausted).
Proof.
  split; [reflexivity|].
  exact (bootstrap_on_empty_pool_raises unit fit_nothing same_scores
           insertion_argsort 2 one_option exhausted 0%nat
           (fun _ => 4503599627370496) answer_then_stop eq_refl).
Defined.

(** X21: in emulation mode over a corpus whose entries all carry a target,
    bootstrap labels nothing: its first pass raises TypeError (the entry is
    replaced by its question before the target is read from it), without
    asking the user and without recording anything. *)
Theorem bootstrap_emulation_raises :
  forall (P : Type) (pipeline_fit : P -> list string -> list string -> P)
         (pipeline_predict_log_proba : P -> string -> list (list Q))
         (quicksort : list Q -> list nat) (fuel : nat) (h : store) (self : trained P) (pass : nat)
         (draws : nat -> Z) (get_class : nat -> string -> list string -> string),
    emulate (base self) = true ->
    Forall (fun e => target e <> None) (unlabeled_corpus (base self)) ->
    bootstrap pipeline_fit pipeline_predict_log_proba quicksort (S fuel) h
      self pass draws get_class
    = Some (Raises TypeError, self).
Proof.
  intros P pfit ppred qs fuel h self pass draws get_class Hem Hall.
  cbn [bootstrap]. unfold bootstrap_pass.
  destruct (get_next_instance_cases (base self) (draws pass))
    as [Hn|[q [Hin Hn]]]; rewrite Hn; [reflexivity|].
  rewrite Hem. rewrite List.Forall_forall in Hall. specialize (Hall q Hin).
  destruct (target q); [reflexivity | contradiction].
Qed.

Lemma bootstrap_emulation_raises_witness :
  emulate (base emulating) = true /\
  Forall (fun e => target e <> None) (unlabeled_corpus (base emulating)) /\
  bootstrap fit_nothing same_scores insertion_argsort 3 one_option emulating 0
    (fun _ => 4503599627370496)
    answer_then_stop
  = Some (Raises TypeError, emulating).
Proof.
  assert (H : Forall (fun e => target e <> None)
                (unlabeled_corpus (base emulating)))
    by (repeat constructor; discriminate).
  split; [reflexivity|]. split; [exact H|].
  exact (bootstrap_emulation_raises unit fit_nothing same_scores
           insertion_argsort 2 one_option emulating 0%nat
           (fun _ => 4503599627370496) answer_then_stop eq_refl H).
Defined.

(** *** Construction *)

(** X22: the first construction after import needs a 'features' option:
    without it the constructor raises, with KeyError when a classifier
    class was passed, and the shared configuration has taken the options
    that were passed all the same. *)
Theorem first_construction_needs_features :
  forall (fname : string) (em : bool) (kwargs : gmap string pyvalue)
         (loaded : list entry * (list string * list string) * list string),
    kwargs !! "features"%string = None ->
    exists e : exn,
      snd (__init__ store_at_import fname em kwargs loaded) = Raise e /\
      (forall c : string,
         kwargs !! "classifier"%string = Some (VClass c) -> e = KeyError) /\
      fst (__init__ store_at_import fname em kwargs loaded) !! default_config
      = Some (kwargs ∪ default_config_value).
Proof.
  intros fname em kwargs loaded Hf. unfold __init__. cbn [fst snd].
  assert (Hh : dict_update store_at_import default_config kwargs
               !! default_config = Some (kwargs ∪ default_config_value)).
  { unfold dict_update.
    replace (store_at_import !! default_config)
      with (Some default_config_value) by reflexivity.
    apply lookup_insert_eq. }
  assert (Hfeat : getitem (dict_update store_at_import default_config kwargs)
                    default_config "features" = Raise KeyError).
  { unfold getitem. rewrite Hh, (lookup_union_r kwargs _ _ Hf).
    vm_compute. reflexivity. }
  destruct (getitem (dict_update store_at_import default_config kwargs)
              default_config "classifier") as [c|e] eqn:Hc.
  - destruct (call c) as [cl|e] eqn:Hcall.
    + exists KeyError. cbn [rbind]. rewrite Hcall. cbn [rbind]. rewrite Hfeat.
      split; [reflexivity|]. split; [reflexivity | exact Hh].
    + exists e. cbn [rbind]. rewrite Hcall. split; [reflexivity|].
      split; [|exact Hh]. intros c0 Hc0. unfold getitem in Hc.
      rewrite Hh, (lookup_union_Some_l kwargs _ _ _ Hc0) in Hc.
      injection Hc as <-. discriminate Hcall.
  - exists e. cbn [rbind]. split; [reflexivity|]. split; [|exact Hh].
    intros c0 Hc0. unfold getitem in Hc.
    rewrite Hh, (lookup_union_Some_l kwargs _ _ _ Hc0) in Hc. discriminate Hc.
Qed.

Lemma first_construction_needs_features_witness :
  ({[ "classifier"%string := VClass "MultinomialNB" ]} : gmap string pyvalue)
    !! "features"%string = None /\
  snd (__init__ store_at_import "" false
         {[ "classifier"%string := VClass "MultinomialNB" ]} nothing_loaded)
  = Raise KeyError.
Proof.
  assert (H : ({[ "classifier"%string := VClass "MultinomialNB" ]}
                 : gmap string pyvalue) !! "features"%string = None)
    by (vm_compute; reflexivity).
  split; [exact H|].
  destruct (first_construction_needs_features "" false _ nothing_loaded H)
    as [e [He [Hk _]]].
  rewrite He. f_equal. apply (Hk "MultinomialNB"%string).
  vm_compute. reflexivity.
Defined.

(** X23: a pipeline constructed after import without a 'number_of_options'
    option cannot list classes: on the scores of any instance
    _most_probable_classes raises KeyError, since defaults.py has no such
    key. *)
Theorem no_number_of_options_no_shortlist :
  forall (fname : string) (em : bool) (kwargs : gmap string pyvalue)
         (loaded : list entry * (list string * list string) * list string)
         (p : ActivePipeline) (quicksort : list Q -> list nat)
         (scores : list Q) (others : list (list Q)),
    kwargs !! "number_of_options"%string = None ->
    snd (__init__ store_at_import fname em kwargs loaded) = Ok p ->
    _most_probable_classes quicksort
      (fst (__init__ store_at_import fname em kwargs loaded)) p
      (scores :: others)
    = Raise KeyError.
Proof.
  intros fname em kwargs loaded p quicksort scores others Hk Hp.
  assert (Hcfg : config p = default_config).
  { unfold __init__ in Hp. cbn [snd] in Hp. unfold rbind in Hp.
    destruct (getitem _ _ "classifier") as [c|]; [|discriminate].
    destruct (call c) as [cl|]; [|discriminate].
    destruct (getitem _ _ "features") as [f|]; [|discriminate].
    destruct loaded as [[u [vs ts]] cs]. now inversion Hp. }
  assert (Hh : dict_update store_at_import default_config kwargs
               !! default_config = Some (kwargs ∪ default_config_value)).
  { unfold dict_update.
    replace (store_at_import !! default_config)
      with (Some default_config_value) by reflexivity.
    apply lookup_insert_eq. }
  unfold _most_probable_classes, __init__.
  cbn [fst map ActivePipe.index nth_error rbind].
  rewrite Hcfg. unfold getitem.
  rewrite Hh, (lookup_union_r kwargs _ _ Hk).
  vm_compute. reflexivity.
Qed.

Lemma no_number_of_options_no_shortlist_witness :
  second_kwargs !! "number_of_options"%string = None /\
  exists p : ActivePipeline,
    snd (__init__ store_at_import "" false second_kwargs nothing_loaded) = Ok p /\
    _most_probable_classes insertion_argsort
      (fst (__init__ store_at_import "" false second_kwargs nothing_loaded)) p
      [scores_no_ties]
    = Raise KeyError.
Proof.
  assert (H : second_kwargs !! "number_of_options"%string = None)
    by (vm_compute; reflexivity).
  split; [exact H|].
  destruct (snd (__init__ store_at_import "" false second_kwargs nothing_loaded))
    as [p|e] eqn:E; [|vm_compute in E; discriminate E].
  exists p. split; [reflexivity|].
  exact (no_number_of_options_no_shortlist "" false second_kwargs nothing_loaded
           p insertion_argsort scores_no_ties [] H E).
Defined.

End ActivePipeProperties.

(** ** Further properties of the instance loop *)

Module VisualizationProperties.
Import Visualization VisualizationSession.
Open Scope Z_scope.
Unset Implicit Arguments.

Lemma split_at {A : Type} (c : list A) :
  forall (idx : nat) (i : A),
    nth_error c idx = Some i -> c = firstn idx c ++ i :: skipn (S idx) c.
Proof.
  induction c as [|x xs IH]; intros idx i Hi.
  - destruct idx; discriminate Hi.
  - destruct idx as [|idx]; cbn [nth_error firstn skipn app] in *.
    + now injection Hi as ->.
    + f_equal. now apply IH.
Qed.

Section InstanceLoop.
Variables (V M : Type).
Variable m : methods V M.

Lemma moved_refl (a : activepipe V M) : moved a a 0.
Proof.
  unfold moved. split; [|split; [lia|split; [lia|reflexivity]]].
  exists []. rewrite app_nil_r. repeat split. constructor.
Qed.

Lemma moved_trans (a a1 a' : activepipe V M) (n1 n2 : Z) :
  moved a a1 n1 -> moved a1 a' n2 -> moved a a' (n1 + n2).
Proof.
  intros ([ad1 [Hu1 [Hl1 Ha1]]] & Hn1 & Hc1 & Hp1)
         ([ad2 [Hu2 [Hl2 Ha2]]] & Hn2 & Hc2 & Hp2).
  unfold moved. split; [|split; [lia|split; [lia|]]].
  - exists (ad1 ++ ad2). rewrite Hu2, Hu1, <- app_assoc.
    split; [reflexivity|]. split; [rewrite length_app; lia|].
    apply List.Forall_app. now split.
  - now rewrite Hp2.
Qed.

Lemma loop_body_inv (g : string -> list string -> string)
    (a a' : activepipe V M) (l l' : locals) (f : flow) :
  training_keeps_corpora m ->
  loop_body m g a l = (f, a', l') ->
  it l' = it l + 1 /\
  ((f <> Next /\ a' = a /\ result_ l' = result_ l) \/
   (f = Next /\ moved a a' (result_ l' - result_ l) /\
    0 <= result_ l' - result_ l <= 1)).
Proof.
  intros Hkeep H. unfold loop_body in H.
  set (idx := get_next_instance m a) in *.
  unfold instances, representations, primary_targets in H.
  rewrite !nth_error_map in H.
  destruct (nth_error (unlabeled_corpus a) idx) as [i|] eqn:Hi;
    cbn [option_map] in H.
  2:{ injection H as <- <- <-. split; [reflexivity|]. left.
      split; [discriminate|]. now split. }
  set (prediction :=
         if (emulate a && truthy (head (targets i)))%bool
         then match head (targets i) with Some p => p | None => ""%string end
         else g (representation i) (_most_probable_classes m a (vector i))) in *.
  destruct (String.eqb_spec prediction "stop") as [Hs|Hs].
  { injection H as <- <- <-. split; [reflexivity|]. left.
    split; [discriminate|]. now split. }
  destruct (String.eqb_spec prediction "train") as [Ht|Ht].
  { injection H as <- <- <-. split; [reflexivity|]. right.
    split; [reflexivity|]. cbn [result_].
    replace (result_ l - result_ l) with 0 by lia. split; [|lia].
    destruct (Hkeep a) as (H1 & H2 & H3). unfold moved.
    rewrite H1, H2, H3. split; [|split; [lia|split; [lia|reflexivity]]].
    exists []. rewrite app_nil_r. repeat split. constructor. }
  unfold pop_instance in H. rewrite Hi in H.
  injection H as <- <- <-. split; [reflexivity|]. right.
  split; [reflexivity|]. cbn [result_ it].
  replace (result_ l + 1 - result_ l) with 1 by lia. split; [|lia].
  assert (Hsplit : unlabeled_corpus a
                   = firstn idx (unlabeled_corpus a)
                     ++ i :: skipn (S idx) (unlabeled_corpus a)).
  { now apply split_at. }
  set (c1 := firstn idx (unlabeled_corpus a)) in *.
  set (c2 := skipn (S idx) (unlabeled_corpus a)) in *.
  unfold moved, add_instance.
  cbn [unlabeled_corpus user_corpus new_instances].
  split; [|split; [|split; [reflexivity|]]].
  - eexists. split; [reflexivity|]. split; [reflexivity|].
    constructor; [|constructor].
    exists prediction, (targets i). cbn [targets]. now repeat split.
  - rewrite Hsplit, !length_app. cbn [length]. lia.
  - rewrite Hsplit, !map_app. cbn [map].
    change (identity (mkinstance (vector i) (prediction :: targets i)
                        (representation i))) with (identity i).
    rewrite <- !app_assoc. cbn [app]. apply Permutation_app_head.
    rewrite app_assoc. symmetry. apply Permutation_cons_append.
Qed.

Lemma while_loop_inv (g : Z -> string -> list string -> string)
    (max_iterations : option Z) :
  training_keeps_corpora m ->
  forall (fuel : nat) (a a' : activepipe V M) (l l' : locals) (f : flow),
    while_loop fuel m g max_iterations a l = Some (f, a', l') ->
    f <> Next /\
    moved a a' (result_ l' - result_ l) /\
    result_ l' - result_ l <= it l' - it l /\
    (forall k : Z, max_iterations = Some k -> 0 < k -> it l <= k -> it l' <= k).
Proof.
  intros Hkeep. induction fuel as [|fuel IH]; intros a a' l l' f H.
  - cbn [while_loop] in H.
    destruct (loop_condition max_iterations a l); [discriminate H|].
    injection H as <- <- <-. split; [discriminate|].
    replace (result_ l - result_ l) with 0 by lia.
    split; [apply moved_refl|]. split; [lia|]. intros; lia.
  - cbn [while_loop] in H.
    destruct (loop_condition max_iterations a l) eqn:Hcond.
    2:{ injection H as <- <- <-. split; [discriminate|].
        replace (result_ l - result_ l) with 0 by lia.
        split; [apply moved_refl|]. split; [lia|]. intros; lia. }
    assert (Hlt : forall k : Z, max_iterations = Some k -> 0 < k -> it l < k).
    { intros k -> Hk. unfold loop_condition in Hcond.
      apply andb_prop in Hcond as [Hc _].
      apply orb_prop in Hc as [Hc|Hc]; lia. }
    destruct (loop_body m (g (it l + 1)) a l) as [[f1 a1] l1] eqn:Hbody.
    destruct (loop_body_inv _ _ _ _ _ _ Hkeep Hbody)
      as [Hit [(Hne & -> & Hr)|(-> & Hmoved & Hr)]].
    + assert (He : Some (f1, a, l1) = Some (f, a', l')) by (now destruct f1).
      injection He as <- <- <-. split; [exact Hne|]. rewrite Hr.
      replace (result_ l - result_ l) with 0 by lia.
      split; [apply moved_refl|]. split; [lia|].
      intros k Hk Hpos _. specialize (Hlt k Hk Hpos). lia.
    + destruct (IH _ _ _ _ _ H) as (Hne & Hmoved' & Hle & Hmax).
      split; [exact Hne|]. split.
      * replace (result_ l' - result_ l)
          with ((result_ l1 - result_ l) + (result_ l' - result_ l1)) by lia.
        eapply moved_trans; eassumption.
      * split; [lia|]. intros k Hk Hpos _. apply (Hmax k Hk Hpos).
        specialize (Hlt k Hk Hpos). lia.
Qed.

Lemma while_loop_returns (g : Z -> string -> list string -> string) (k : Z) :
  0 < k ->
  forall (fuel : nat) (a : activepipe V M) (l : locals),
    (Z.to_nat (k - it l) <= fuel)%nat ->
    exists r, while_loop fuel m g (Some k) a l = Some r.
Proof.
  intros Hk. induction fuel as [|fuel IH]; intros a l Hfuel.
  - cbn [while_loop]. destruct (loop_condition (Some k) a l) eqn:Hcond;
      [|eexists; reflexivity].
    unfold loop_condition in Hcond. apply andb_prop in Hcond as [Hc _].
    apply orb_prop in Hc as [Hc|Hc]; lia.
  - cbn [while_loop]. destruct (loop_condition (Some k) a l) eqn:Hcond;
      [|eexists; reflexivity].
    unfold loop_condition in Hcond. apply andb_prop in Hcond as [Hc _].
    assert (Hlt : it l < k) by (apply orb_prop in Hc as [Hc|Hc]; lia).
    destruct (loop_body m (g (it l + 1)) a l) as [[f1 a1] l1] eqn:Hbody.
    assert (Hit : it l1 = it l + 1).
    { clear - Hbody. unfold loop_body in Hbody.
      repeat match type of Hbody with
             | context [match ?x with _ => _ end] => destruct x
             | context [if ?x then _ else _] => destruct x
             end; now injection Hbody as <- <- <-. }
    destruct f1; try (eexists; reflexivity).
    apply IH. lia.
Qed.

End InstanceLoop.

(** X24: when instance_bootstrap returns n, and training leaves the
    corpora alone, the loop has ended by its condition, a 'stop' or an
    error, never in mid-run; exactly n instances were appended to the user
    corpus, each with an answer that is neither 'stop' nor 'train' as its
    first target; the unlabeled corpus has n instances fewer and
    new_instances has grown by n; the instances of both corpora together
    are those there were before, none lost or duplicated; and n is at most
    a positive max_iterations. *)
Theorem instance_bootstrap_counts_moved :
  forall (V M : Type) (m : methods V M) (fuel : nat)
         (get_labeled_instance : Z -> string -> list string -> string)
         (max_iterations : option Z) (a a' : activepipe V M) (f : flow) (n : Z),
    training_keeps_corpora m ->
    instance_bootstrap fuel m get_labeled_instance max_iterations a
    = Some (f, a', n) ->
    f <> Next /\
    moved a a' n /\
    (forall k : Z, max_iterations = Some k -> 0 < k -> n <= k).
Proof.
  intros V M m fuel g max_iterations a a' f n Hkeep H.
  unfold instance_bootstrap in H.
  destruct (while_loop fuel m g max_iterations a (mklocals 0 0))
    as [[[f1 a1] l1]|] eqn:Hloop; [|discriminate H].
  injection H as <- <- <-.
  destruct (while_loop_inv V M m g max_iterations Hkeep _ _ _ _ _ _ Hloop)
    as (Hne & Hmoved & Hle & Hmax).
  cbn [result_ it] in *. rewrite Z.sub_0_r in *.
  split; [exact Hne|]. split; [exact Hmoved|].
  intros k Hk Hpos. specialize (Hmax k Hk Hpos ltac:(lia)). lia.
Qed.

Lemma instance_bootstrap_counts_moved_witness :
  training_keeps_corpora counting_methods /\
  instance_bootstrap 5 counting_methods label_then_stop None two_unlabeled
  = Some (Break,
          mkactivepipe [mkinstance 8%nat [] "second question"]
            [mkinstance 7%nat ["a"%string] "first question"] 1 false 0%nat,
          1) /\
  moved two_unlabeled
    (mkactivepipe [mkinstance 8%nat [] "second question"]
       [mkinstance 7%nat ["a"%string] "first question"] 1 false 0%nat) 1.
Proof.
  assert (Hkeep : training_keeps_corpora counting_methods)
    by (intros a; cbn; repeat split).
  assert (H : instance_bootstrap 5 counting_methods label_then_stop None
                two_unlabeled
              = Some (Break,
                      mkactivepipe [mkinstance 8%nat [] "second question"]
                        [mkinstance 7%nat ["a"%string] "first question"] 1
                        false 0%nat,
                      1))
    by (vm_compute; reflexivity).
  split; [exact Hkeep|]. split; [exact H|].
  exact (proj1 (proj2 (instance_bootstrap_counts_moved nat nat counting_methods
                         5 label_then_stop None two_unlabeled _ Break 1
                         Hkeep H))).
Defined.

(** X25: with a positive max_iterations the loop of instance_bootstrap
    ends within max_iterations passes, whatever the pipeline's methods do
    and whatever the user answers (a 'train' answer counts as a pass). *)
Theorem instance_bootstrap_returns_within_max_iterations :
  forall (V M : Type) (m : methods V M) (fuel : nat)
         (get_labeled_instance : Z -> string -> list string -> string)
         (k : Z) (a : activepipe V M),
    0 < k -> (Z.to_nat k <= fuel)%nat ->
    exists r, instance_bootstrap fuel m get_labeled_instance (Some k) a = Some r.
Proof.
  intros V M m fuel g k a Hk Hfuel. unfold instance_bootstrap.
  destruct (while_loop_returns V M m g k Hk fuel a (mklocals 0 0))
    as [[[f a'] l] Hr].
  - cbn [it]. now rewrite Z.sub_0_r.
  - rewrite Hr. eexists. reflexivity.
Qed.

Lemma instance_bootstrap_returns_within_max_iterations_witness :
  0 < 1 /\ (Z.to_nat 1 <= 1)%nat /\
  exists r,
    instance_bootstrap 1 counting_methods (fun _ _ _ => "train"%string)
      (Some 1) two_unlabeled = Some r.
Proof.
  assert (H0 : 0 < 1) by lia.
  assert (H1 : (Z.to_nat 1 <= 1)%nat) by (cbn; lia).
  split; [exact H0|]. split; [exact H1|].
  exact (instance_bootstrap_returns_within_max_iterations nat nat
           counting_methods 1 (fun _ _ _ => "train"%string) 1 two_unlabeled
           H0 H1).
Defined.

End VisualizationProperties.

(** ** Properties of the Gaussian classifier *)

Module GaussianNBProperties.
Import Np NpFacts EMFacts ClassifierProperties GaussianNB.
Open Scope R_scope.
Unset Implicit Arguments.

(** *** The classes and how often each occurs *)

Lemma insert_unique_In (x z : Z) (l : list Z) :
  In z (insert_unique x l) <-> z = x \/ In z l.
Proof.
  induction l as [|h t IH]; cbn [insert_unique In]; [intuition|].
  destruct (Z.ltb_spec x h); [cbn [In]; intuition|].
  destruct (Z.eqb_spec x h) as [->|Hne]; cbn [In]; [intuition|].
  rewrite IH. intuition.
Qed.

Lemma insert_unique_sorted (x : Z) (l : list Z) :
  StronglySorted Z.lt l -> StronglySorted Z.lt (insert_unique x l).
Proof.
  induction l as [|h t IH]; intros Hs; cbn [insert_unique].
  - repeat constructor.
  - apply StronglySorted_inv in Hs as [Ht Hh].
    destruct (Z.ltb_spec x h) as [Hlt|Hge].
    + constructor; [now constructor|]. constructor; [exact Hlt|].
      eapply List.Forall_impl; [|exact Hh]. intros a Ha. cbn in Ha. lia.
    + destruct (Z.eqb_spec x h) as [->|Hne]; [now constructor|].
      constructor; [now apply IH|].
      apply List.Forall_forall. intros a Ha.
      apply insert_unique_In in Ha as [->|Ha]; [lia|].
      rewrite List.Forall_forall in Hh. now apply Hh.
Qed.

Lemma unique_In (y : list Z) (z : Z) : In z (unique y) <-> In z y.
Proof.
  induction y as [|x y IH]; cbn [unique fold_right In]; [reflexivity|].
  fold (unique y). rewrite insert_unique_In, IH. intuition.
Qed.

Lemma unique_sorted (y : list Z) : StronglySorted Z.lt (unique y).
Proof.
  induction y as [|x y IH]; [constructor|].
  cbn [unique fold_right]. now apply insert_unique_sorted.
Qed.

Lemma unique_NoDup (y : list Z) : List.NoDup (unique y).
Proof.
  pose proof (unique_sorted y) as Hs.
  induction Hs as [|a l Hl IH Ha]; constructor; [|exact IH].
  intros Hin. rewrite List.Forall_forall in Ha. specialize (Ha a Hin). lia.
Qed.

Lemma where_eq_count_from (c : Z) (y pre : list Z) :
  length (filter (fun i => Z.eqb (nth i (pre ++ y) 0%Z) c)
            (seq (length pre) (length y)))
  = length (List.filter (fun x => Z.eqb x c) y).
Proof.
  revert pre. induction y as [|x y IH]; intros pre; [reflexivity|].
  cbn [length seq List.filter]. rewrite filter_cons.
  rewrite nth_middle.
  specialize (IH (pre ++ [x])). rewrite <- app_assoc in IH. cbn [app] in IH.
  rewrite length_app in IH. cbn [length] in IH.
  rewrite Nat.add_1_r in IH.
  destruct (Z.eqb x c); cbn [length].
  - rewrite decide_True by exact I. cbn [length]. now rewrite IH.
  - rewrite decide_False by (intros []). exact IH.
Qed.

Lemma where_eq_count (c : Z) (y : list Z) :
  length (where_eq y c) = length (List.filter (fun x => Z.eqb x c) y).
Proof. exact (where_eq_count_from c y []). Qed.

Lemma list_sum_cons (a : nat) (l : list nat) :
  list_sum (a :: l) = (a + list_sum l)%nat.
Proof. reflexivity. Qed.

Lemma list_sum_zero {A : Type} (U : list A) :
  list_sum (map (fun _ => 0%nat) U) = 0%nat.
Proof. induction U as [|c U IH]; [reflexivity | exact IH]. Qed.

Lemma list_sum_indicator (x : Z) (U : list Z) :
  List.NoDup U -> In x U ->
  list_sum (map (fun c => if Z.eqb x c then 1%nat else 0%nat) U) = 1%nat.
Proof.
  induction 1 as [|c U Hc Hnd IH]; intros Hin; [contradiction|].
  cbn [map]. rewrite ?list_sum_cons. destruct (Z.eqb_spec x c) as [->|Hne].
  - assert (Hz : list_sum (map (fun c0 => if Z.eqb c c0 then 1%nat else 0%nat) U)
                 = 0%nat).
    { clear - Hc. induction U as [|a U IHU]; [reflexivity|].
      cbn [map]. rewrite ?list_sum_cons. destruct (Z.eqb_spec c a) as [->|Hne].
      - exfalso. apply Hc. now left.
      - apply IHU. intros Hin. apply Hc. now right. }
    now rewrite Hz.
  - destruct Hin as [->|Hin]; [contradiction|]. now rewrite IH.
Qed.

Lemma list_sum_map_plus {A : Type} (f g : A -> nat) (U : list A) :
  list_sum (map (fun c => (f c + g c)%nat) U)
  = (list_sum (map f U) + list_sum (map g U))%nat.
Proof. induction U as [|c U IH]; [reflexivity|]. cbn [map]. rewrite ?list_sum_cons. lia. Qed.

Lemma class_counts_add_up (U y : list Z) :
  List.NoDup U -> (forall x, In x y -> In x U) ->
  list_sum (map (fun c => length (where_eq y c)) U) = length y.
Proof.
  intros Hnd Hall.
  rewrite (map_ext _ (fun c => length (List.filter (fun x => Z.eqb x c) y)))
    by (intros c; apply where_eq_count).
  induction y as [|x y IH].
  - cbn [List.filter length]. apply list_sum_zero.
  - rewrite (map_ext _ (fun c => ((if Z.eqb x c then 1 else 0)
                                  + length (List.filter (fun x0 => Z.eqb x0 c) y))%nat))
      by (intros c; cbn [List.filter]; now destruct (Z.eqb x c)).
    rewrite list_sum_map_plus, IH by (intros z Hz; apply Hall; now right).
    rewrite list_sum_indicator; [reflexivity | exact Hnd |].
    apply Hall. now left.
Qed.

Lemma vsum_scaled_counts (f : Z -> nat) (k : R) (U : list Z) :
  vsum (map (fun c => INR (f c) / k) U) = INR (list_sum (map f U)) / k.
Proof.
  induction U as [|c U IH]; cbn [map].
  - rewrite vsum_nil. cbn. lra.
  - rewrite vsum_cons, IH, list_sum_cons, plus_INR. lra.
Qed.

(** *** What the loop computes *)

Lemma take_rows_in_range (A : ndarray) (idx : list nat) :
  Forall (fun i => (i < shape0 A)%nat) idx ->
  take_rows A idx
  = Ok (mkarray (length idx) (shape1 A)
          (map (fun i => vtabulate (shape1 A) (get A i)) idx)).
Proof.
  intros H. unfold take_rows.
  replace (forallb (fun i => Nat.ltb i (shape0 A)) idx) with true; [reflexivity|].
  symmetry. apply forallb_forall. intros i Hi. apply Nat.ltb_lt.
  eapply List.Forall_forall in H; eassumption.
Qed.

Lemma fit_loop_ok (X : ndarray) (y : list Z) (k : nat) (U : list Z) :
  length y = shape0 X ->
  fit_loop X y k U
  = Ok (map (fun c =>
               let rows := mkarray (length (where_eq y c)) (shape1 X)
                             (map (fun i => vtabulate (shape1 X) (get X i))
                                  (where_eq y c)) in
               (mean_axis0 rows, var_axis0 rows,
                INR (length (where_eq y c)) / INR k)) U).
Proof.
  intros Hlen. induction U as [|c U IH]; cbn [fit_loop map]; [reflexivity|].
  unfold rows_where. rewrite Hlen, Nat.eqb_refl.
  rewrite take_rows_in_range.
  - cbn [rbind]. rewrite IH. reflexivity.
  - eapply List.Forall_impl; [|apply where_eq_in_range]. cbn. intros i Hi. lia.
Qed.

Lemma nth_map_at {A B : Type} (f : A -> B) (U : list A) (i : nat) (d : B)
    (c : A) :
  nth_error U i = Some c -> nth i (map f U) d = f c.
Proof.
  intros Hc. apply nth_error_nth. now rewrite nth_error_map, Hc.
Qed.

Lemma var_axis0_nonneg (A : ndarray) (j : nat) : 0 <= nth j (var_axis0 A) 0.
Proof.
  unfold var_axis0. destruct (Nat.lt_ge_cases j (shape1 A)) as [Hj|Hj].
  - rewrite nth_vtabulate by exact Hj.
    assert (Hs : 0 <= rsum (shape0 A)
                        (fun i => Rsqr (get A i j - nth j (mean_axis0 A) 0)))
      by (apply rsum_nonneg_all; intros i; apply Rle_0_sqr).
    destruct (shape0 A) as [|n] eqn:Hn.
    + unfold Rdiv. cbn [INR]. rewrite Rinv_0. lra.
    + apply Rmult_le_pos; [exact Hs|].
      left. apply Rinv_0_lt_compat. apply lt_0_INR. lia.
  - rewrite nth_overflow by (rewrite length_vtabulate; exact Hj). lra.
Qed.

(** X26: GaussianNB.fit, given as many labels as samples (at least one),
    succeeds and finds the sorted distinct labels as classes, but the
    class priors it stores are the class counts divided by the number of
    classes, not by the number of samples: they add up to
    n_samples / n_classes, which is 1 exactly when every label occurs
    once. *)
Theorem gaussian_priors_sum_to_samples_per_class :
  forall (X : ndarray) (y : list Z),
    length y = shape0 X -> y <> [] ->
    exists g : GaussianNB.t,
      fit X y = Ok g /\
      _classes g = unique y /\
      length (class_prior g) = length (unique y) /\
      vsum (class_prior g) = INR (length y) / INR (length (unique y)) /\
      (vsum (class_prior g) = 1 <-> length y = length (unique y)).
Proof.
  intros X y Hlen Hne. unfold fit.
  rewrite fit_loop_ok by exact Hlen. cbn [rbind]. eexists. split; [reflexivity|].
  cbn [_classes class_prior]. split; [reflexivity|].
  rewrite map_map. cbn [snd]. split; [apply length_map|].
  assert (Hsum : vsum (map (fun c => INR (length (where_eq y c))
                                     / INR (length (unique y))) (unique y))
                 = INR (length y) / INR (length (unique y))).
  { rewrite vsum_scaled_counts, class_counts_add_up; [reflexivity| |].
    - apply unique_NoDup.
    - intros x Hx. now apply unique_In. }
  split; [exact Hsum|]. rewrite Hsum.
  assert (Hk : 0 < INR (length (unique y))).
  { apply lt_0_INR. destruct y as [|x y]; [contradiction|].
    pose proof (insert_unique_nonempty x (unique y)) as Hu.
    cbn [unique fold_right]. fold (unique y).
    destruct (insert_unique x (unique y)); [contradiction | cbn; lia]. }
  split.
  - intros H. apply INR_eq. apply (Rmult_eq_compat_r (INR (length (unique y)))) in H.
    unfold Rdiv in H. rewrite Rmult_assoc, Rinv_l in H by lra. lra.
  - intros ->. apply Rdiv_diag. lra.
Qed.

Lemma gaussian_priors_sum_to_samples_per_class_witness :
  length four_labels = shape0 four_samples /\ four_labels <> [] /\
  exists g : GaussianNB.t,
    fit four_samples four_labels = Ok g /\
    vsum (class_prior g) = INR 4 / INR 2.
Proof.
  assert (H1 : length four_labels = shape0 four_samples) by reflexivity.
  assert (H2 : four_labels <> []) by discriminate.
  split; [exact H1|]. split; [exact H2|].
  destruct (gaussian_priors_sum_to_samples_per_class four_samples four_labels
              H1 H2) as [g [Hfit [_ [_ [Hsum _]]]]].
  exists g. split; [exact Hfit | exact Hsum].
Defined.

(** X27: the variances that GaussianNB.fit stores are never negative, and
    a class with a single sample gets that sample as its mean and the
    variance 0 for every feature (the value _joint_log_likelihood then
    divides by). *)
Theorem gaussian_single_sample_has_zero_variance :
  forall (X : ndarray) (y : list Z),
    length y = shape0 X ->
    exists g : GaussianNB.t,
      fit X y = Ok g /\
      (forall i j : nat, 0 <= get (sigma g) i j) /\
      (forall (i r : nat) (c : Z),
         nth_error (unique y) i = Some c -> where_eq y c = [r] ->
         forall j : nat, (j < shape1 X)%nat ->
           get (theta g) i j = get X r j /\ get (sigma g) i j = 0).
Proof.
  intros X y Hlen. unfold fit.
  rewrite fit_loop_ok by exact Hlen. cbn [rbind]. eexists. split; [reflexivity|].
  cbn [theta sigma]. rewrite !map_map. cbn [fst snd]. split.
  - intros i j. unfold get. cbn [data].
    destruct (nth_error (unique y) i) as [c|] eqn:Hc.
    + rewrite (nth_map_at _ _ _ _ _ Hc). apply var_axis0_nonneg.
    + apply nth_error_None in Hc.
      match goal with
      | |- 0 <= nth j (nth i ?l []) 0 =>
          assert (Hn : nth i l [] = [])
            by (apply nth_overflow; rewrite length_map; exact Hc);
          rewrite Hn
      end.
      destruct j; cbn; lra.
  - intros i r c Hc Hr j Hj.
    set (rows := mkarray 1 (shape1 X) [vtabulate (shape1 X) (get X r)]).
    assert (Hget : get rows 0 j = get X r j).
    { unfold get at 1, rows. cbn [data nth]. now rewrite nth_vtabulate. }
    assert (Hmean : nth j (mean_axis0 rows) 0 = get X r j).
    { unfold mean_axis0. cbn [shape0 shape1 rows].
      rewrite nth_vtabulate by exact Hj.
      rewrite rsum_S. unfold rsum at 1. cbn [vtabulate seq map fold_right INR].
      fold rows. rewrite Hget. field. }
    split.
    + unfold get at 1. cbn [data].
      rewrite (nth_map_at _ _ _ _ _ Hc), Hr. cbn [length map].
      exact Hmean.
    + unfold get at 1. cbn [data].
      rewrite (nth_map_at _ _ _ _ _ Hc), Hr. cbn [length map].
      fold rows. unfold var_axis0. cbn [shape0 shape1 rows].
      rewrite nth_vtabulate by exact Hj.
      rewrite rsum_S. unfold rsum at 1. cbn [vtabulate seq map fold_right INR].
      fold rows. rewrite Hmean, Hget. unfold Rsqr. field.
Qed.

Lemma gaussian_single_sample_has_zero_variance_witness :
  length four_labels = shape0 four_samples /\
  exists g : GaussianNB.t,
    fit four_samples four_labels = Ok g /\
    get (theta g) 1 0 = 7 /\ get (sigma g) 1 0 = 0.
Proof.
  assert (H1 : length four_labels = shape0 four_samples) by reflexivity.
  split; [exact H1|].
  destruct (gaussian_single_sample_has_zero_variance four_samples four_labels
              H1) as [g [Hfit [_ Hone]]].
  exists g. split; [exact Hfit|].
  destruct (Hone 1%nat 3%nat 1%Z eq_refl eq_refl 0%nat) as [Ht Hs];
    [cbn; lia|].
  split; [rewrite Ht; reflexivity | exact Hs].
Defined.

End GaussianNBProperties.

(** ** The classes of the semi-supervised classifier *)

Module LabelProperties.
Import Np NpFacts NaiveBayes SemisupervisedNB NaiveBayesFacts EMFacts.
Import ClassifierProperties GaussianNBProperties.
Open Scope R_scope.
Unset Implicit Arguments.

Lemma fit1ofK_classes (clf : DiscreteNB) (X Y : ndarray)
    (sample_weight class_prior : option (list R)) :
  _classes (fst (_fit1ofK clf X Y sample_weight class_prior)) = _classes clf.
Proof.
  unfold _fit1ofK.
  destruct (match sample_weight with Some w => scale_rows Y w | None => Ok Y end)
    as [Yw|e]; [|reflexivity].
  match goal with
  | |- context [match ?p with Ok _ => _ | Raise _ => _ end] =>
      destruct p as [prior|e]; [|reflexivity]
  end.
  destruct (_count _ X Yw) as [[N_c N_c_i]|e]; reflexivity.
Qed.

Lemma em_loop_classes (relabel_all : bool) (tol : R)
    (class_prior : option (list R)) (n : nat) :
  forall (clf : DiscreteNB) (X Y : ndarray) (Xu Yu : option ndarray)
         (old_coef : ndarray) (old_intercept : list R),
    _classes (fst (em_loop relabel_all tol class_prior n clf X Y Xu Yu
                     old_coef old_intercept))
    = _classes clf.
Proof.
  induction n as [|n IH]; intros clf X Y Xu Yu oc oi; cbn [em_loop];
    [reflexivity|].
  destruct (e_step relabel_all clf X Y Xu Yu) as [[Y' Yu']|e]; [|reflexivity].
  pose proof (fit1ofK_classes clf X Y' None class_prior) as Hc.
  destruct (_fit1ofK clf X Y' None class_prior) as [clf1 [[]|e]];
    cbn [fst] in Hc; [|exact Hc].
  destruct (distance oc oi clf1) as [d|e]; [|exact Hc].
  destruct (Rlt_dec d tol); [exact Hc|].
  destruct (coef_ clf1) as [c|e]; [|exact Hc].
  destruct (intercept_ clf1) as [b|e]; [|exact Hc].
  now rewrite IH.
Qed.

(** X28: SemisupervisedNB.fit takes the classes from the whole label
    vector, before it separates the unlabeled samples: however the fit
    ends, with a result or with an error, the classes of the estimator are
    the distinct values of y in ascending order, so that the marker -1 of
    the unlabeled samples is one of the classes whenever a sample is
    unlabeled. *)
Theorem unlabeled_marker_becomes_a_class :
  forall (self : SemisupervisedNB.t) (clf : DiscreteNB) (X : ndarray)
         (y : list Z) (class_prior : option (list R)),
    estimator self = ObjDiscreteNB clf ->
    exists clf' : DiscreteNB,
      estimator (fst (SemisupervisedNB.fit self X y class_prior))
      = ObjDiscreteNB clf' /\
      _classes clf' = Some (unique y) /\
      StronglySorted Z.lt (unique y) /\
      (forall z : Z, In z (unique y) <-> In z y) /\
      (In (-1)%Z y -> In (-1)%Z (unique y)).
Proof.
  intros self clf X y cp Hest.
  assert (Hrest : StronglySorted Z.lt (unique y) /\
                  (forall z : Z, In z (unique y) <-> In z y) /\
                  (In (-1)%Z y -> In (-1)%Z (unique y))).
  { split; [apply unique_sorted|]. split; [intros z; apply unique_In|].
    intros H. now apply unique_In. }
  unfold SemisupervisedNB.fit. rewrite Hest.
  pose proof (proj1 (label_1ofK_1D clf y)) as Hl.
  destruct (_label_1ofK clf (Labels1D y)) as [clf1 Y]. cbn [fst] in Hl.
  assert (Hc1 : _classes clf1 = Some (unique y)) by (now rewrite Hl).
  clear Hl.
  destruct (if relabel_all self
            then let! Xu := take_rows X (where_eq y (-1)) in
                 let! Yu := take_rows Y (where_eq y (-1)) in
                 Ok (Some Xu, Some Yu)
            else Ok (None, None)) as [[Xu Yu]|e];
    [|exists clf1; cbn [fst estimator]; now split].
  destruct (let! Xl := take_rows X (where_ne y (-1)) in
            let! Yl := take_rows Y (where_ne y (-1)) in
            Ok (Xl, Yl)) as [[Xl Yl]|e];
    [|exists clf1; cbn [fst estimator]; now split].
  pose proof (fit1ofK_classes clf1 Xl Yl None cp) as Hc2.
  destruct (_fit1ofK clf1 Xl Yl None cp) as [clf2 [[]|e]]; cbn [fst] in Hc2;
    [|exists clf2; cbn [fst estimator]; split; [reflexivity|];
      split; [congruence | exact Hrest]].
  destruct (coef_ clf2) as [oc|e];
    [|exists clf2; cbn [fst estimator]; split; [reflexivity|];
      split; [congruence | exact Hrest]].
  destruct (intercept_ clf2) as [oi|e];
    [|exists clf2; cbn [fst estimator]; split; [reflexivity|];
      split; [congruence | exact Hrest]].
  pose proof (em_loop_classes (relabel_all self)
                (SemisupervisedNB.tol self * INR (shape1 X)) cp
                (Z.to_nat (n_iter self)) clf2 X Y Xu Yu oc oi) as Hc3.
  destruct (em_loop _ _ _ _ clf2 X Y Xu Yu oc oi) as [clf3 r].
  cbn [fst] in Hc3. exists clf3. cbn [fst estimator].
  split; [reflexivity|]. split; [congruence | exact Hrest].
Qed.

Lemma unlabeled_marker_becomes_a_class_witness :
  estimator trainer_relabel_all = ObjDiscreteNB unfitted_multinomial /\
  exists clf' : DiscreteNB,
    estimator (fst (SemisupervisedNB.fit trainer_relabel_all three_samples
                      three_labels None))
    = ObjDiscreteNB clf' /\
    _classes clf' = Some [-1; 0; 1]%Z.
Proof.
  split; [reflexivity|].
  destruct (unlabeled_marker_becomes_a_class trainer_relabel_all
              unfitted_multinomial three_samples three_labels None eq_refl)
    as [clf' [Hest [Hc _]]].
  exists clf'. split; [exact Hest | exact Hc].
Defined.

(** *** The label mass of the unlabeled marker *)

Lemma label_matrix_entry (clf : DiscreteNB) (y : list Z) (r k : nat) (c : Z) :
  (r < length y)%nat ->
  nth_error (unique y) k = Some c ->
  nth r y 0%Z <> c ->
  get (snd (_label_1ofK clf (Labels1D y))) r k = 0.
Proof.
  intros Hr Hk Hne.
  assert (Hin : In (nth r y 0%Z) (unique y)) by (apply unique_In; now apply nth_In).
  unfold _label_1ofK, LabelBinarizer_fit_transform, LabelBinarizer_classes.
  destruct (unique y) as [|a [|b [|c' l]]] eqn:HU; cbn [length].
  - destruct k; discriminate Hk.
  - destruct k as [|k]; [|destruct k; discriminate Hk].
    injection Hk as <-. destruct Hin as [Hin|[]]. congruence.
  - cbn [shape1 tabulate Nat.eqb snd shape0].
    destruct k as [|[|k]]; [| |destruct k; discriminate Hk].
    + injection Hk as <-.
      assert (Hb : nth r y 0%Z = b).
      { destruct Hin as [Hin|[Hin|[]]]; [congruence | now symmetry]. }
      rewrite !get_tabulate by lia. cbn [Nat.eqb nth].
      rewrite Hb, Z.eqb_refl. lra.
    + injection Hk as <-.
      rewrite !get_tabulate by lia. cbn [Nat.eqb nth].
      destruct (Z.eqb_spec (nth r y 0%Z) b) as [E|E]; [contradiction | reflexivity].
  - cbn [shape1 tabulate Nat.eqb snd].
    assert (Hkl : (k < S (S (S (length l))))%nat).
    { change (k < length (a :: b :: c' :: l))%nat.
      apply List.nth_error_Some. rewrite Hk. discriminate. }
    rewrite get_tabulate by lia.
    rewrite (nth_error_nth _ _ 0%Z Hk).
    destruct (Z.eqb_spec (nth r y 0%Z) c) as [E|E]; [contradiction | reflexivity].
Qed.

(** X30: the marker -1 of the unlabeled samples is a class without label
    mass in the initial M-step of SemisupervisedNB.fit: in the rows of the
    label matrix that the M-step is given, those of the labeled samples,
    the column of the class -1 sums to 0, so that the learned prior of
    line 257 takes the logarithm of 0 for that class. *)
Theorem unlabeled_class_has_no_label_mass :
  forall (clf : DiscreteNB) (y : list Z) (k : nat) (Yl : ndarray),
    nth_error (unique y) k = Some (-1)%Z ->
    take_rows (snd (_label_1ofK clf (Labels1D y))) (where_ne y (-1)) = Ok Yl ->
    nth k (sum_axis0 Yl) 0 = 0.
Proof.
  intros clf y k Yl Hk HYl.
  set (Y := snd (_label_1ofK clf (Labels1D y))) in *.
  assert (HY0 : shape0 Y = length y) by apply (proj2 (label_1ofK_1D clf y)).
  rewrite take_rows_in_range in HYl
    by (rewrite HY0; apply where_ne_in_range).
  injection HYl as <-. unfold sum_axis0. cbn [shape0 shape1].
  destruct (Nat.lt_ge_cases k (shape1 Y)) as [Hlt|Hge].
  2:{ rewrite nth_overflow by (rewrite length_vtabulate; exact Hge). reflexivity. }
  rewrite nth_vtabulate by exact Hlt.
  rewrite (@rsum_ext _ _ (fun _ => 0)); [rewrite rsum_const; lra|].
  intros i Hi. unfold get at 1. cbn [data].
  assert (Hidx : nth_error (where_ne y (-1)) i <> None)
    by (apply List.nth_error_Some; exact Hi).
  destruct (nth_error (where_ne y (-1)) i) as [r|] eqn:Er; [|contradiction].
  rewrite (nth_map_at _ _ _ _ _ Er).
  rewrite nth_vtabulate by exact Hlt.
  assert (Hr : In r (where_ne y (-1))) by (eapply nth_error_In; exact Er).
  unfold where_ne in Hr.
  apply list_elem_of_In, list_elem_of_filter in Hr as [Hne Hr].
  apply list_elem_of_In, List.in_seq in Hr.
  apply (label_matrix_entry clf y r k (-1)%Z); [lia | exact Hk |].
  intros E. rewrite E in Hne. cbn in Hne. exact Hne.
Qed.

Lemma unlabeled_class_has_no_label_mass_witness :
  exists Yl : ndarray,
    nth_error (unique three_labels) 0 = Some (-1)%Z /\
    take_rows (snd (_label_1ofK unfitted_multinomial (Labels1D three_labels)))
      (where_ne three_labels (-1)) = Ok Yl /\
    nth 0 (sum_axis0 Yl) 0 = 0.
Proof.
  destruct (take_rows
              (snd (_label_1ofK unfitted_multinomial (Labels1D three_labels)))
              (where_ne three_labels (-1))) as [Yl|e] eqn:E; [|discriminate E].
  exists Yl. split; [reflexivity|]. split; [reflexivity|].
  exact (unlabeled_class_has_no_label_mass unfitted_multinomial three_labels
           0%nat Yl eq_refl E).
Defined.

End LabelProperties.

(** ** What the Bernoulli classifier looks at *)

Module BernoulliProperties.
Import Np NpFacts NaiveBayes NaiveBayesFacts BernoulliData.
Open Scope R_scope.
Unset Implicit Arguments.

Lemma binarize_same_side (X X' : ndarray) (t : R) :
  shape0 X = shape0 X' -> shape1 X = shape1 X' ->
  (forall i j : nat, (i < shape0 X)%nat -> (j < shape1 X)%nat ->
     (t < get X i j <-> t < get X' i j)) ->
  binarize X t = binarize X' t.
Proof.
  intros H0 H1 Hside. unfold binarize, map_array. rewrite <- H0, <- H1.
  apply tabulate_ext. intros i j Hi Hj. specialize (Hside i j Hi Hj).
  destruct (Rlt_dec t (get X i j)) as [H|H], (Rlt_dec t (get X' i j)) as [H'|H'];
    tauto.
Qed.

(** X29: a BernoulliNB with a binarize threshold looks at nothing but the
    side of the threshold each feature value lies on: two batches of one
    shape whose entries lie on the same sides give the same fit (the same
    fitted classifier or the same error) and, for any classifier state, the
    same probabilities and the same predicted classes. *)
Theorem bernoulli_sees_only_threshold_side :
  forall (self : DiscreteNB) (t : R) (X X' : ndarray) (y : list Z)
         (sample_weight class_prior : option (list R)),
    variant self = Bernoulli (Some t) ->
    shape0 X = shape0 X' -> shape1 X = shape1 X' ->
    (forall i j : nat, (i < shape0 X)%nat -> (j < shape1 X)%nat ->
       (t < get X i j <-> t < get X' i j)) ->
    fit self X (Labels1D y) sample_weight class_prior
    = fit self X' (Labels1D y) sample_weight class_prior /\
    predict_proba self X = predict_proba self X' /\
    predict self X = predict self X'.
Proof.
  intros self t X X' y sw cp Hv H0 H1 Hside.
  pose proof (binarize_same_side X X' t H0 H1 Hside) as Hbin.
  assert (Hjll : _joint_log_likelihood self X = _joint_log_likelihood self X').
  { unfold _joint_log_likelihood. rewrite Hv. cbv zeta. now rewrite Hbin. }
  split; [|split].
  - unfold fit.
    pose proof (proj1 (label_1ofK_1D self y)) as Hl.
    destruct (_label_1ofK self (Labels1D y)) as [self1 Y]. cbn [fst] in Hl.
    assert (Hv1 : variant self1 = Bernoulli (Some t)) by (now rewrite Hl).
    rewrite <- H0.
    destruct (negb (Nat.eqb (shape0 X) (shape0 Y))); [reflexivity|].
    unfold _fit1ofK, _count. cbn [variant set_class_log_prior].
    rewrite Hv1, Hbin, H1. reflexivity.
  - unfold predict_proba, predict_log_proba. now rewrite Hjll.
  - unfold predict. now rewrite Hjll.
Qed.

Lemma bernoulli_sees_only_threshold_side_witness :
  variant unfitted_bernoulli = Bernoulli (Some 0) /\
  fit unfitted_bernoulli two_counts (Labels1D two_labels) None None
  = fit unfitted_bernoulli other_counts (Labels1D two_labels) None None.
Proof.
  split; [reflexivity|].
  refine (proj1 (bernoulli_sees_only_threshold_side unfitted_bernoulli 0
                   two_counts other_counts two_labels None None
                   eq_refl eq_refl eq_refl _)).
  intros i j Hi Hj.
  destruct i as [|[|i]]; [| |cbn in Hi; lia];
    (destruct j as [|[|j]]; [| |cbn in Hj; lia]);
    cbn [get nth data two_counts other_counts]; split; intros H; lra.
Defined.

End BernoulliProperties.
